(** * VirtualDisplaySurface: buffer routing for a virtual display

    A shallow embedding of
    [services/surfaceflinger/DisplayHardware/VirtualDisplaySurface.cpp]
    and the properties its design document states about it.

    The surface multiplexes two buffer sources (the sink and an internal
    scratch pool) behind one producer interface.  Its own fields are a
    record; the sources, the hardware composer and the [ConsumerBase]
    base class are collaborators whose behaviour is left open: every
    call to one of them goes through an oracle on an abstract [World]
    and is recorded in a log, so that statements can count the calls. *)

From Stdlib Require Import ZArith Lia List String Bool.
From stdpp Require Import base list.

Local Open Scope Z_scope.

(** ** Machine integers *)

(** [uint32_t] and [int] values are integers of [Z]; the conversions
    below write the wrap-around out. *)
Definition uint32 (z : Z) : Z := z mod 2 ^ 32.
Definition int32 (z : Z) : Z := (z + 2 ^ 31) mod 2 ^ 32 - 2 ^ 31.

(** [x << n] on [uint32_t]; the shift is undefined for a count outside
    [0, 32), which is [None]. *)
Definition shl32 (x n : Z) : option Z :=
  if decide (0 <= n < 32) then Some (uint32 (Z.shiftl x n)) else None.

(** [~x] on [uint32_t]. *)
Definition not32 (x : Z) : Z := uint32 (Z.lnot x).

(** ** Constants of headers that are not part of the translated file *)

(** [BufferQueue::NUM_BUFFER_SLOTS], the two dequeue flags of
    [IGraphicBufferProducer], [NO_MEMORY] of [utils/Errors.h] and two
    platform constants.  They are kept symbolic; the statements below
    say which of their properties they rely on. *)
Class Header := {
  NUM_BUFFER_SLOTS : Z;
  BUFFER_NEEDS_REALLOCATION : Z;
  RELEASE_ALL_BUFFERS : Z;
  NO_MEMORY : Z;
  GRALLOC_USAGE_HW_COMPOSER : Z;
  NATIVE_WINDOW_SCALING_MODE_FREEZE : Z
}.

(** [status_t]: [NO_ERROR] is 0, failures are negative. *)
Definition status_t := Z.
Definition NO_ERROR : status_t := 0.

(** ** Enumerations *)

Inductive CompositionType :=
| COMPOSITION_UNKNOWN
| COMPOSITION_GLES
| COMPOSITION_HWC
| COMPOSITION_MIXED.

Inductive Source := SOURCE_SINK | SOURCE_SCRATCH.

Inductive DbgState :=
| DBG_STATE_IDLE
| DBG_STATE_PREPARED
| DBG_STATE_GLES
| DBG_STATE_GLES_DONE
| DBG_STATE_HWC.

#[global] Instance CompositionType_eq_dec : EqDecision CompositionType.
Proof. solve_decision. Defined.
#[global] Instance Source_eq_dec : EqDecision Source.
Proof. solve_decision. Defined.
#[global] Instance DbgState_eq_dec : EqDecision DbgState.
Proof. solve_decision. Defined.

(** Modelled from the spec: the enumeration [Source] is declared in
    [VirtualDisplaySurface.h], which is not among the sources.  The
    ownership mask holds the tag of the owning source in one bit per
    slot, so the two tags are 0 and 1; the sink is 0 and the scratch
    pool 1, the order in which the constructor fills [mSource].  This
    is [static_cast<uint32_t>(source)]. *)
Definition Source_to_uint32 (s : Source) : Z :=
  match s with SOURCE_SINK => 0 | SOURCE_SCRATCH => 1 end.

(** ** Slot mapping and routing (pure functions) *)

Section SlotMapping.
Context `{Header}.

Definition mapSource2ProducerSlot (source : Source) (sslot : Z) : Z :=
    if decide (source = SOURCE_SCRATCH)
    then int32 (NUM_BUFFER_SLOTS - sslot - 1)
    else sslot.

Definition mapProducer2SourceSlot (source : Source) (pslot : Z) : Z :=
    mapSource2ProducerSlot source pslot.

Definition fbSourceForCompositionType (type : CompositionType) : Source :=
    if decide (type = COMPOSITION_MIXED) then SOURCE_SCRATCH else SOURCE_SINK.

End SlotMapping.

(** ** Data *)

(** [sp<T>]: a strong pointer is either null or refers to an object. *)
Abbreviation sp T := (option T) (only parsing).

(** A [GraphicBuffer] is known by its handle only. *)
Definition GraphicBuffer := Z.

(** A [Fence] object wraps a file descriptor; the object behind
    [Fence::NO_FENCE] has none. *)
Inductive Fence := FenceInvalid | FenceFd (fd : Z).
Definition NO_FENCE : sp Fence := Some FenceInvalid.

Record Rect := mkRect { left : Z; top : Z; right : Z; bottom : Z }.

(** [Rect(w, h)], with [int32_t] arguments. *)
Definition Rect_wh (w h : Z) : Rect := mkRect 0 0 (int32 w) (int32 h).

Record QueueBufferInput := mkQueueBufferInput {
  qbi_timestamp : Z;
  qbi_crop : Rect;
  qbi_scalingMode : Z;
  qbi_transform : Z;
  qbi_fence : sp Fence
}.

Record QueueBufferOutput := mkQueueBufferOutput {
  qbo_width : Z;
  qbo_height : Z;
  qbo_transformHint : Z;
  qbo_numPendingBuffers : Z
}.

(** The fields of [BufferQueue::BufferItem] that the surface reads. *)
Record BufferItem := mkBufferItem { mBuf : Z; mFence : sp Fence }.

(** What [getIGraphicBufferProducer] hands out: the surface itself or
    one of its sources. *)
Inductive ProducerRef := ThisSurface | SourceRef (source : Source).

(** The member variables of [VirtualDisplaySurface]. *)
Record VirtualDisplaySurface := mkVDS {
  mDisplayId : Z;
  mProducerUsage : Z;
  mQueueBufferOutput : QueueBufferOutput;
  mCompositionType : CompositionType;
  mSinkBufferWidth : Z;
  mSinkBufferHeight : Z;
  mFbFence : sp Fence;
  mFbProducerSlot : Z;
  mOutputProducerSlot : Z;
  mProducerSlotSource : Z;
  mProducerBuffers : list (sp GraphicBuffer);
  mDbgState : DbgState;
  mDbgLastCompositionType : CompositionType
}.

Definition set_mProducerUsage (x : Z) (v : VirtualDisplaySurface) :=
  mkVDS (mDisplayId v) x (mQueueBufferOutput v) (mCompositionType v)
    (mSinkBufferWidth v) (mSinkBufferHeight v) (mFbFence v)
    (mFbProducerSlot v) (mOutputProducerSlot v) (mProducerSlotSource v)
    (mProducerBuffers v) (mDbgState v) (mDbgLastCompositionType v).
Definition set_mQueueBufferOutput (x : QueueBufferOutput) (v : VirtualDisplaySurface) :=
  mkVDS (mDisplayId v) (mProducerUsage v) x (mCompositionType v)
    (mSinkBufferWidth v) (mSinkBufferHeight v) (mFbFence v)
    (mFbProducerSlot v) (mOutputProducerSlot v) (mProducerSlotSource v)
    (mProducerBuffers v) (mDbgState v) (mDbgLastCompositionType v).
Definition set_mCompositionType (x : CompositionType) (v : VirtualDisplaySurface) :=
  mkVDS (mDisplayId v) (mProducerUsage v) (mQueueBufferOutput v) x
    (mSinkBufferWidth v) (mSinkBufferHeight v) (mFbFence v)
    (mFbProducerSlot v) (mOutputProducerSlot v) (mProducerSlotSource v)
    (mProducerBuffers v) (mDbgState v) (mDbgLastCompositionType v).
Definition set_mSinkBufferWidth (x : Z) (v : VirtualDisplaySurface) :=
  mkVDS (mDisplayId v) (mProducerUsage v) (mQueueBufferOutput v)
    (mCompositionType v) x (mSinkBufferHeight v) (mFbFence v)
    (mFbProducerSlot v) (mOutputProducerSlot v) (mProducerSlotSource v)
    (mProducerBuffers v) (mDbgState v) (mDbgLastCompositionType v).
Definition set_mSinkBufferHeight (x : Z) (v : VirtualDisplaySurface) :=
  mkVDS (mDisplayId v) (mProducerUsage v) (mQueueBufferOutput v)
    (mCompositionType v) (mSinkBufferWidth v) x (mFbFence v)
    (mFbProducerSlot v) (mOutputProducerSlot v) (mProducerSlotSource v)
    (mProducerBuffers v) (mDbgState v) (mDbgLastCompositionType v).
Definition set_mFbFence (x : sp Fence) (v : VirtualDisplaySurface) :=
  mkVDS (mDisplayId v) (mProducerUsage v) (mQueueBufferOutput v)
    (mCompositionType v) (mSinkBufferWidth v) (mSinkBufferHeight v) x
    (mFbProducerSlot v) (mOutputProducerSlot v) (mProducerSlotSource v)
    (mProducerBuffers v) (mDbgState v) (mDbgLastCompositionType v).
Definition set_mFbProducerSlot (x : Z) (v : VirtualDisplaySurface) :=
  mkVDS (mDisplayId v) (mProducerUsage v) (mQueueBufferOutput v)
    (mCompositionType v) (mSinkBufferWidth v) (mSinkBufferHeight v)
    (mFbFence v) x (mOutputProducerSlot v) (mProducerSlotSource v)
    (mProducerBuffers v) (mDbgState v) (mDbgLastCompositionType v).
Definition set_mOutputProducerSlot (x : Z) (v : VirtualDisplaySurface) :=
  mkVDS (mDisplayId v) (mProducerUsage v) (mQueueBufferOutput v)
    (mCompositionType v) (mSinkBufferWidth v) (mSinkBufferHeight v)
    (mFbFence v) (mFbProducerSlot v) x (mProducerSlotSource v)
    (mProducerBuffers v) (mDbgState v) (mDbgLastCompositionType v).
Definition set_mProducerSlotSource (x : Z) (v : VirtualDisplaySurface) :=
  mkVDS (mDisplayId v) (mProducerUsage v) (mQueueBufferOutput v)
    (mCompositionType v) (mSinkBufferWidth v) (mSinkBufferHeight v)
    (mFbFence v) (mFbProducerSlot v) (mOutputProducerSlot v) x
    (mProducerBuffers v) (mDbgState v) (mDbgLastCompositionType v).
Definition set_mProducerBuffers (x : list (sp GraphicBuffer)) (v : VirtualDisplaySurface) :=
  mkVDS (mDisplayId v) (mProducerUsage v) (mQueueBufferOutput v)
    (mCompositionType v) (mSinkBufferWidth v) (mSinkBufferHeight v)
    (mFbFence v) (mFbProducerSlot v) (mOutputProducerSlot v)
    (mProducerSlotSource v) x (mDbgState v) (mDbgLastCompositionType v).
Definition set_mDbgState (x : DbgState) (v : VirtualDisplaySurface) :=
  mkVDS (mDisplayId v) (mProducerUsage v) (mQueueBufferOutput v)
    (mCompositionType v) (mSinkBufferWidth v) (mSinkBufferHeight v)
    (mFbFence v) (mFbProducerSlot v) (mOutputProducerSlot v)
    (mProducerSlotSource v) (mProducerBuffers v) x (mDbgLastCompositionType v).
Definition set_mDbgLastCompositionType (x : CompositionType) (v : VirtualDisplaySurface) :=
  mkVDS (mDisplayId v) (mProducerUsage v) (mQueueBufferOutput v)
    (mCompositionType v) (mSinkBufferWidth v) (mSinkBufferHeight v)
    (mFbFence v) (mFbProducerSlot v) (mOutputProducerSlot v)
    (mProducerSlotSource v) (mProducerBuffers v) (mDbgState v) x.

(** ** Collaborators *)

(** Everything the surface does to the outside: a warning or an error
    written to the log, or a call to a source, to the hardware composer
    or to the [ConsumerBase] base class.  ([VDS_LOGV] writes nothing
    in a build with [NDEBUG]: the file leaves [LOG_NDEBUG] alone.) *)
Inductive Event :=
| LogW (msg : string)
| LogE (msg : string)
| SrcDequeueBuffer (source : Source) (w h format usage : Z)
| SrcRequestBuffer (source : Source) (sslot : Z)
| SrcQueueBuffer (source : Source) (sslot : Z) (input : QueueBufferInput)
| SrcCancelBuffer (source : Source) (sslot : Z) (fence : sp Fence)
| HwcFbPost (id : Z) (fence : sp Fence) (buf : sp GraphicBuffer)
| HwcSetOutputBuffer (id : Z) (fence : sp Fence) (buf : sp GraphicBuffer)
| HwcGetAndResetReleaseFence (id : Z)
| HwcGetLastRetireFence (id : Z)
| BaseAcquireBufferLocked
| BaseAddReleaseFenceLocked (sslot : Z) (buf : sp GraphicBuffer) (fence : sp Fence)
| BaseReleaseBufferLocked (sslot : Z) (buf : sp GraphicBuffer)
| SystemTime.

(** The source an event addresses, if it is a call to a source. *)
Definition event_source (e : Event) : option Source :=
  match e with
  | SrcDequeueBuffer s _ _ _ _ | SrcRequestBuffer s _
  | SrcQueueBuffer s _ _ | SrcCancelBuffer s _ _ => Some s
  | _ => None
  end.

Definition is_source_call (e : Event) : bool :=
  match event_source e with Some _ => true | None => false end.

Definition is_hwc_call (e : Event) : bool :=
  match e with
  | HwcFbPost _ _ _ | HwcSetOutputBuffer _ _ _
  | HwcGetAndResetReleaseFence _ | HwcGetLastRetireFence _ => true
  | _ => false
  end.

Definition is_requestBuffer_call (e : Event) : bool :=
  match e with SrcRequestBuffer _ _ => true | _ => false end.

(** The behaviour of the collaborators on their own state [World].  An
    out-parameter is a result; [requestBuffer] gets the old content of
    the cell it writes to, since it may leave it alone.
    [slot_mFence w i] is [mSlots[i].mFence] of [ConsumerBase]. *)
Class Collaborators (World : Type) := {
  src_dequeueBuffer : Source -> Z -> Z -> Z -> Z -> World ->
                      (status_t * Z * sp Fence) * World;
  src_requestBuffer : Source -> Z -> sp GraphicBuffer -> World ->
                      (status_t * sp GraphicBuffer) * World;
  src_queueBuffer : Source -> Z -> QueueBufferInput -> World ->
                    (status_t * QueueBufferOutput) * World;
  src_cancelBuffer : Source -> Z -> sp Fence -> World -> unit * World;
  hwc_fbPost : Z -> sp Fence -> sp GraphicBuffer -> World -> status_t * World;
  hwc_setOutputBuffer : Z -> sp Fence -> sp GraphicBuffer -> World ->
                        status_t * World;
  hwc_getAndResetReleaseFence : Z -> World -> sp Fence * World;
  hwc_getLastRetireFence : Z -> World -> sp Fence * World;
  base_acquireBufferLocked : World -> (status_t * BufferItem) * World;
  base_addReleaseFenceLocked : Z -> sp GraphicBuffer -> sp Fence -> World ->
                               status_t * World;
  base_releaseBufferLocked : Z -> sp GraphicBuffer -> World -> status_t * World;
  slot_mFence : World -> Z -> sp Fence;
  systemTime : World -> Z * World
}.

(** ** The state monad of the embedding *)

(** A state is the object, the collaborators' world and the log.  A
    computation that runs into undefined behaviour (a shift count or an
    array index out of range) has no result. *)
Record State (World : Type) := mkState {
  self : VirtualDisplaySurface;
  world : World;
  log : list Event
}.
Arguments mkState {World}.
Arguments self {World}.
Arguments world {World}.
Arguments log {World}.

Definition M (World A : Type) : Type := State World -> option (A * State World).

#[global] Instance M_ret {World} : MRet (M World) :=
  fun A a s => Some (a, s).
#[global] Instance M_bind {World} : MBind (M World) :=
  fun A B f m s => match m s with Some (a, s') => f a s' | None => None end.

Section Primitives.
Context {World : Type}.

Definition undefined {A} : M World A := fun _ => None.

Definition read {A} (f : VirtualDisplaySurface -> A) : M World A :=
    fun s => Some (f (self s), s).

Definition update (g : VirtualDisplaySurface -> VirtualDisplaySurface) : M World unit :=
    fun s => Some (tt, mkState (g (self s)) (world s) (log s)).

Definition emit (e : Event) : M World unit :=
    fun s => Some (tt, mkState (self s) (world s) (log s ++ [e])).

(** A call to a collaborator: logged, then answered by the oracle. *)
Definition call {A} (e : Event) (f : World -> A * World) : M World A :=
    fun s => let '(a, w) := f (world s) in
             Some (a, mkState (self s) w (log s ++ [e])).

(** A look at the collaborators' state that is not a call. *)
Definition peek {A} (f : World -> A) : M World A :=
    fun s => Some (f (world s), s).

Definition lift_option {A} (o : option A) : M World A :=
    match o with Some a => mret a | None => undefined end.

(** [VDS_LOGW_IF(cond, msg)] and [VDS_LOGE(msg)]. *)
Definition VDS_LOGW_IF (cond : bool) (msg : string) : M World unit :=
    if cond then emit (LogW msg) else mret tt.
Definition VDS_LOGE (msg : string) : M World unit := emit (LogE msg).

(** [mProducerBuffers[i]] as an rvalue and as the target of an
      assignment; the array has no element outside its bounds. *)
Definition buffer_at (i : Z) : M World (sp GraphicBuffer) :=
    bufs ← read mProducerBuffers;
    if decide (0 <= i) then lift_option (bufs !! Z.to_nat i) else undefined.

Definition set_buffer_at (i : Z) (b : sp GraphicBuffer) : M World unit :=
    bufs ← read mProducerBuffers;
    if decide (0 <= i < Z.of_nat (length bufs))
    then update (set_mProducerBuffers (<[Z.to_nat i := b]> bufs))
    else undefined.

End Primitives.

(** ** The member functions *)

(** The embedding is that of a build with [NDEBUG], where [VDS_LOGV] and
    [LOG_FATAL_IF] expand to nothing, and of one thread: the
    [Mutex::Autolock] guards are not represented.  The member functions
    that only forward to the sink ([setBufferCount], [query],
    [setSynchronousMode], [disconnect]) are left out; [connect] comes
    with the calls further down. *)
Section MemberFunctions.
Context `{Header} {World : Type} `{Collaborators World}.

Local Abbreviation M := (M World).

(** [mSlots[i].mFence], a member of the base class; [mSlots] has
      [NUM_BUFFER_SLOTS] entries. *)
Definition mSlots_mFence (i : Z) : M (sp Fence) :=
    if decide (0 <= i < NUM_BUFFER_SLOTS)
    then peek (fun w => slot_mFence w i)
    else undefined.

Definition getIGraphicBufferProducer (v : VirtualDisplaySurface) : ProducerRef :=
    if decide (mDisplayId v >= 0) then ThisSurface else SourceRef SOURCE_SINK.

Definition resetPerFrameState : M unit :=
    update (set_mCompositionType COMPOSITION_UNKNOWN);;
    update (set_mSinkBufferWidth 0);;
    update (set_mSinkBufferHeight 0);;
    update (set_mFbFence NO_FENCE);;
    update (set_mFbProducerSlot (-1));;
    update (set_mOutputProducerSlot (-1)).

Definition updateQueueBufferOutput (qbo : QueueBufferOutput) : M unit :=
    update (set_mQueueBufferOutput
              (mkQueueBufferOutput (qbo_width qbo) (qbo_height qbo) 0
                 (qbo_numPendingBuffers qbo))).

Definition prepareFrame (compositionType : CompositionType) : M status_t :=
    id ← read mDisplayId;
    if decide (id < 0) then mret NO_ERROR else
    dbg ← read mDbgState;
    VDS_LOGW_IF (bool_decide (dbg <> DBG_STATE_IDLE))
      "Unexpected prepareFrame() in %s state";;
    update (set_mDbgState DBG_STATE_PREPARED);;
    update (set_mCompositionType compositionType);;
    ct ← read mCompositionType;
    last ← read mDbgLastCompositionType;
    (if decide (ct <> last)
     then update (set_mDbgLastCompositionType ct)
     else mret tt);;
    mret NO_ERROR.

Definition compositionComplete : M status_t := mret NO_ERROR.

(** The loop of [dequeueBuffer(Source, ...)] over all slots, from
      index [i] on for [todo] more rounds. *)
Fixpoint release_all_loop (sourceBit : Z) (todo : nat) (i : Z) : M unit :=
    match todo with
    | O => mret tt
    | S todo' =>
        mask ← read mProducerSlotSource;
        bit ← lift_option (shl32 1 i);
        (if decide (Z.land mask bit = sourceBit)
         then set_buffer_at i None
         else mret tt);;
        release_all_loop sourceBit todo' (i + 1)
    end.

(** [dequeueBuffer(Source source, uint32_t format, int* sslot,
      sp<Fence>* fence)]; the result carries the two out-parameters. *)
Definition dequeueBuffer_source (source : Source) (format : Z)
    : M (status_t * Z * sp Fence) :=
    w ← read mSinkBufferWidth;
    h ← read mSinkBufferHeight;
    usage ← read mProducerUsage;
    '(result, sslot, fence) ←
      call (SrcDequeueBuffer source w h format usage)
           (src_dequeueBuffer source w h format usage);
    if decide (result < 0) then mret (result, sslot, fence) else
    let pslot := mapSource2ProducerSlot source sslot in
    sourceBit ← lift_option (shl32 (Source_to_uint32 source) pslot);
    mask ← read mProducerSlotSource;
    bit ← lift_option (shl32 1 pslot);
    result ←
      (if decide (Z.land mask bit <> sourceBit)
       then
         update (set_mProducerSlotSource (Z.land mask (not32 bit)));;
         mask' ← read mProducerSlotSource;
         update (set_mProducerSlotSource (Z.lor mask' sourceBit));;
         mret (Z.lor result BUFFER_NEEDS_REALLOCATION)
       else mret result);
    (if decide (Z.land result RELEASE_ALL_BUFFERS <> 0)
     then release_all_loop sourceBit (Z.to_nat NUM_BUFFER_SLOTS) 0
     else mret tt);;
    (if decide (Z.land result BUFFER_NEEDS_REALLOCATION <> 0)
     then
       old ← buffer_at pslot;
       '(_, buf) ← call (SrcRequestBuffer source sslot)
                        (src_requestBuffer source sslot old);
       set_buffer_at pslot buf
     else mret tt);;
    mret (result, sslot, fence).

(** [advanceFrame], lines 110 to 146: the state warning, the dequeue of
    an output buffer from the sink and the choice of the two slots.
    [inl] is the early return of a failed dequeue, [inr] the local
    [outFence] with which the function goes on. *)
Definition advanceFrame_route : M (status_t + sp Fence) :=
    ct ← read mCompositionType;
    dbg ← read mDbgState;
    (if decide (ct = COMPOSITION_HWC)
     then VDS_LOGW_IF (bool_decide (dbg <> DBG_STATE_PREPARED))
            "Unexpected advanceFrame() in %s state on HWC frame"
     else VDS_LOGW_IF (bool_decide (dbg <> DBG_STATE_GLES_DONE))
            "Unexpected advanceFrame() in %s state on GLES/MIXED frame");;
    update (set_mDbgState DBG_STATE_HWC);;
    dequeued ←
      (if decide (ct <> COMPOSITION_GLES)
       then
         qbo ← read mQueueBufferOutput;
         update (set_mSinkBufferWidth (qbo_width qbo));;
         update (set_mSinkBufferHeight (qbo_height qbo));;
         '(result, sslot, outFence) ← dequeueBuffer_source SOURCE_SINK 0;
         if decide (result < 0) then mret (inl result) else
         update (set_mOutputProducerSlot
                   (mapSource2ProducerSlot SOURCE_SINK sslot));;
         mret (inr outFence)
       else mret (inr None));
    match dequeued with
    | inl result => mret (inl result)
    | inr outFence =>
        if decide (ct = COMPOSITION_HWC)
        then
          out ← read mOutputProducerSlot;
          update (set_mFbProducerSlot out);;
          update (set_mFbFence outFence);;
          mret (inr outFence)
        else if decide (ct = COMPOSITION_GLES)
        then
          fb ← read mFbProducerSlot;
          update (set_mOutputProducerSlot fb);;
          fbFence ← read mFbFence;
          mret (inr fbFence)
        else mret (inr outFence)
    end.

(** [advanceFrame], lines 148 to 169: the last-chance check and the
    submission to the hardware composer. *)
Definition advanceFrame_submit (outFence : sp Fence) : M status_t :=
    fb ← read mFbProducerSlot;
    out ← read mOutputProducerSlot;
    if decide (fb < 0 \/ out < 0)
    then VDS_LOGE "advanceFrame: no buffer, bailing out";; mret NO_MEMORY
    else
      fbBuffer ← buffer_at fb;
      outBuffer ← buffer_at out;
      id ← read mDisplayId;
      fbFence ← read mFbFence;
      result ← call (HwcFbPost id fbFence fbBuffer)
                    (hwc_fbPost id fbFence fbBuffer);
      if decide (result = NO_ERROR)
      then call (HwcSetOutputBuffer id outFence outBuffer)
                (hwc_setOutputBuffer id outFence outBuffer)
      else mret result.

Definition advanceFrame : M status_t :=
    id ← read mDisplayId;
    if decide (id < 0) then mret NO_ERROR else
    routed ← advanceFrame_route;
    match routed with
    | inl result => mret result
    | inr outFence => advanceFrame_submit outFence
    end.

Definition onFrameCommitted : M unit :=
    id ← read mDisplayId;
    if decide (id < 0) then mret tt else
    dbg ← read mDbgState;
    VDS_LOGW_IF (bool_decide (dbg <> DBG_STATE_HWC))
      "Unexpected onFrameCommitted() in %s state";;
    update (set_mDbgState DBG_STATE_IDLE);;
    fbFence ← call (HwcGetAndResetReleaseFence id)
                   (hwc_getAndResetReleaseFence id);
    ct ← read mCompositionType;
    fb ← read mFbProducerSlot;
    (if decide (ct = COMPOSITION_MIXED /\ fb >= 0)
     then
       let sslot := mapProducer2SourceSlot SOURCE_SCRATCH fb in
       buf ← buffer_at fb;
       call (BaseAddReleaseFenceLocked sslot buf fbFence)
            (base_addReleaseFenceLocked sslot buf fbFence);;
       buf ← buffer_at fb;
       call (BaseReleaseBufferLocked sslot buf)
            (base_releaseBufferLocked sslot buf);;
       mret tt
     else mret tt);;
    out ← read mOutputProducerSlot;
    (if decide (out >= 0)
     then
       let sslot := mapProducer2SourceSlot SOURCE_SINK out in
       outFence ← call (HwcGetLastRetireFence id) (hwc_getLastRetireFence id);
       now ← call SystemTime systemTime;
       w ← read mSinkBufferWidth;
       h ← read mSinkBufferHeight;
       let input := mkQueueBufferInput now (Rect_wh w h)
                      NATIVE_WINDOW_SCALING_MODE_FREEZE 0 outFence in
       '(result, qbo) ← call (SrcQueueBuffer SOURCE_SINK sslot input)
                             (src_queueBuffer SOURCE_SINK sslot input);
       if decide (result = NO_ERROR) then updateQueueBufferOutput qbo
       else mret tt
     else mret tt);;
    resetPerFrameState.

(** [requestBuffer(int pslot, sp<GraphicBuffer>* outBuf)]. *)
Definition requestBuffer (pslot : Z) : M (status_t * sp GraphicBuffer) :=
    dbg ← read mDbgState;
    VDS_LOGW_IF (bool_decide (dbg <> DBG_STATE_GLES))
      "Unexpected requestBuffer pslot=%d in %s state";;
    outBuf ← buffer_at pslot;
    mret (NO_ERROR, outBuf).

(** [dequeueBuffer(int* pslot, sp<Fence>* fence, w, h, format, usage)];
      [*pslot] is written on success only. *)
Definition dequeueBuffer (w h format usage : Z)
    : M (status_t * option Z * sp Fence) :=
    dbg ← read mDbgState;
    VDS_LOGW_IF (bool_decide (dbg <> DBG_STATE_PREPARED))
      "Unexpected dequeueBuffer() in %s state";;
    update (set_mDbgState DBG_STATE_GLES);;
    update (set_mProducerUsage (Z.lor usage GRALLOC_USAGE_HW_COMPOSER));;
    ct ← read mCompositionType;
    let source := fbSourceForCompositionType ct in
    (if decide (source = SOURCE_SINK)
     then update (set_mSinkBufferWidth w);; update (set_mSinkBufferHeight h)
     else mret tt);;
    '(result, sslot, fence) ← dequeueBuffer_source source format;
    if decide (result >= 0)
    then mret (result, Some (mapSource2ProducerSlot source sslot), fence)
    else mret (result, None, fence).

(** [queueBuffer(int pslot, const QueueBufferInput& input,
      QueueBufferOutput* output)]; [*output] is written on success
      only. *)
Definition queueBuffer (pslot : Z) (input : QueueBufferInput)
    : M (status_t * option QueueBufferOutput) :=
    dbg ← read mDbgState;
    VDS_LOGW_IF (bool_decide (dbg <> DBG_STATE_GLES))
      "Unexpected queueBuffer(pslot=%d) in %s state";;
    update (set_mDbgState DBG_STATE_GLES_DONE);;
    ct ← read mCompositionType;
    if decide (ct = COMPOSITION_MIXED)
    then
      let sslot := mapProducer2SourceSlot SOURCE_SCRATCH pslot in
      '(result, scratchQBO) ← call (SrcQueueBuffer SOURCE_SCRATCH sslot input)
                                   (src_queueBuffer SOURCE_SCRATCH sslot input);
      if decide (result <> NO_ERROR) then mret (result, None) else
      '(result, item) ← call BaseAcquireBufferLocked base_acquireBufferLocked;
      if decide (result <> NO_ERROR) then mret (result, None) else
      VDS_LOGW_IF (bool_decide (mBuf item <> sslot))
        "queueBuffer: acquired sslot %d from SCRATCH after queueing sslot %d";;
      update (set_mFbProducerSlot
                (mapSource2ProducerSlot SOURCE_SCRATCH (mBuf item)));;
      fence ← mSlots_mFence (mBuf item);
      update (set_mFbFence fence);;
      qbo ← read mQueueBufferOutput;
      mret (NO_ERROR, Some qbo)
    else
      update (set_mFbFence (qbi_fence input));;
      update (set_mFbProducerSlot pslot);;
      qbo ← read mQueueBufferOutput;
      mret (NO_ERROR, Some qbo).

Definition cancelBuffer (pslot : Z) (fence : sp Fence) : M unit :=
    dbg ← read mDbgState;
    VDS_LOGW_IF (bool_decide (dbg <> DBG_STATE_GLES))
      "Unexpected cancelBuffer(pslot=%d) in %s state";;
    ct ← read mCompositionType;
    let source := fbSourceForCompositionType ct in
    let sslot := mapProducer2SourceSlot source pslot in
    call (SrcCancelBuffer source sslot fence)
         (src_cancelBuffer source sslot fence).

End MemberFunctions.

(** *** A surface as the constructor leaves it

    [mQueueBufferOutput] is default-constructed and so indeterminate;
    it is an argument here.  The calls the constructor makes to the
    sink and to its own [BufferQueue] do not touch the fields. *)
Definition constructed `{Header} (dispId : Z) (qbo : QueueBufferOutput)
  : VirtualDisplaySurface :=
  mkVDS dispId GRALLOC_USAGE_HW_COMPOSER qbo
    COMPOSITION_UNKNOWN 0 0 NO_FENCE (-1) (-1)
    0 (replicate (Z.to_nat NUM_BUFFER_SLOTS) None)
    DBG_STATE_IDLE COMPOSITION_UNKNOWN.

(** The array of cached handles has [NUM_BUFFER_SLOTS] elements. *)
Definition well_formed `{Header} (v : VirtualDisplaySurface) : Prop :=
  length (mProducerBuffers v) = Z.to_nat NUM_BUFFER_SLOTS.

(** ** Ownership, as the design document words it *)

(** A unified slot is owned by the source whose tag its bit of
    [mProducerSlotSource] holds. *)
Definition owner (mask pslot : Z) : Source :=
  if Z.testbit mask pslot then SOURCE_SCRATCH else SOURCE_SINK.

(** The events a run has added to the log. *)
Definition new_events {World} (before after : State World) : list Event :=
  drop (length (log before)) (log after).

(** The two values [sourceBit] can take for a slot, and the mask after
    lines 241 and 242 have run. *)
Definition source_bit (s : Source) (pslot : Z) : Z :=
  match s with SOURCE_SINK => 0 | SOURCE_SCRATCH => 2 ^ pslot end.

Definition flip_owner (mask : Z) (s : Source) (pslot : Z) : Z :=
  Z.lor (Z.land mask (not32 (2 ^ pslot))) (source_bit s pslot).

(** The mask and the flags [dequeueBuffer(Source, ...)] ends with, in
    terms of the owner it found recorded. *)
Definition dequeue_mask (mask : Z) (source : Source) (pslot : Z) : Z :=
  if decide (owner mask pslot = source) then mask
  else flip_owner mask source pslot.

Definition dequeue_flags `{Header} (mask : Z) (source : Source) (pslot result : Z) : Z :=
  if decide (owner mask pslot = source) then result
  else Z.lor result BUFFER_NEEDS_REALLOCATION.

(** The state a computation ends in (the state it started in when it
    has no result). *)
Definition final_state {World A} (m : M World A) (st : State World) : State World :=
  match m st with Some (_, st') => st' | None => st end.

(** ** A concrete platform and scripted collaborators *)

(** The values of the Android headers of this release. *)
Definition android : Header := {|
  NUM_BUFFER_SLOTS := 32;
  BUFFER_NEEDS_REALLOCATION := 1;
  RELEASE_ALL_BUFFERS := 2;
  NO_MEMORY := -12;
  GRALLOC_USAGE_HW_COMPOSER := 2048;
  NATIVE_WINDOW_SCALING_MODE_FREEZE := 0
|}.

(** Collaborators that answer from a script: each source has a list of
    answers to [dequeueBuffer]; [requestBuffer] hands out fresh handles;
    buffers queued to the scratch pool wait in [scratch_queue] until
    [acquireBufferLocked] takes the oldest and records its fence. *)
Record Script := mkScript {
  sink_dequeues : list (status_t * Z * sp Fence);
  scratch_dequeues : list (status_t * Z * sp Fence);
  next_handle : Z;
  scratch_queue : list BufferItem;
  slot_fences : list (Z * sp Fence);
  fbPost_status : status_t
}.

Definition script_dequeue (source : Source) (w : Script)
  : (status_t * Z * sp Fence) * Script :=
  match source with
  | SOURCE_SINK =>
      match sink_dequeues w with
      | a :: rest =>
          (a, mkScript rest (scratch_dequeues w) (next_handle w)
                (scratch_queue w) (slot_fences w) (fbPost_status w))
      | [] => ((-19, 0, None), w)
      end
  | SOURCE_SCRATCH =>
      match scratch_dequeues w with
      | a :: rest =>
          (a, mkScript (sink_dequeues w) rest (next_handle w)
                (scratch_queue w) (slot_fences w) (fbPost_status w))
      | [] => ((-19, 0, None), w)
      end
  end.

Definition script_request (w : Script) : (status_t * sp GraphicBuffer) * Script :=
  ((0, Some (next_handle w)),
   mkScript (sink_dequeues w) (scratch_dequeues w) (next_handle w + 1)
     (scratch_queue w) (slot_fences w) (fbPost_status w)).

Definition script_queue (source : Source) (sslot : Z) (input : QueueBufferInput)
  (w : Script) : (status_t * QueueBufferOutput) * Script :=
  match source with
  | SOURCE_SINK => ((0, mkQueueBufferOutput 1280 720 0 1), w)
  | SOURCE_SCRATCH =>
      ((0, mkQueueBufferOutput 1280 720 0 1),
       mkScript (sink_dequeues w) (scratch_dequeues w) (next_handle w)
         (scratch_queue w ++ [mkBufferItem sslot (qbi_fence input)])
         (slot_fences w) (fbPost_status w))
  end.

Definition script_acquire (w : Script) : (status_t * BufferItem) * Script :=
  match scratch_queue w with
  | item :: rest =>
      ((0, item),
       mkScript (sink_dequeues w) (scratch_dequeues w) (next_handle w) rest
         ((mBuf item, mFence item) :: slot_fences w) (fbPost_status w))
  | [] => ((-1, mkBufferItem (-1) None), w)
  end.

Fixpoint script_slot_fence (l : list (Z * sp Fence)) (i : Z) : sp Fence :=
  match l with
  | [] => None
  | (j, f) :: rest => if decide (j = i) then f else script_slot_fence rest i
  end.

#[global] Instance scripted : Collaborators Script := {|
  src_dequeueBuffer source _ _ _ _ := script_dequeue source;
  src_requestBuffer _ _ _ := script_request;
  src_queueBuffer := script_queue;
  src_cancelBuffer _ _ _ w := (tt, w);
  hwc_fbPost _ _ _ w := (fbPost_status w, w);
  hwc_setOutputBuffer _ _ _ w := (0, w);
  hwc_getAndResetReleaseFence _ w := (Some (FenceFd 7), w);
  hwc_getLastRetireFence _ w := (Some (FenceFd 8), w);
  base_acquireBufferLocked := script_acquire;
  base_addReleaseFenceLocked _ _ _ w := (0, w);
  base_releaseBufferLocked _ _ w := (0, w);
  slot_mFence w := script_slot_fence (slot_fences w);
  systemTime w := (0, w)
|}.

(** Sources that go away after a number of [requestBuffer] calls: from
    then on [requestBuffer] fails with [NO_INIT] and leaves the cell it
    was given as it is, as that of an abandoned [BufferQueue] does.
    Everything else is as scripted. *)
Definition Fading : Type := Script * nat.

Definition on_script {A} (f : Script -> A * Script) (w : Fading) : A * Fading :=
  ((f w.1).1, ((f w.1).2, w.2)).

Definition fading_request (old : sp GraphicBuffer) (w : Fading)
  : (status_t * sp GraphicBuffer) * Fading :=
  match w.2 with
  | O => ((-19, old), w)
  | S left => ((script_request w.1).1, ((script_request w.1).2, left))
  end.

#[global] Instance fading : Collaborators Fading := {|
  src_dequeueBuffer source w h format usage :=
    on_script (src_dequeueBuffer source w h format usage);
  src_requestBuffer _ _ := fading_request;
  src_queueBuffer source sslot input := on_script (src_queueBuffer source sslot input);
  src_cancelBuffer source sslot fence := on_script (src_cancelBuffer source sslot fence);
  hwc_fbPost dpy fence buf := on_script (hwc_fbPost dpy fence buf);
  hwc_setOutputBuffer dpy fence buf := on_script (hwc_setOutputBuffer dpy fence buf);
  hwc_getAndResetReleaseFence dpy := on_script (hwc_getAndResetReleaseFence dpy);
  hwc_getLastRetireFence dpy := on_script (hwc_getLastRetireFence dpy);
  base_acquireBufferLocked := on_script base_acquireBufferLocked;
  base_addReleaseFenceLocked slot buf fence :=
    on_script (base_addReleaseFenceLocked slot buf fence);
  base_releaseBufferLocked slot buf := on_script (base_releaseBufferLocked slot buf);
  slot_mFence w := slot_mFence w.1;
  systemTime := on_script systemTime
|}.

(** *** Runs on the Android platform *)

Section Runs.
#[local] Existing Instance android.

(** A display that goes through the hardware composer; the sink has
    answered [connect] with a 1280x720 geometry. *)
Definition fresh_surface : VirtualDisplaySurface :=
  constructed 0 (mkQueueBufferOutput 1280 720 0 0).

(** The sink hands out its slot 0 three times, the first time asking
    for a reallocation; the scratch pool hands out its slots 0 and 1
    and then slot 0 again, this time with [RELEASE_ALL_BUFFERS] and
    [BUFFER_NEEDS_REALLOCATION]. *)
Definition three_frames : Script :=
  mkScript
    [(1, 0, Some (FenceFd 20)); (0, 0, Some (FenceFd 21)); (0, 0, Some (FenceFd 22))]
    [(0, 0, Some (FenceFd 10)); (0, 1, Some (FenceFd 11)); (3, 0, Some (FenceFd 12))]
    100 [] [] 0.

Definition power_on : State Script := mkState fresh_surface three_frames [].

Definition rendered : QueueBufferInput :=
  mkQueueBufferInput 0 (Rect_wh 1280 720) 0 0 (Some (FenceFd 55)).

(** One frame in MIXED mode, as SurfaceFlinger and the GLES driver
    drive it. *)
Definition mixed_frame : M Script status_t :=
  prepareFrame COMPOSITION_MIXED;;
  '(result, pslot, _) ← dequeueBuffer 1280 720 1 0;
  match pslot with
  | Some pslot =>
      requestBuffer pslot;;
      queueBuffer pslot rendered;;
      result ← advanceFrame;
      onFrameCommitted;;
      mret result
  | None => mret result
  end.

(** The third frame up to the renderer's dequeue. *)
Definition third_dequeue : M Script (status_t * option Z * sp Fence) :=
  mixed_frame;; mixed_frame;;
  prepareFrame COMPOSITION_MIXED;;
  dequeueBuffer 1280 720 1 0.

(** A surface prepared for a frame of the given mode. *)
Definition prepared (type : CompositionType) : State Script :=
  final_state (prepareFrame type) power_on.

(** A scratch pool that still holds a queued buffer of slot 1. *)
Definition stale_pool : Script :=
  mkScript [] [] 100 [mkBufferItem 1 (Some (FenceFd 9))] [] 0.

Definition rendering_mixed : State Script :=
  mkState (set_mDbgState DBG_STATE_GLES
             (set_mCompositionType COMPOSITION_MIXED fresh_surface))
    stale_pool [].

(** A display without hardware composer. *)
Definition passthrough : State Script :=
  mkState (constructed (-1) (mkQueueBufferOutput 1280 720 0 0)) three_frames [].



End Runs.

(** * More of the surface: [connect], the calls as data, and what a
    computation may do *)

(** ** [connect] *)

(** The sink's [connect]; the log has no event for it. *)
Class Connection (World : Type) := {
  src_connect : Z -> World -> (status_t * QueueBufferOutput) * World
}.

(** A call to a collaborator that is not logged. *)
Definition unlogged {World A} (f : World -> A * World) : M World A :=
  fun s => let '(a, w) := f (world s) in
           Some (a, mkState (self s) w (log s)).

(** [connect(int api, QueueBufferOutput* output)]; [*output] is written
    on success only. *)
Definition connect {World : Type} `{Connection World} (api : Z)
  : M World (status_t * option QueueBufferOutput) :=
  '(result, qbo) ← unlogged (src_connect api);
  if decide (result = NO_ERROR)
  then
    updateQueueBufferOutput qbo;;
    output ← read mQueueBufferOutput;
    mret (result, Some output)
  else mret (result, None).

(** ** The public member functions as calls *)

(** [setBufferCount], [query], [setSynchronousMode] and [disconnect],
    which hand their arguments to the sink and touch nothing of the
    object, are not among them. *)
Inductive Call :=
  | CallPrepareFrame (type : CompositionType)
  | CallCompositionComplete
  | CallAdvanceFrame
  | CallOnFrameCommitted
  | CallRequestBuffer (pslot : Z)
  | CallDequeueBuffer (w h format usage : Z)
  | CallQueueBuffer (pslot : Z) (input : QueueBufferInput)
  | CallCancelBuffer (pslot : Z) (fence : sp Fence)
  | CallConnect (api : Z).

Section Calls.
Context `{Header} {World : Type} `{Collaborators World} `{Connection World}.

(** A call, its result dropped. *)
Definition perform (c : Call) : M World unit :=
  match c with
  | CallPrepareFrame type => prepareFrame type;; mret tt
  | CallCompositionComplete => compositionComplete;; mret tt
  | CallAdvanceFrame => advanceFrame;; mret tt
  | CallOnFrameCommitted => onFrameCommitted
  | CallRequestBuffer pslot => requestBuffer pslot;; mret tt
  | CallDequeueBuffer w h format usage => dequeueBuffer w h format usage;; mret tt
  | CallQueueBuffer pslot input => queueBuffer pslot input;; mret tt
  | CallCancelBuffer pslot fence => cancelBuffer pslot fence
  | CallConnect api => connect api;; mret tt
  end.

(** Calls one after the other. *)
Fixpoint performs (cs : list Call) : M World unit :=
  match cs with
  | [] => mret tt
  | c :: cs => perform c;; performs cs
  end.

(** The states after construction and any number of calls that
    return. *)
Inductive reachable : State World -> Prop :=
  | reachable_constructed dispId qbo w :
      reachable (mkState (constructed dispId qbo) w [])
  | reachable_call c st st' :
      reachable st -> perform c st = Some (tt, st') -> reachable st'.

End Calls.

(** ** What a computation may do *)

(** [stays RO Q m]: whenever [m] returns, the object it leaves is
    related by [RO] to the one it found, and every event it has added
    to the log satisfies [Q]. *)
Definition stays {World A} (RO : VirtualDisplaySurface -> VirtualDisplaySurface -> Prop)
  (Q : Event -> Prop) (m : M World A) : Prop :=
  forall s a s', m s = Some (a, s') ->
    RO (self s) (self s') /\
    exists evs, log s' = log s ++ evs /\ Forall Q evs.

(** The relations on objects used with it are preorders. *)
Class ObjectOrder (RO : VirtualDisplaySurface -> VirtualDisplaySurface -> Prop) : Prop := {
  object_refl : forall v, RO v v;
  object_trans : forall v1 v2 v3, RO v1 v2 -> RO v2 v3 -> RO v1 v3
}.

(** [keeps P Q m]: run on an object that satisfies [P], [m] leaves an
    object that satisfies [P], and every event it has added to the log
    satisfies [Q]. *)
Definition keeps {World A} (P : VirtualDisplaySurface -> Prop) (Q : Event -> Prop)
  (m : M World A) : Prop :=
  forall s a s', P (self s) -> m s = Some (a, s') ->
    P (self s') /\ exists evs, log s' = log s ++ evs /\ Forall Q evs.

(** The events of a run all satisfy [Q]. *)
Definition logs_only {World} (Q : Event -> Prop) (st st' : State World) : Prop :=
  exists evs, log st' = log st ++ evs /\ Forall Q evs.

(** *** Relations between the object before and after *)

Definition any_object (v v' : VirtualDisplaySurface) : Prop := True.

(** The object is the same. *)
Definition same_object (v v' : VirtualDisplaySurface) : Prop := v' = v.

(** [P] is not lost. *)
Definition preserves (P : VirtualDisplaySurface -> Prop)
  (v v' : VirtualDisplaySurface) : Prop := P v -> P v'.

(** The ownership mask and the table of buffer records are the same. *)
Definition same_table (v v' : VirtualDisplaySurface) : Prop :=
  mProducerSlotSource v' = mProducerSlotSource v
  /\ mProducerBuffers v' = mProducerBuffers v.

(** The table of buffer records has the same number of entries. *)
Definition same_size (v v' : VirtualDisplaySurface) : Prop :=
  length (mProducerBuffers v') = length (mProducerBuffers v).

(** Only the ownership mask and the buffer records differ, and the
    table of records has kept its size. *)
Definition table_update (v v' : VirtualDisplaySurface) : Prop :=
  exists mask bufs,
    v' = set_mProducerBuffers bufs (set_mProducerSlotSource mask v)
    /\ length bufs = length (mProducerBuffers v).

(** The fields that describe the frame in flight are the same. *)
Definition same_frame (v v' : VirtualDisplaySurface) : Prop :=
  mFbProducerSlot v' = mFbProducerSlot v
  /\ mOutputProducerSlot v' = mOutputProducerSlot v
  /\ mFbFence v' = mFbFence v
  /\ mCompositionType v' = mCompositionType v.

(** The debug state is the same. *)
Definition same_dbg (v v' : VirtualDisplaySurface) : Prop :=
  mDbgState v' = mDbgState v.

(** The composition type and the display are the same. *)
Definition same_type (v v' : VirtualDisplaySurface) : Prop :=
  mCompositionType v' = mCompositionType v /\ mDisplayId v' = mDisplayId v.

(** *** Kinds of events *)

Definition any_event (e : Event) : Prop := True.

Definition is_log (e : Event) : Prop :=
  match e with LogW _ | LogE _ => True | _ => False end.

(** Calls to the base class [ConsumerBase]. *)
Definition is_base_call (e : Event) : bool :=
  match e with
  | BaseAcquireBufferLocked | BaseAddReleaseFenceLocked _ _ _
  | BaseReleaseBufferLocked _ _ => true
  | _ => false
  end.

(** The events of the source-level [dequeueBuffer]: a [dequeueBuffer]
    or a [requestBuffer] on the given source. *)
Definition dequeue_or_request (source : Source) (e : Event) : Prop :=
  match e with
  | SrcDequeueBuffer s _ _ _ _ | SrcRequestBuffer s _ => s = source
  | _ => False
  end.

(** What the producer-facing [dequeueBuffer] can do to the outside:
    log, and dequeue or request a buffer from a source. *)
Definition dequeue_event (e : Event) : Prop :=
  match e with
  | LogW _ | SrcDequeueBuffer _ _ _ _ _ | SrcRequestBuffer _ _ => True
  | _ => False
  end.

(** What [advanceFrame] can do to the outside: log, dequeue or request
    a buffer from the sink, and hand buffers to the hardware composer. *)
Definition advance_event (e : Event) : Prop :=
  match e with
  | LogW _ | LogE _ | HwcFbPost _ _ _ | HwcSetOutputBuffer _ _ _ => True
  | SrcDequeueBuffer s _ _ _ _ | SrcRequestBuffer s _ => s = SOURCE_SINK
  | _ => False
  end.

(** What [onFrameCommitted] can do to the outside: log, ask the
    hardware composer for its fences, release a buffer of the scratch
    pool through the base class, read the clock, and queue a buffer to
    the sink. *)
Definition commit_event (e : Event) : Prop :=
  match e with
  | LogW _ | HwcGetAndResetReleaseFence _ | HwcGetLastRetireFence _
  | BaseAddReleaseFenceLocked _ _ _ | BaseReleaseBufferLocked _ _
  | SystemTime => True
  | SrcQueueBuffer s _ _ => s = SOURCE_SINK
  | _ => False
  end.

(** What the producer-facing [queueBuffer] can do to the outside: log,
    queue a buffer to the scratch pool and acquire one from it. *)
Definition queue_event (e : Event) : Prop :=
  match e with
  | LogW _ | BaseAcquireBufferLocked => True
  | SrcQueueBuffer s _ _ => s = SOURCE_SCRATCH
  | _ => False
  end.

(** *** Properties of the object and of its calls that last *)

(** The usage bits for the next dequeue include
    [GRALLOC_USAGE_HW_COMPOSER]. *)
Definition hwc_usage `{Header} (v : VirtualDisplaySurface) : Prop :=
  Z.land (mProducerUsage v) GRALLOC_USAGE_HW_COMPOSER = GRALLOC_USAGE_HW_COMPOSER.

(** A [dequeueBuffer] on a source asks for
    [GRALLOC_USAGE_HW_COMPOSER]. *)
Definition dequeues_for_composer `{Header} (e : Event) : Prop :=
  match e with
  | SrcDequeueBuffer _ _ _ _ usage =>
      Z.land usage GRALLOC_USAGE_HW_COMPOSER = GRALLOC_USAGE_HW_COMPOSER
  | _ => True
  end.

(** The transform hint kept for the renderer is 0. *)
Definition no_transform (v : VirtualDisplaySurface) : Prop :=
  qbo_transformHint (mQueueBufferOutput v) = 0.

(** The six fields that [resetPerFrameState] writes are as it leaves
    them. *)
Definition frame_reset (v : VirtualDisplaySurface) : Prop :=
  mCompositionType v = COMPOSITION_UNKNOWN
  /\ mSinkBufferWidth v = 0 /\ mSinkBufferHeight v = 0
  /\ mFbFence v = NO_FENCE
  /\ mFbProducerSlot v = -1 /\ mOutputProducerSlot v = -1.

(** In [DBG_STATE_IDLE] these six fields are reset. *)
Definition idle_is_reset (v : VirtualDisplaySurface) : Prop :=
  mDbgState v = DBG_STATE_IDLE -> frame_reset v.

(** The per-frame fields and the debug state are the same. *)
Definition same_phase (v v' : VirtualDisplaySurface) : Prop :=
  mDbgState v' = mDbgState v
  /\ mCompositionType v' = mCompositionType v
  /\ mSinkBufferWidth v' = mSinkBufferWidth v
  /\ mSinkBufferHeight v' = mSinkBufferHeight v
  /\ mFbFence v' = mFbFence v
  /\ mFbProducerSlot v' = mFbProducerSlot v
  /\ mOutputProducerSlot v' = mOutputProducerSlot v.

(** ** The producer-facing [dequeueBuffer] before its dequeue *)

(** The object as the producer-facing [dequeueBuffer] hands it to the
    source-level one (lines 262 to 273). *)
Definition dequeue_entry `{Header} (w h usage : Z) (v : VirtualDisplaySurface)
  : VirtualDisplaySurface :=
  let v0 := set_mProducerUsage (Z.lor usage GRALLOC_USAGE_HW_COMPOSER)
              (set_mDbgState DBG_STATE_GLES v) in
  if decide (fbSourceForCompositionType (mCompositionType v) = SOURCE_SINK)
  then set_mSinkBufferHeight h (set_mSinkBufferWidth w v0)
  else v0.

(** ** The debug state machine, as the checks of the source have it *)

(** The warnings about a call in the wrong state: those of the
    [VDS_LOGW_IF] at the head of a member function. *)
Definition is_state_warning (e : Event) : bool :=
  match e with
  | LogW msg => String.prefix "Unexpected" msg
  | _ => false
  end.

(** The state a call checks for, given the composition type of the
    frame; [compositionComplete] and [connect] check nothing. *)
Definition expected_state (c : Call) (type : CompositionType) : option DbgState :=
  match c with
  | CallPrepareFrame _ => Some DBG_STATE_IDLE
  | CallCompositionComplete | CallConnect _ => None
  | CallAdvanceFrame =>
      Some (if decide (type = COMPOSITION_HWC) then DBG_STATE_PREPARED
            else DBG_STATE_GLES_DONE)
  | CallOnFrameCommitted => Some DBG_STATE_HWC
  | CallDequeueBuffer _ _ _ _ => Some DBG_STATE_PREPARED
  | CallRequestBuffer _ | CallQueueBuffer _ _ | CallCancelBuffer _ _ =>
      Some DBG_STATE_GLES
  end.

(** The state a call leaves. *)
Definition next_state (c : Call) (dbg : DbgState) : DbgState :=
  match c with
  | CallPrepareFrame _ => DBG_STATE_PREPARED
  | CallAdvanceFrame => DBG_STATE_HWC
  | CallOnFrameCommitted => DBG_STATE_IDLE
  | CallDequeueBuffer _ _ _ _ => DBG_STATE_GLES
  | CallQueueBuffer _ _ => DBG_STATE_GLES_DONE
  | CallCompositionComplete | CallRequestBuffer _ | CallCancelBuffer _ _
  | CallConnect _ => dbg
  end.

(** The composition type a call leaves. *)
Definition next_type (c : Call) (type : CompositionType) : CompositionType :=
  match c with
  | CallPrepareFrame type' => type'
  | CallOnFrameCommitted => COMPOSITION_UNKNOWN
  | _ => type
  end.

(** The call comes in the state it checks for. *)
Definition in_order (c : Call) (dbg : DbgState) (type : CompositionType) : Prop :=
  match expected_state c type with
  | Some expected => dbg = expected
  | None => True
  end.

(** Every call of the sequence comes in the state it checks for. *)
Fixpoint calls_in_order (cs : list Call) (dbg : DbgState) (type : CompositionType)
  : Prop :=
  match cs with
  | [] => True
  | c :: cs =>
      in_order c dbg type /\ calls_in_order cs (next_state c dbg) (next_type c type)
  end.

(** Collaborators that have gone away: every call fails with
    [NO_INIT] and hands out nothing. *)
Definition abandoned : Collaborators unit := {|
  src_dequeueBuffer _ _ _ _ _ w := ((-19, 0, None), w);
  src_requestBuffer _ _ old w := ((-19, old), w);
  src_queueBuffer _ _ _ w := ((-19, mkQueueBufferOutput 0 0 0 0), w);
  src_cancelBuffer _ _ _ w := (tt, w);
  hwc_fbPost _ _ _ w := (-19, w);
  hwc_setOutputBuffer _ _ _ w := (-19, w);
  hwc_getAndResetReleaseFence _ w := (None, w);
  hwc_getLastRetireFence _ w := (None, w);
  base_acquireBufferLocked w := ((-19, mkBufferItem (-1) None), w);
  base_addReleaseFenceLocked _ _ _ w := (-19, w);
  base_releaseBufferLocked _ _ w := (-19, w);
  slot_mFence _ _ := None;
  systemTime w := (0, w)
|}.

(** The scripted sink answers [connect] with its geometry and a
    transform hint. *)
#[global] Instance scripted_connection : Connection Script := {|
  src_connect _ w := ((0, mkQueueBufferOutput 1280 720 4 0), w)
|}.

(** *** More runs on the Android platform *)

Section MoreRuns.
#[local] Existing Instance android.

(** A GLES frame and a MIXED frame up to the renderer's dequeue, and up
    to its [queueBuffer]. *)
Definition rendering (type : CompositionType) : State Script :=
  final_state (dequeueBuffer 1280 720 1 0) (prepared type).

Definition rendered_gles : State Script :=
  final_state (queueBuffer 0 rendered) (rendering COMPOSITION_GLES).

Definition rendered_mixed : State Script :=
  final_state (queueBuffer 31 rendered) (rendering COMPOSITION_MIXED).

(** The third MIXED frame, prepared. *)
Definition third_prepared : State Script :=
  final_state (mixed_frame;; mixed_frame;; prepareFrame COMPOSITION_MIXED) power_on.

(** [connect] and a whole MIXED frame, call by call. *)
Definition mixed_frame_calls : list Call :=
  [CallConnect 1;
   CallPrepareFrame COMPOSITION_MIXED; CallDequeueBuffer 1280 720 1 0;
   CallRequestBuffer 31; CallQueueBuffer 31 rendered;
   CallAdvanceFrame; CallOnFrameCommitted].

(** A connected surface, the renderer of a GLES frame having dequeued
    its buffer. *)
Definition connected : State Script := final_state (connect 1) power_on.

Definition connected_rendering : State Script :=
  final_state
    (performs [CallPrepareFrame COMPOSITION_GLES; CallDequeueBuffer 1280 720 1 0])
    connected.

(** A sink that hands out its slot 31, the unified slot of the scratch
    pool's slot 0, and a MIXED frame with it up to the renderer's
    [queueBuffer]. *)
Definition colliding : Script :=
  mkScript [(0, 31, Some (FenceFd 20))] [(0, 0, Some (FenceFd 10))] 100 [] [] 0.

Definition collided : State Script :=
  final_state
    (prepareFrame COMPOSITION_MIXED;; dequeueBuffer 1280 720 1 0;;
     queueBuffer 31 rendered)
    (mkState fresh_surface colliding []).

(** The same frame with sources that answer the renderer's
    [requestBuffer] and are gone then. *)
Definition collided_alone : State Fading :=
  final_state
    (prepareFrame COMPOSITION_MIXED;; dequeueBuffer 1280 720 1 0;;
     queueBuffer 31 rendered)
    (mkState fresh_surface (colliding, 1%nat) []).

(** A surface in the middle of a MIXED frame whose collaborators have
    gone away. *)
Definition orphaned : State unit :=
  mkState (set_mDbgState DBG_STATE_GLES
             (set_mCompositionType COMPOSITION_MIXED fresh_surface))
    tt [].

End MoreRuns.


(** * Proofs *)

(** ** Running the monad *)

Section Running.
Context {World : Type}.
Implicit Types s : State World.

Lemma run_bind {A B} (m : M World A) (f : A -> M World B) s :
  (m ≫= f) s = match m s with Some (a, s') => f a s' | None => None end.
Proof. reflexivity. Qed.

Lemma run_ret {A} (a : A) s : (mret a : M World A) s = Some (a, s).
Proof. reflexivity. Qed.

Lemma run_read {A} (f : VirtualDisplaySurface -> A) s :
  read f s = Some (f (self s), s).
Proof. reflexivity. Qed.

Lemma run_update g s :
  update g s = Some (tt, mkState (g (self s)) (world s) (log s)).
Proof. reflexivity. Qed.

Lemma run_emit e s :
  emit e s = Some (tt, mkState (self s) (world s) (log s ++ [e])).
Proof. reflexivity. Qed.

Lemma run_call {A} e (f : World -> A * World) s :
  call e f s =
  Some ((f (world s)).1, mkState (self s) (f (world s)).2 (log s ++ [e])).
Proof. unfold call. destruct (f (world s)); reflexivity. Qed.

Lemma run_LOGW_IF (c : bool) msg s :
  VDS_LOGW_IF c msg s =
  Some (tt, mkState (self s) (world s)
              (log s ++ (if c then [LogW msg] else []))).
Proof.
  destruct c, s; unfold VDS_LOGW_IF; simpl; rewrite ?app_nil_r; reflexivity.
Qed.

Lemma run_buffer_at i b s :
  0 <= i -> mProducerBuffers (self s) !! Z.to_nat i = Some b ->
  buffer_at i s = Some (b, s).
Proof.
  intros Hi Hb. unfold buffer_at. rewrite run_bind, run_read.
  destruct (decide (0 <= i)); [|lia]. rewrite Hb. reflexivity.
Qed.

Lemma state_eta s :
  mkState (set_mProducerBuffers (mProducerBuffers (self s)) (self s))
    (world s) (log s) = s.
Proof. destruct s as [[] ? ?]. reflexivity. Qed.

Lemma set_mProducerBuffers_eta v :
  set_mProducerBuffers (mProducerBuffers v) v = v.
Proof. destruct v; reflexivity. Qed.

Lemma set_mProducerSlotSource_eta v :
  set_mProducerSlotSource (mProducerSlotSource v) v = v.
Proof. destruct v; reflexivity. Qed.

Lemma log_one_more {A} (l x y z : list A) a :
  (((l ++ x) ++ y) ++ z) ++ [a] = l ++ (x ++ y ++ z) ++ [a].
Proof. rewrite <- !app_assoc. reflexivity. Qed.

Lemma log_two_more {A} (l x y : list A) a b :
  (((l ++ x) ++ y) ++ [a]) ++ [b] = l ++ (x ++ y) ++ [a; b].
Proof. rewrite <- !app_assoc. reflexivity. Qed.

End Running.

Create Rewrite HintDb run.
#[export] Hint Rewrite @run_bind @run_ret @run_read @run_update @run_emit
  @run_call @run_LOGW_IF : run.

(** [run] steps through the straight-line part of a computation;
    [fields] reads fields of updated objects. *)
Ltac run := repeat (autorewrite with run; cbn [self world log fst snd]).

Ltac fields :=
  cbn [self world log fst snd
       mDisplayId mProducerUsage mQueueBufferOutput mCompositionType
       mSinkBufferWidth mSinkBufferHeight mFbFence mFbProducerSlot
       mOutputProducerSlot mProducerSlotSource mProducerBuffers mDbgState
       mDbgLastCompositionType
       set_mProducerUsage set_mQueueBufferOutput set_mCompositionType
       set_mSinkBufferWidth set_mSinkBufferHeight set_mFbFence
       set_mFbProducerSlot set_mOutputProducerSlot set_mProducerSlotSource
       set_mProducerBuffers set_mDbgState set_mDbgLastCompositionType].

Ltac run_buffer_at Hb :=
  run; erewrite run_buffer_at by (fields; first [lia | exact Hb]); run.

(** ** Machine integers and the ownership mask *)

Lemma uint32_small z : 0 <= z < 2 ^ 32 -> uint32 z = z.
Proof. intros. unfold uint32. apply Z.mod_small. lia. Qed.

Lemma int32_small z : - 2 ^ 31 <= z < 2 ^ 31 -> int32 z = z.
Proof. intros. unfold int32. rewrite Z.mod_small; lia. Qed.

Lemma pow2_lt_32 n : 0 <= n < 32 -> 0 < 2 ^ n < 2 ^ 32.
Proof.
  intros. split; [apply Z.pow_pos_nonneg; lia|].
  apply Z.pow_lt_mono_r; lia.
Qed.

Lemma shl32_one n : 0 <= n < 32 -> shl32 1 n = Some (2 ^ n).
Proof.
  intros Hn. unfold shl32. case_decide; [|lia].
  rewrite Z.shiftl_1_l, uint32_small; [reflexivity|].
  pose proof (pow2_lt_32 n Hn). lia.
Qed.

Lemma shl32_source s n :
  0 <= n < 32 -> shl32 (Source_to_uint32 s) n = Some (source_bit s n).
Proof.
  intros Hn. destruct s; cbn [Source_to_uint32 source_bit].
  - unfold shl32. case_decide; [|lia]. rewrite Z.shiftl_0_l. reflexivity.
  - apply shl32_one, Hn.
Qed.

Lemma land_pow2 mask n : 0 <= n ->
  Z.land mask (2 ^ n) = if Z.testbit mask n then 2 ^ n else 0.
Proof.
  intros Hn. apply Z.bits_inj'. intros j Hj.
  rewrite Z.land_spec. destruct (Z.testbit mask n) eqn:E.
  - destruct (decide (j = n)) as [->|Hne].
    + rewrite E. reflexivity.
    + rewrite Z.pow2_bits_false by lia. apply andb_false_r.
  - destruct (decide (j = n)) as [->|Hne].
    + rewrite E, Z.bits_0. reflexivity.
    + rewrite Z.pow2_bits_false by lia. rewrite Z.bits_0. apply andb_false_r.
Qed.

Lemma land_lor_same r b : Z.land (Z.lor r b) b = b.
Proof.
  apply Z.bits_inj'. intros n Hn. rewrite Z.land_spec, Z.lor_spec.
  destruct (Z.testbit r n), (Z.testbit b n); reflexivity.
Qed.

(** The comparison of line 237, read as a statement about the owner. *)
Lemma owner_test mask s n : 0 <= n ->
  Z.land mask (2 ^ n) = source_bit s n <-> owner mask n = s.
Proof.
  intros Hn. rewrite land_pow2 by lia. unfold owner.
  assert (0 < 2 ^ n) by (apply Z.pow_pos_nonneg; lia).
  destruct (Z.testbit mask n), s; cbn [source_bit]; split; intros;
    try reflexivity; try discriminate; lia.
Qed.

Lemma not32_bits x j :
  0 <= j < 32 -> Z.testbit (not32 x) j = negb (Z.testbit x j).
Proof.
  intros Hj. unfold not32, uint32.
  rewrite Z.mod_pow2_bits_low by lia. apply Z.lnot_spec. lia.
Qed.

Lemma source_bit_bits s n j : 0 <= n -> 0 <= j ->
  Z.testbit (source_bit s n) j = bool_decide (s = SOURCE_SCRATCH /\ j = n).
Proof.
  intros Hn Hj. destruct s; cbn [source_bit].
  - rewrite Z.bits_0. symmetry. apply bool_decide_eq_false.
    intros [? _]. discriminate.
  - destruct (decide (j = n)) as [->|Hne].
    + rewrite Z.pow2_bits_true by lia. symmetry.
      apply bool_decide_eq_true. auto.
    + rewrite Z.pow2_bits_false by lia. symmetry.
      apply bool_decide_eq_false. intros [_ ?]. lia.
Qed.

Lemma flip_owner_same mask s n :
  0 <= n < 32 -> owner (flip_owner mask s n) n = s.
Proof.
  intros Hn. unfold owner, flip_owner.
  rewrite Z.lor_spec, Z.land_spec, not32_bits, Z.pow2_bits_true by lia.
  rewrite source_bit_bits by lia. rewrite andb_false_r. cbn [negb orb].
  destruct s.
  - rewrite bool_decide_eq_false_2; [reflexivity|]. intros [? _]; discriminate.
  - rewrite bool_decide_eq_true_2; auto.
Qed.

Lemma flip_owner_other mask s n j :
  0 <= n < 32 -> 0 <= j < 32 -> j <> n ->
  owner (flip_owner mask s n) j = owner mask j.
Proof.
  intros Hn Hj Hne. unfold owner, flip_owner.
  rewrite Z.lor_spec, Z.land_spec, not32_bits, Z.pow2_bits_false by lia.
  rewrite source_bit_bits by lia.
  rewrite bool_decide_eq_false_2 by (intros [_ ?]; lia).
  rewrite andb_true_r, orb_false_r. reflexivity.
Qed.

Lemma dequeue_mask_owner mask source pslot :
  0 <= pslot < 32 -> owner (dequeue_mask mask source pslot) pslot = source.
Proof.
  intros Hp. unfold dequeue_mask. case_decide; [assumption|].
  apply flip_owner_same, Hp.
Qed.

Lemma dequeue_mask_other mask source pslot j :
  0 <= pslot < 32 -> 0 <= j < 32 -> j <> pslot ->
  owner (dequeue_mask mask source pslot) j = owner mask j.
Proof.
  intros Hp Hj Hne. unfold dequeue_mask. case_decide; [reflexivity|].
  apply flip_owner_other; assumption.
Qed.

(** ** Slot mapping *)

Section SlotMappingFacts.
Context {hdr : Header}.

Lemma mapSource2ProducerSlot_range source s :
  NUM_BUFFER_SLOTS < 2 ^ 31 -> 0 <= s < NUM_BUFFER_SLOTS ->
  0 <= mapSource2ProducerSlot source s < NUM_BUFFER_SLOTS.
Proof.
  intros HN Hs. unfold mapSource2ProducerSlot. case_decide; [|lia].
  rewrite int32_small; lia.
Qed.

Lemma fbSource_cases type :
  fbSourceForCompositionType type =
  match type with COMPOSITION_MIXED => SOURCE_SCRATCH | _ => SOURCE_SINK end.
Proof. destruct type; reflexivity. Qed.

(** C1.  On the native slots [0, N) the slot mapping is an involution
    for both sources: the scratch mapping is the reflection
    [s -> N - s - 1], the sink mapping is the identity, both stay in
    [0, N), and [mapProducer2SourceSlot] is the same function as
    [mapSource2ProducerSlot]. *)
Theorem mapSource2ProducerSlot_involution (source : Source) (s : Z) :
  NUM_BUFFER_SLOTS < 2 ^ 31 ->
  0 <= s < NUM_BUFFER_SLOTS ->
  mapSource2ProducerSlot source (mapSource2ProducerSlot source s) = s
  /\ mapSource2ProducerSlot SOURCE_SCRATCH s = NUM_BUFFER_SLOTS - s - 1
  /\ mapSource2ProducerSlot SOURCE_SINK s = s
  /\ 0 <= mapSource2ProducerSlot source s < NUM_BUFFER_SLOTS
  /\ mapProducer2SourceSlot = mapSource2ProducerSlot.
Proof.
  intros HN Hs.
  assert (Hscratch : mapSource2ProducerSlot SOURCE_SCRATCH s = NUM_BUFFER_SLOTS - s - 1).
  { unfold mapSource2ProducerSlot. rewrite decide_True by reflexivity.
    apply int32_small. lia. }
  repeat split; try exact Hscratch; try reflexivity.
  - destruct source; [reflexivity|]. rewrite Hscratch.
    unfold mapSource2ProducerSlot. rewrite decide_True by reflexivity.
    rewrite int32_small by lia. lia.
  - destruct source; [change (0 <= s); lia | rewrite Hscratch; lia].
  - destruct source; [change (s < NUM_BUFFER_SLOTS); lia | rewrite Hscratch; lia].
Qed.

End SlotMappingFacts.

(** ** The source-level [dequeueBuffer] *)

Section DequeueBuffer.
Context {hdr : Header} {World : Type} {env : Collaborators World}.
Implicit Types st : State World.

Lemma run_set_buffer_at i b st :
  0 <= i < Z.of_nat (length (mProducerBuffers (self st))) ->
  set_buffer_at i b st =
  Some (tt, mkState (set_mProducerBuffers (<[Z.to_nat i := b]> (mProducerBuffers (self st))) (self st))
              (world st) (log st)).
Proof.
  intros Hi. unfold set_buffer_at. run. case_decide; [|lia]. run. reflexivity.
Qed.

Lemma release_all_loop_spec sourceBit todo : forall i st,
  0 <= i -> i + Z.of_nat todo <= 32 ->
  i + Z.of_nat todo <= Z.of_nat (length (mProducerBuffers (self st))) ->
  exists bufs,
    release_all_loop sourceBit todo i st =
      Some (tt, mkState (set_mProducerBuffers bufs (self st)) (world st) (log st))
    /\ length bufs = length (mProducerBuffers (self st))
    /\ forall j : Z, 0 <= j ->
         bufs !! Z.to_nat j =
         if decide (i <= j < i + Z.of_nat todo /\
                    Z.land (mProducerSlotSource (self st)) (2 ^ j) = sourceBit)
         then Some None else mProducerBuffers (self st) !! Z.to_nat j.
Proof.
  induction todo as [|todo IH]; intros i st Hi H32 Hlen.
  - exists (mProducerBuffers (self st)). cbn [release_all_loop]. run.
    rewrite state_eta. split; [reflexivity|]. split; [reflexivity|].
    intros j Hj. case_decide; [lia|reflexivity].
  - cbn [release_all_loop]. run. rewrite shl32_one by lia. cbn [lift_option]. run.
    destruct (decide (Z.land (mProducerSlotSource (self st)) (2 ^ i) = sourceBit)) as [Heq|Hne].
    + rewrite run_set_buffer_at by lia.
      set (st1 := mkState _ _ _).
      destruct (IH (i + 1) st1) as (bufs & Hrun & Hl & Hget);
        [lia | lia | subst st1; cbn; rewrite length_insert; lia |].
      exists bufs. rewrite Hrun. subst st1. cbn. cbn in Hl, Hget.
      split; [reflexivity|]. split; [rewrite Hl; apply length_insert|].
      intros j Hj. rewrite Hget by lia.
      destruct (decide (j = i)) as [->|Hji].
      * repeat case_decide; try reflexivity; try (exfalso; intuition lia).
        apply list_lookup_insert_eq. lia.
      * rewrite list_lookup_insert_ne by lia.
        repeat case_decide; try reflexivity; exfalso; intuition lia.
    + run. destruct (IH (i + 1) st) as (bufs & Hrun & Hl & Hget); [lia | lia | lia |].
      exists bufs. rewrite Hrun. split; [reflexivity|]. split; [assumption|].
      intros j Hj. rewrite Hget by lia.
      repeat case_decide; try reflexivity; exfalso.
      * intuition lia.
      * destruct (decide (j = i)) as [->|?]; intuition (try lia; try congruence).
Qed.
Lemma dequeueBuffer_source_failed source format st result sslot fence w1 :
  src_dequeueBuffer source (mSinkBufferWidth (self st)) (mSinkBufferHeight (self st))
    format (mProducerUsage (self st)) (world st) = ((result, sslot, fence), w1) ->
  result < 0 ->
  dequeueBuffer_source source format st =
  Some ((result, sslot, fence),
        mkState (self st) w1
          (log st ++ [SrcDequeueBuffer source (mSinkBufferWidth (self st))
                        (mSinkBufferHeight (self st)) format (mProducerUsage (self st))])).
Proof.
  intros Hdq Hneg. unfold dequeueBuffer_source. run. rewrite Hdq. cbn [fst snd].
  case_decide; [|lia]. run. reflexivity.
Qed.

Lemma dequeueBuffer_source_spec source format st result sslot fence w1 :
  0 < NUM_BUFFER_SLOTS <= 32 ->
  well_formed (self st) ->
  src_dequeueBuffer source (mSinkBufferWidth (self st)) (mSinkBufferHeight (self st))
    format (mProducerUsage (self st)) (world st) = ((result, sslot, fence), w1) ->
  0 <= result ->
  0 <= mapSource2ProducerSlot source sslot < NUM_BUFFER_SLOTS ->
  let pslot := mapSource2ProducerSlot source sslot in
  let bufs := mProducerBuffers (self st) in
  let mask' := dequeue_mask (mProducerSlotSource (self st)) source pslot in
  let result' := dequeue_flags (mProducerSlotSource (self st)) source pslot result in
  let released := bool_decide (Z.land result' RELEASE_ALL_BUFFERS <> 0) in
  let realloc := bool_decide (Z.land result' BUFFER_NEEDS_REALLOCATION <> 0) in
  exists bufs' old,
    let answer := src_requestBuffer source sslot old w1 in
    dequeueBuffer_source source format st =
      Some ((result', sslot, fence),
            mkState (set_mProducerBuffers bufs' (set_mProducerSlotSource mask' (self st)))
              (if realloc then answer.2 else w1)
              (log st ++
               SrcDequeueBuffer source (mSinkBufferWidth (self st))
                 (mSinkBufferHeight (self st)) format (mProducerUsage (self st))
               :: (if realloc then [SrcRequestBuffer source sslot] else [])))
    /\ length bufs' = length bufs
    /\ Some old = (if released then Some None else bufs !! Z.to_nat pslot)
    /\ bufs' !! Z.to_nat pslot = Some (if realloc then answer.1.2 else old)
    /\ forall j, 0 <= j -> j <> pslot ->
         bufs' !! Z.to_nat j =
         if decide (released = true /\ j < NUM_BUFFER_SLOTS /\
                    Z.land mask' (2 ^ j) = source_bit source pslot)
         then Some None else bufs !! Z.to_nat j.
Proof.
  intros HN Hwf Hdq Hres Hp pslot bufs mask' result' released realloc.
  unfold well_formed in Hwf. fold bufs in Hwf.
  assert (Hp32 : 0 <= pslot < 32) by (subst pslot; lia).
  (* the state once the ownership bit has been brought up to date *)
  set (st1 := mkState (set_mProducerSlotSource mask' (self st)) w1
                (log st ++ [SrcDequeueBuffer source (mSinkBufferWidth (self st))
                   (mSinkBufferHeight (self st)) format (mProducerUsage (self st))])).
  (* the loop and the request, run from there *)
  assert (Htail : exists bufs' old,
    let answer := src_requestBuffer source sslot old w1 in
    ((if decide (Z.land result' RELEASE_ALL_BUFFERS <> 0)
      then release_all_loop (source_bit source pslot) (Z.to_nat NUM_BUFFER_SLOTS) 0
      else mret tt) ≫= fun _ =>
     (if decide (Z.land result' BUFFER_NEEDS_REALLOCATION <> 0)
      then
        old ← buffer_at pslot;
        '(_, buf) ← call (SrcRequestBuffer source sslot)
                         (src_requestBuffer source sslot old);
        set_buffer_at pslot buf
      else mret tt) ≫= fun _ => mret (result', sslot, fence)) st1 =
    Some ((result', sslot, fence),
            mkState (set_mProducerBuffers bufs' (set_mProducerSlotSource mask' (self st)))
              (if realloc then answer.2 else w1)
              (log st1 ++ (if realloc then [SrcRequestBuffer source sslot] else [])))
    /\ length bufs' = length bufs
    /\ Some old = (if released then Some None else bufs !! Z.to_nat pslot)
    /\ bufs' !! Z.to_nat pslot = Some (if realloc then answer.1.2 else old)
    /\ forall j, 0 <= j -> j <> pslot ->
         bufs' !! Z.to_nat j =
         if decide (released = true /\ j < NUM_BUFFER_SLOTS /\
                    Z.land mask' (2 ^ j) = source_bit source pslot)
         then Some None else bufs !! Z.to_nat j).
  { assert (Hloop : exists bufs1,
      (if decide (Z.land result' RELEASE_ALL_BUFFERS <> 0)
       then release_all_loop (source_bit source pslot) (Z.to_nat NUM_BUFFER_SLOTS) 0
       else mret tt) st1 =
      Some (tt, mkState (set_mProducerBuffers bufs1 (self st1)) (world st1) (log st1))
      /\ length bufs1 = length bufs
      /\ forall j, 0 <= j ->
           bufs1 !! Z.to_nat j =
           if decide (released = true /\ j < NUM_BUFFER_SLOTS /\
                      Z.land mask' (2 ^ j) = source_bit source pslot)
           then Some None else bufs !! Z.to_nat j).
    { subst released. case_decide as Hrel.
      - destruct (release_all_loop_spec (source_bit source pslot)
                    (Z.to_nat NUM_BUFFER_SLOTS) 0 st1) as (bufs1 & Hrun & Hl & Hget);
          [lia | lia | subst st1; cbn; fold bufs; lia |].
        exists bufs1. split; [exact Hrun|]. split; [exact Hl|].
        intros j Hj. rewrite Hget by lia. subst st1. cbn. fold bufs.
        rewrite bool_decide_eq_true_2 by assumption.
        repeat case_decide; try reflexivity; exfalso; intuition lia.
      - exists bufs. run.
        split; [rewrite <- (state_eta st1) at 1; reflexivity|]. split; [reflexivity|].
        intros j Hj. rewrite bool_decide_eq_false_2 by (intros ?; congruence).
        case_decide; [exfalso; intuition congruence | reflexivity]. }
    destruct Hloop as (bufs1 & Hrun & Hl1 & Hget1).
    destruct (lookup_lt_is_Some_2 bufs1 (Z.to_nat pslot)) as [old Hold];
      [rewrite Hl1; lia|].
    assert (Hold' : Some old = (if released then Some None else bufs !! Z.to_nat pslot)).
    { rewrite <- Hold, Hget1 by lia. destruct released eqn:Hr.
      - rewrite decide_True; [reflexivity|]. split; [reflexivity|]. split; [lia|].
        apply owner_test; [lia|]. apply dequeue_mask_owner. lia.
      - rewrite decide_False; [reflexivity|]. intros [? _]; discriminate. }
    rewrite run_bind, Hrun. clear Hrun. subst realloc.
    destruct (decide (Z.land result' BUFFER_NEEDS_REALLOCATION <> 0)) as [Hre|Hre].
    - exists (<[Z.to_nat pslot := (src_requestBuffer source sslot old w1).1.2]> bufs1), old.
      cbn zeta. rewrite bool_decide_eq_true_2 by assumption. run.
      erewrite run_buffer_at by (cbn; first [lia | exact Hold]). run.
      destruct (src_requestBuffer source sslot old (world st1)) as [[status buf] w2] eqn:Hrq.
      subst st1. cbn in Hrq. rewrite Hrq. cbn [fst snd].
      rewrite run_set_buffer_at by (cbn; rewrite Hl1; lia).
      run. cbn. split; [reflexivity|].
      split; [rewrite length_insert; exact Hl1|]. split; [exact Hold'|].
      split; [apply list_lookup_insert_eq; rewrite Hl1; lia|].
      intros j Hj Hne. rewrite list_lookup_insert_ne by lia. apply Hget1, Hj.
    - exists bufs1, old. cbn zeta. rewrite bool_decide_eq_false_2 by assumption. run.
      subst st1. cbn. rewrite app_nil_r. split; [reflexivity|].
      split; [exact Hl1|]. split; [exact Hold'|]. split; [exact Hold|].
      intros j Hj Hne. apply Hget1, Hj. }
  destruct Htail as (bufs' & old & Htail & Hrest).
  exists bufs', old. cbn zeta. split; [|exact Hrest].
  subst st1. cbn [log] in Htail. rewrite <- app_assoc in Htail. cbn [app] in Htail.
  rewrite <- Htail. clear Htail Hrest.
  unfold dequeueBuffer_source. run. rewrite Hdq. cbn [fst snd].
  case_decide; [lia|]. fold pslot.
  rewrite shl32_source, shl32_one by lia. cbn [lift_option]. run.
  subst mask' result'. unfold dequeue_mask, dequeue_flags.
  destruct (decide (Z.land (mProducerSlotSource (self st)) (2 ^ pslot) <> source_bit source pslot))
    as [Hmis|Hsame].
  - assert (Hown : owner (mProducerSlotSource (self st)) pslot <> source).
    { intros Ho. apply Hmis, owner_test; [lia | exact Ho]. }
    destruct (decide (owner (mProducerSlotSource (self st)) pslot = source));
      [contradiction|].
    run. cbn. reflexivity.
  - apply dec_stable in Hsame. apply owner_test in Hsame; [|lia].
    destruct (decide (owner (mProducerSlotSource (self st)) pslot = source));
      [|contradiction].
    run.
    rewrite set_mProducerSlotSource_eta. reflexivity.
Qed.
Lemma buffer_at_inv i b st st' : buffer_at i st = Some (b, st') -> st' = st.
Proof.
  unfold buffer_at. run. case_decide; [|discriminate].
  destruct (_ !! _); cbn [lift_option]; [run; congruence | discriminate].
Qed.

Lemma set_buffer_at_inv i b st st' :
  set_buffer_at i b st = Some (tt, st') ->
  exists bufs, st' = mkState (set_mProducerBuffers bufs (self st)) (world st) (log st).
Proof.
  unfold set_buffer_at. run. case_decide; [|discriminate]. run.
  intros [= <-]. eauto.
Qed.

Lemma release_all_loop_inv sourceBit todo : forall i st st',
  release_all_loop sourceBit todo i st = Some (tt, st') ->
  exists bufs, st' = mkState (set_mProducerBuffers bufs (self st)) (world st) (log st).
Proof.
  induction todo as [|todo IH]; intros i st st'; cbn [release_all_loop]; run.
  - intros [= <-]. exists (mProducerBuffers (self st)). symmetry. apply state_eta.
  - destruct (shl32 1 i) as [bit|]; cbn [lift_option]; [run | discriminate].
    destruct (decide (Z.land (mProducerSlotSource (self st)) bit = sourceBit)).
    + destruct (set_buffer_at i None st) as [[[] st1]|] eqn:Hset; [|discriminate].
      apply set_buffer_at_inv in Hset as [bufs1 ->].
      intros Hrun. apply IH in Hrun as [bufs ->]. exists bufs. reflexivity.
    + run. apply IH.
Qed.

(** The second half of [dequeueBuffer(Source, ...)], from the release
    loop on. *)
Lemma dequeueBuffer_source_tail_inv source (sslot : Z) (fence : option Fence)
  (sourceBit result : Z) st r st' :
  ((if decide (Z.land result RELEASE_ALL_BUFFERS <> 0)
    then release_all_loop sourceBit (Z.to_nat NUM_BUFFER_SLOTS) 0
    else mret tt);;
   (if decide (Z.land result BUFFER_NEEDS_REALLOCATION <> 0)
    then
      old ← buffer_at (mapSource2ProducerSlot source sslot);
      '(_, buf) ← call (SrcRequestBuffer source sslot)
                       (src_requestBuffer source sslot old);
      set_buffer_at (mapSource2ProducerSlot source sslot) buf
    else mret tt);;
   mret (result, sslot, fence)) st = Some (r, st') ->
  exists bufs evs,
    self st' = set_mProducerBuffers bufs (self st)
    /\ log st' = log st ++ evs
    /\ Forall (fun e => event_source e = Some source) evs.
Proof.
  run.
  match goal with
  | |- match ?m with _ => _ end = _ -> _ => destruct m as [[[] st3]|] eqn:Hl3
  end; [|discriminate].
  assert (Hst3 : exists bufs,
    st3 = mkState (set_mProducerBuffers bufs (self st)) (world st) (log st)).
  { destruct (decide (Z.land result RELEASE_ALL_BUFFERS <> 0)).
    - eapply release_all_loop_inv, Hl3.
    - revert Hl3. run. intros [= <-]. eexists. symmetry. apply state_eta. }
  clear Hl3. destruct Hst3 as [bufs1 ->].
  destruct (decide (Z.land result BUFFER_NEEDS_REALLOCATION <> 0)).
  - run. destruct (buffer_at _ _) as [[old st4]|] eqn:Hb; [|discriminate].
    apply buffer_at_inv in Hb as ->. run.
    destruct (src_requestBuffer _ _ _ _) as [[status buf] w2]. cbn [fst snd].
    destruct (set_buffer_at _ _ _) as [[[] st5]|] eqn:Hs; [|discriminate].
    apply set_buffer_at_inv in Hs as [bufs2 ->]. run. intros [= <- <-].
    exists bufs2. eexists. cbn [self log]. split; [reflexivity|].
    split; [reflexivity|]. repeat constructor.
  - run. intros [= <- <-]. exists bufs1, []. cbn [self log].
    split; [reflexivity|]. rewrite app_nil_r. split; [reflexivity|]. constructor.
Qed.

(** What [dequeueBuffer(Source, ...)] can change, whenever it returns. *)
Lemma dequeueBuffer_source_inv source format st r st' :
  dequeueBuffer_source source format st = Some (r, st') ->
  exists mask bufs evs,
    self st' = set_mProducerBuffers bufs (set_mProducerSlotSource mask (self st))
    /\ log st' = log st ++ evs
    /\ Forall (fun e => event_source e = Some source) evs.
Proof.
  unfold dequeueBuffer_source. run.
  destruct (src_dequeueBuffer _ _ _ _ _ _) as [[[result sslot] fence] w1]. cbn [fst snd].
  case_decide.
  { run. intros [= <- <-]. exists (mProducerSlotSource (self st)), (mProducerBuffers (self st)).
    eexists. cbn [self log]. rewrite set_mProducerSlotSource_eta, set_mProducerBuffers_eta.
    split; [reflexivity|]. split; [reflexivity|]. repeat constructor. }
  destruct (shl32 (Source_to_uint32 source) _) as [sourceBit|]; cbn [lift_option];
    [run | discriminate].
  destruct (shl32 1 _) as [bit|]; cbn [lift_option]; [run | discriminate].
  destruct (decide (Z.land (mProducerSlotSource (self st)) bit <> sourceBit)).
  - intros Ht. apply dequeueBuffer_source_tail_inv in Ht as (bufs & evs & Hs & Hl & Hev).
    cbn [self log] in Hs, Hl. eexists _, bufs, _. split; [exact Hs|].
    rewrite Hl, <- app_assoc. split; [reflexivity|]. constructor; [reflexivity|exact Hev].
  - intros Ht. apply dequeueBuffer_source_tail_inv in Ht as (bufs & evs & Hs & Hl & Hev).
    cbn [self log] in Hs, Hl. exists (mProducerSlotSource (self st)), bufs. eexists.
    rewrite set_mProducerSlotSource_eta. split; [exact Hs|].
    rewrite Hl, <- app_assoc. split; [reflexivity|]. constructor; [reflexivity|exact Hev].
Qed.
(** A successful source-level dequeue of a unified slot whose ownership
    bit names the other source returns the result with the
    needs-reallocation flag, leaves the slot owned by the calling
    source and every other slot with the owner it had, and makes one
    [requestBuffer] call, on that source and for the native slot.  The
    call is made on the cell of the unified slot, which holds [old]:
    the record of the other source, or null after
    [RELEASE_ALL_BUFFERS].  Its status is dropped, and the slot's
    record when the function returns is what the call has left in the
    cell: a handle of the calling source only if [requestBuffer] has
    written one. *)
Theorem dequeueBuffer_source_reallocates source format st result sslot fence w1 :
  0 < NUM_BUFFER_SLOTS <= 32 ->
  BUFFER_NEEDS_REALLOCATION <> 0 ->
  well_formed (self st) ->
  src_dequeueBuffer source (mSinkBufferWidth (self st)) (mSinkBufferHeight (self st))
    format (mProducerUsage (self st)) (world st) = ((result, sslot, fence), w1) ->
  0 <= result ->
  0 <= mapSource2ProducerSlot source sslot < NUM_BUFFER_SLOTS ->
  owner (mProducerSlotSource (self st)) (mapSource2ProducerSlot source sslot) <> source ->
  exists st' old,
    let pslot := mapSource2ProducerSlot source sslot in
    let answer := src_requestBuffer source sslot old w1 in
    dequeueBuffer_source source format st =
      Some ((Z.lor result BUFFER_NEEDS_REALLOCATION, sslot, fence), st')
    /\ Z.land (Z.lor result BUFFER_NEEDS_REALLOCATION) BUFFER_NEEDS_REALLOCATION <> 0
    /\ owner (mProducerSlotSource (self st')) pslot = source
    /\ (forall j, 0 <= j < NUM_BUFFER_SLOTS -> j <> pslot ->
          owner (mProducerSlotSource (self st')) j = owner (mProducerSlotSource (self st)) j)
    /\ log st' = log st ++
         [SrcDequeueBuffer source (mSinkBufferWidth (self st))
            (mSinkBufferHeight (self st)) format (mProducerUsage (self st));
          SrcRequestBuffer source sslot]
    /\ filter (fun e => is_requestBuffer_call e = true) (new_events st st') =
         [SrcRequestBuffer source sslot]
    /\ world st' = answer.2
    /\ mProducerBuffers (self st') !! Z.to_nat pslot = Some answer.1.2
    /\ Some old =
         (if bool_decide (Z.land (Z.lor result BUFFER_NEEDS_REALLOCATION)
                            RELEASE_ALL_BUFFERS <> 0)
          then Some None
          else mProducerBuffers (self st) !! Z.to_nat pslot).
Proof.
  intros HN Hflag Hwf Hdq Hres Hp Hown.
  destruct (dequeueBuffer_source_spec source format st result sslot fence w1
              HN Hwf Hdq Hres Hp) as (bufs' & old & Hrun & Hlen & Hold & Hnew & _).
  cbn zeta in Hrun, Hold, Hnew.
  unfold dequeue_flags, dequeue_mask in Hrun, Hold, Hnew.
  destruct (decide (owner (mProducerSlotSource (self st))
                      (mapSource2ProducerSlot source sslot) = source)); [contradiction|].
  assert (Hset : Z.land (Z.lor result BUFFER_NEEDS_REALLOCATION) BUFFER_NEEDS_REALLOCATION <> 0)
    by (rewrite land_lor_same; exact Hflag).
  rewrite bool_decide_eq_true_2 in Hrun, Hnew by exact Hset.
  eexists. exists old. cbn zeta. split; [exact Hrun|]. cbn [self world log].
  split; [exact Hset|].
  split; [apply flip_owner_same; lia|].
  split; [intros j Hj Hne; apply flip_owner_other; lia|].
  split; [reflexivity|].
  split; [unfold new_events; fields; rewrite drop_app_length; reflexivity|].
  split; [reflexivity|]. split; [exact Hnew | exact Hold].
Qed.
End DequeueBuffer.

(** ** What [RELEASE_ALL_BUFFERS] clears *)

Section ReleaseAll.
Context {hdr : Header} {World : Type} {env : Collaborators World}.
Implicit Types st : State World.

(** The comparison of line 247 for a slot other than the dequeued one:
    with the sink as the source it asks whether the sink owns the slot;
    with the scratch pool it never holds, since [sourceBit] is the bit
    of the dequeued slot. *)
Lemma release_test_other mask source pslot j :
  0 <= pslot -> 0 <= j -> j <> pslot ->
  Z.land mask (2 ^ j) = source_bit source pslot <->
  source = SOURCE_SINK /\ owner mask j = SOURCE_SINK.
Proof.
  intros Hp Hj Hne. rewrite land_pow2 by lia. unfold owner.
  assert (0 < 2 ^ j) by (apply Z.pow_pos_nonneg; lia).
  assert (0 < 2 ^ pslot) by (apply Z.pow_pos_nonneg; lia).
  assert (2 ^ j <> 2 ^ pslot).
  { intros Heq. apply Z.pow_inj_r in Heq; lia. }
  destruct (Z.testbit mask j), source; cbn [source_bit]; split;
    try (intros [? ?]); try intros ?; try discriminate; try lia; auto.
Qed.

(** X14.  The buffer records after a successful source-level dequeue,
    slot by slot.  Away from the dequeued slot a record is cleared exactly when
    the result carries [RELEASE_ALL_BUFFERS], the source is the sink
    and the sink owns the slot; on a dequeue from the scratch pool the
    other records stay as they are, whoever owns them. *)
Lemma dequeueBuffer_source_release_effect source format st result sslot fence w1 :
  0 < NUM_BUFFER_SLOTS <= 32 ->
  well_formed (self st) ->
  src_dequeueBuffer source (mSinkBufferWidth (self st)) (mSinkBufferHeight (self st))
    format (mProducerUsage (self st)) (world st) = ((result, sslot, fence), w1) ->
  0 <= result ->
  0 <= mapSource2ProducerSlot source sslot < NUM_BUFFER_SLOTS ->
  exists result' st',
    dequeueBuffer_source source format st = Some ((result', sslot, fence), st')
    /\ forall j, 0 <= j < NUM_BUFFER_SLOTS -> j <> mapSource2ProducerSlot source sslot ->
         mProducerBuffers (self st') !! Z.to_nat j =
         if decide (Z.land result' RELEASE_ALL_BUFFERS <> 0 /\
                    source = SOURCE_SINK /\
                    owner (mProducerSlotSource (self st')) j = SOURCE_SINK)
         then Some None
         else mProducerBuffers (self st) !! Z.to_nat j.
Proof.
  intros HN Hwf Hdq Hres Hp.
  destruct (dequeueBuffer_source_spec source format st result sslot fence w1
              HN Hwf Hdq Hres Hp) as (bufs' & old & Hrun & _ & _ & _ & Hother).
  cbn zeta in Hrun, Hother. eexists _, _. split; [exact Hrun|].
  intros j Hj Hne. fields. rewrite Hother by lia.
  set (result' := dequeue_flags _ _ _ _).
  set (mask' := dequeue_mask _ _ _).
  assert (Htest := release_test_other mask' source
                      (mapSource2ProducerSlot source sslot) j
                      (proj1 Hp) (proj1 Hj) Hne).
  destruct (decide (Z.land result' RELEASE_ALL_BUFFERS <> 0)) as [Hrel|Hrel].
  - rewrite bool_decide_eq_true_2 by exact Hrel.
    repeat case_decide; try reflexivity; exfalso; intuition.
  - rewrite bool_decide_eq_false_2 by exact Hrel.
    repeat case_decide; try reflexivity; exfalso; intuition congruence.
Qed.

End ReleaseAll.

(** [run_local] is [run] without the calls to collaborators, each of
    which is then named before the run goes on. *)
Create Rewrite HintDb run_local.
#[export] Hint Rewrite @run_bind @run_ret @run_read @run_update @run_emit
  @run_LOGW_IF : run_local.
Ltac run_local :=
  repeat (autorewrite with run_local; cbn [self world log fst snd]).

Tactic Notation "fields" "in" hyp(H) :=
  cbn [self world log fst snd
       mDisplayId mProducerUsage mQueueBufferOutput mCompositionType
       mSinkBufferWidth mSinkBufferHeight mFbFence mFbProducerSlot
       mOutputProducerSlot mProducerSlotSource mProducerBuffers mDbgState
       mDbgLastCompositionType
       set_mProducerUsage set_mQueueBufferOutput set_mCompositionType
       set_mSinkBufferWidth set_mSinkBufferHeight set_mFbFence
       set_mFbProducerSlot set_mOutputProducerSlot set_mProducerSlotSource
       set_mProducerBuffers set_mDbgState set_mDbgLastCompositionType] in H.

(** ** The frame protocol *)

Section FrameProtocol.
Context {hdr : Header} {World : Type} {env : Collaborators World}.
Implicit Types st : State World.

Lemma in_range_lookup (v : VirtualDisplaySurface) i :
  well_formed v -> 0 <= i < NUM_BUFFER_SLOTS ->
  exists b, mProducerBuffers v !! Z.to_nat i = Some b.
Proof.
  intros Hwf Hi. apply lookup_lt_is_Some_2. rewrite Hwf. lia.
Qed.

Lemma source_call_not_hwc e source : event_source e = Some source -> is_hwc_call e = false.
Proof. destruct e; cbn; congruence. Qed.

Lemma Forall_source_not_hwc evs source :
  Forall (fun e => event_source e = Some source) evs ->
  Forall (fun e => is_hwc_call e = false) evs.
Proof.
  intros Hf. eapply Forall_impl; [exact Hf|].
  intros e. apply source_call_not_hwc.
Qed.

(** Whenever the first half of [advanceFrame] returns, the state is
    [DBG_STATE_HWC] and the hardware composer has not been called. *)
Lemma advanceFrame_route_inv st x st1 :
  advanceFrame_route st = Some (x, st1) ->
  mDbgState (self st1) = DBG_STATE_HWC
  /\ mDisplayId (self st1) = mDisplayId (self st)
  /\ exists evs, log st1 = log st ++ evs /\ Forall (fun e => is_hwc_call e = false) evs.
Proof.
  unfold advanceFrame_route. run.
  set (warn := if decide (mCompositionType (self st) = COMPOSITION_HWC) then _ else _).
  assert (Hwarn : exists evs, warn st = Some (tt, mkState (self st) (world st) (log st ++ evs))
                              /\ Forall (fun e => is_hwc_call e = false) evs).
  { subst warn. destruct (decide _); rewrite run_LOGW_IF; eexists; (split; [reflexivity|]);
      destruct (bool_decide _); repeat constructor. }
  destruct Hwarn as (evs0 & -> & Hevs0). clearbody warn. clear warn. run.
  destruct (decide (mCompositionType (self st) <> COMPOSITION_GLES)) as [Hct|Hct].
  - run. destruct (dequeueBuffer_source SOURCE_SINK 0 _) as [[[[result sslot] fence] st2]|] eqn:Hdq;
      [|discriminate].
    apply dequeueBuffer_source_inv in Hdq as (mask & bufs & evs & Hself & Hlog & Hevs).
    cbn [self log] in Hself, Hlog. apply Forall_source_not_hwc in Hevs.
    assert (Hall : Forall (fun e => is_hwc_call e = false) (evs0 ++ evs))
      by (apply Forall_app; split; assumption).
    destruct (decide (result < 0)).
    + run. intros [= <- <-]. rewrite Hself, Hlog, <- app_assoc. fields. eauto.
    + run. destruct (decide (mCompositionType (self st) = COMPOSITION_HWC)).
      * run. intros [= <- <-]. fields. rewrite Hself, Hlog, <- app_assoc. fields. eauto.
      * destruct (decide (mCompositionType (self st) = COMPOSITION_GLES)); [contradiction|].
        run. intros [= <- <-]. fields. rewrite Hself, Hlog, <- app_assoc. fields. eauto.
  - apply dec_stable in Hct. run.
    destruct (decide (mCompositionType (self st) = COMPOSITION_HWC)); [congruence|].
    destruct (decide (mCompositionType (self st) = COMPOSITION_GLES)); [|contradiction].
    run. intros [= <- <-]. fields. eauto.
Qed.

(** C3.  When [advanceFrame] gets past the dequeue and the choice of
    slots with a negative framebuffer slot or a negative output slot,
    it returns [NO_MEMORY]; the state is [DBG_STATE_HWC], and the log
    of the call holds the error message and no call to the hardware
    composer. *)
Theorem advanceFrame_missing_buffer st outFence st1 :
  0 <= mDisplayId (self st) ->
  advanceFrame_route st = Some (inr outFence, st1) ->
  mFbProducerSlot (self st1) < 0 \/ mOutputProducerSlot (self st1) < 0 ->
  exists st',
    advanceFrame st = Some (NO_MEMORY, st')
    /\ mDbgState (self st') = DBG_STATE_HWC
    /\ mFbProducerSlot (self st') = mFbProducerSlot (self st1)
    /\ mOutputProducerSlot (self st') = mOutputProducerSlot (self st1)
    /\ exists evs,
         log st' = log st ++ evs ++ [LogE "advanceFrame: no buffer, bailing out"]
         /\ Forall (fun e => is_hwc_call e = false) evs.
Proof.
  intros Hid Hroute Hmissing.
  destruct (advanceFrame_route_inv _ _ _ Hroute) as (Hdbg & _ & evs & Hlog & Hevs).
  unfold advanceFrame. run. destruct (decide (mDisplayId (self st) < 0)); [lia|].
  run. rewrite Hroute. unfold advanceFrame_submit, VDS_LOGE. run.
  destruct (decide (_ \/ _)); [|contradiction]. run.
  eexists. split; [reflexivity|]. cbn [self log].
  split; [exact Hdbg|]. split; [reflexivity|]. split; [reflexivity|].
  exists evs. rewrite Hlog, <- app_assoc. split; [reflexivity|exact Hevs].
Qed.

(** C6.  In HWC mode a successful [advanceFrame] leaves the framebuffer
    slot equal to the output slot dequeued from the sink and the
    framebuffer fence equal to the fence of that dequeue, and hands the
    same buffer and fence to [fbPost] and to [setOutputBuffer]. *)
Theorem advanceFrame_hwc_shares_buffer st st' result sslot fence w1 :
  0 < NUM_BUFFER_SLOTS <= 32 ->
  0 <= BUFFER_NEEDS_REALLOCATION ->
  well_formed (self st) ->
  0 <= mDisplayId (self st) ->
  mCompositionType (self st) = COMPOSITION_HWC ->
  src_dequeueBuffer SOURCE_SINK (qbo_width (mQueueBufferOutput (self st)))
    (qbo_height (mQueueBufferOutput (self st))) 0 (mProducerUsage (self st)) (world st)
    = ((result, sslot, fence), w1) ->
  (0 <= result -> 0 <= sslot < NUM_BUFFER_SLOTS) ->
  advanceFrame st = Some (NO_ERROR, st') ->
  0 <= result
  /\ mOutputProducerSlot (self st') = mapSource2ProducerSlot SOURCE_SINK sslot
  /\ mFbProducerSlot (self st') = mOutputProducerSlot (self st')
  /\ mFbFence (self st') = fence
  /\ exists buf evs,
       mProducerBuffers (self st') !! Z.to_nat (mFbProducerSlot (self st')) = Some buf
       /\ log st' = log st ++ evs ++
            [HwcFbPost (mDisplayId (self st)) fence buf;
             HwcSetOutputBuffer (mDisplayId (self st)) fence buf]
       /\ Forall (fun e => is_hwc_call e = false) evs.
Proof.
  intros HN Hflag Hwf Hid Hct Hdq Hrange.
  unfold advanceFrame, advanceFrame_route. run.
  destruct (decide (mDisplayId (self st) < 0)); [lia|]. run.
  rewrite Hct. destruct (decide (COMPOSITION_HWC = COMPOSITION_HWC)); [|congruence].
  destruct (decide (COMPOSITION_HWC <> COMPOSITION_GLES)) as [_|Hne];
    [|exfalso; apply Hne; discriminate]. run.
  set (st0 := mkState _ _ _).
  destruct (decide (result < 0)) as [Hneg|Hpos].
  - rewrite (dequeueBuffer_source_failed SOURCE_SINK 0 st0 result sslot fence w1 Hdq Hneg).
    destruct (decide (result < 0)); [|contradiction]. run.
    intros [= -> _]. unfold NO_ERROR in Hneg. lia.
  - assert (Hres : 0 <= result) by lia. specialize (Hrange Hres).
    destruct (dequeueBuffer_source_spec SOURCE_SINK 0 st0 result sslot fence w1
                HN Hwf Hdq Hres Hrange) as (bufs' & old & Hrun & Hlen & _ & _ & _).
    cbn zeta in Hrun. rewrite Hrun. clear Hrun.
    set (result' := dequeue_flags _ _ _ _).
    assert (Hres' : 0 <= result').
    { subst result'. unfold dequeue_flags. case_decide; [lia|]. apply Z.lor_nonneg. lia. }
    destruct (decide (result' < 0)); [lia|]. run.
    unfold advanceFrame_submit. run.
    fields.
    change (mapSource2ProducerSlot SOURCE_SINK sslot) with sslot.
    destruct (decide (sslot < 0 \/ sslot < 0)); [lia|].
    destruct (lookup_lt_is_Some_2 bufs' (Z.to_nat sslot)) as [buf Hbuf];
      [rewrite Hlen; subst st0; fields; unfold well_formed in Hwf; lia|].
    run_buffer_at Hbuf. run_buffer_at Hbuf. fields.
    match goal with |- context [hwc_fbPost ?a ?b ?c ?d] =>
      destruct (hwc_fbPost a b c d) as [r1 w2] end. cbn [fst snd].
    destruct (decide (r1 = NO_ERROR)).
    + run. intros [= Hr <-]. fields. split; [exact Hres|].
      split; [reflexivity|]. split; [reflexivity|]. split; [reflexivity|].
      exists buf. subst st0. fields. eexists. split; [exact Hbuf|].
      split; [apply log_two_more|].
      apply Forall_app. split.
      * case_bool_decide; repeat constructor.
      * constructor; [reflexivity|].
        destruct (bool_decide (Z.land result' BUFFER_NEEDS_REALLOCATION <> 0));
          repeat constructor.
    + run. intros [= Hr _]. contradiction.
Qed.
(** C7.  With a hardware composer (display id >= 0) [onFrameCommitted]
    returns with every per-frame field at its default and the state
    back to [DBG_STATE_IDLE], from any state: after a frame that went
    through as well as after the bailout of [advanceFrame]. *)
Theorem onFrameCommitted_resets st :
  0 <= mDisplayId (self st) -> well_formed (self st) ->
  (mCompositionType (self st) = COMPOSITION_MIXED ->
   mFbProducerSlot (self st) < NUM_BUFFER_SLOTS) ->
  exists st', onFrameCommitted st = Some (tt, st') /\
    mCompositionType (self st') = COMPOSITION_UNKNOWN /\
    mSinkBufferWidth (self st') = 0 /\ mSinkBufferHeight (self st') = 0 /\
    mFbFence (self st') = NO_FENCE /\
    mFbProducerSlot (self st') = -1 /\ mOutputProducerSlot (self st') = -1 /\
    mDbgState (self st') = DBG_STATE_IDLE.
Proof.
  intros Hid Hwf Hfb. unfold onFrameCommitted. run_local.
  destruct (decide (mDisplayId (self st) < 0)); [lia|]. run_local.
  rewrite run_call.
  destruct (hwc_getAndResetReleaseFence _ _) as [fbFence w1]. run_local. fields.
  set (st1 := mkState _ w1 _).
  (* the release of the scratch buffer *)
  match goal with
  | |- context [match ?m st1 with Some _ => _ | None => _ end] =>
      assert (Hrelease : exists st2, m st1 = Some (tt, st2) /\ self st2 = self st1)
  end.
  { destruct (decide (_ /\ _)) as [[Hm Hge]|].
    - pose proof (Hfb Hm).
      destruct (in_range_lookup (self st) (mFbProducerSlot (self st)) Hwf)
        as [b Hb]; [lia|].
      run_local. erewrite run_buffer_at by (fields; first [lia | exact Hb]).
      run_local. rewrite run_call.
      destruct (base_addReleaseFenceLocked _ _ _ _) as [r1 w2]. run_local.
      erewrite run_buffer_at by (fields; first [lia | exact Hb]).
      run_local. rewrite run_call.
      destruct (base_releaseBufferLocked _ _ _) as [r2 w3]. run_local.
      eexists. split; reflexivity.
    - run_local. eexists. split; reflexivity. }
  destruct Hrelease as (st2 & -> & Hself2). run_local. rewrite Hself2.
  subst st1. fields.
  fields in Hself2.
  (* the queueing of the output buffer *)
  match goal with
  | |- context [match ?m st2 with Some _ => _ | None => _ end] =>
      assert (Hqueue : exists st3,
        m st2 = Some (tt, st3) /\ mDbgState (self st3) = DBG_STATE_IDLE)
  end.
  { destruct (decide (mOutputProducerSlot (self st) >= 0)).
    - run_local. rewrite run_call.
      destruct (hwc_getLastRetireFence _ _) as [outFence w4]. run_local.
      rewrite run_call. destruct (systemTime _) as [now w5]. run_local.
      rewrite run_call. destruct (src_queueBuffer _ _ _ _) as [[r q] w6].
      run_local. unfold updateQueueBufferOutput.
      destruct (decide (r = NO_ERROR)); run_local; eexists;
        (split; [reflexivity|]); fields; rewrite Hself2; reflexivity.
    - run_local. eexists. split; [reflexivity|]. rewrite Hself2. reflexivity. }
  destruct Hqueue as (st3 & -> & Hdbg).
  unfold resetPerFrameState. run_local.
  eexists. split; [reflexivity|]. fields. auto 10.
Qed.

(** C9.  Without a hardware composer (display id < 0) [prepareFrame]
    and [advanceFrame] return [NO_ERROR] and [onFrameCommitted] returns,
    all three leaving the object, the collaborators and the log as
    they were, and [getIGraphicBufferProducer] is the sink. *)
Theorem passthrough_is_noop st ct : mDisplayId (self st) < 0 ->
  prepareFrame ct st = Some (NO_ERROR, st) /\ advanceFrame st = Some (NO_ERROR, st)
  /\ onFrameCommitted st = Some (tt, st) /\ getIGraphicBufferProducer (self st) = SourceRef SOURCE_SINK.
Proof.
  intros Hid. unfold prepareFrame, advanceFrame, onFrameCommitted, getIGraphicBufferProducer.
  run. repeat case_decide; try lia. auto.
Qed.

(** C10.  For every slot of the table the producer-facing
    [requestBuffer] returns [NO_ERROR] with the cached record of the
    slot, null or not, in whatever state it is called; it changes
    neither the object nor the collaborators and calls no source. *)
Theorem requestBuffer_from_cache st pslot : well_formed (self st) -> 0 <= pslot < NUM_BUFFER_SLOTS ->
  exists b st', requestBuffer pslot st = Some ((NO_ERROR, b), st')
   /\ mProducerBuffers (self st) !! Z.to_nat pslot = Some b
   /\ self st' = self st /\ world st' = world st /\
   exists evs, log st' = log st ++ evs /\ Forall (fun e => is_source_call e = false) evs.
Proof.
  intros Hwf Hp. destruct (in_range_lookup _ _ Hwf Hp) as [b Hb].
  exists b. unfold requestBuffer. run.
  run_buffer_at Hb.
  eexists. split; [reflexivity|]. fields. split; [exact Hb|].
  split; [reflexivity|]. split; [reflexivity|].
  eexists. split; [reflexivity|]. case_bool_decide; repeat constructor.
Qed.

End FrameProtocol.

(** ** The producer interface *)

Section ProducerInterface.
Context {hdr : Header} {World : Type} {env : Collaborators World}.
Implicit Types st : State World.

(** C5.  The source of the renderer's framebuffer is the scratch pool
    exactly in MIXED mode and the sink in every other mode;
    [dequeueBuffer] and [cancelBuffer] address the source that
    [fbSourceForCompositionType] gives for the current mode, and no
    other. *)
Theorem framebuffer_source_by_mode st w h format usage pslot cancelFence
    result sslot fence w1 :
  let source := fbSourceForCompositionType (mCompositionType (self st)) in
  0 < NUM_BUFFER_SLOTS <= 32 ->
  well_formed (self st) ->
  src_dequeueBuffer source
    (if decide (source = SOURCE_SINK) then w else mSinkBufferWidth (self st))
    (if decide (source = SOURCE_SINK) then h else mSinkBufferHeight (self st))
    format (Z.lor usage GRALLOC_USAGE_HW_COMPOSER) (world st)
    = ((result, sslot, fence), w1) ->
  (0 <= result -> 0 <= sslot < NUM_BUFFER_SLOTS) ->
  (forall type, fbSourceForCompositionType type = SOURCE_SCRATCH <-> type = COMPOSITION_MIXED)
  /\ (forall type, fbSourceForCompositionType type = SOURCE_SINK <-> type <> COMPOSITION_MIXED)
  /\ (exists r st' evs,
        dequeueBuffer w h format usage st = Some (r, st')
        /\ log st' = log st ++ evs
        /\ In (SrcDequeueBuffer source
                 (if decide (source = SOURCE_SINK) then w else mSinkBufferWidth (self st))
                 (if decide (source = SOURCE_SINK) then h else mSinkBufferHeight (self st))
                 format (Z.lor usage GRALLOC_USAGE_HW_COMPOSER)) evs
        /\ Forall (fun e => forall s, event_source e = Some s -> s = source) evs)
  /\ (exists st' evs,
        cancelBuffer pslot cancelFence st = Some (tt, st')
        /\ log st' = log st ++ evs ++
             [SrcCancelBuffer source (mapProducer2SourceSlot source pslot) cancelFence]
        /\ Forall (fun e => event_source e = None) evs).
Proof.
  intros source HN Hwf Hdq Hrange.
  split; [intros type; rewrite fbSource_cases; destruct type; split; congruence|].
  split; [intros type; rewrite fbSource_cases; destruct type; split; congruence|].
  split.
  - unfold dequeueBuffer. run. fields. fold source.
    set (st0 := mkState _ (world st) _).
    assert (Hpre : exists st1,
      (if decide (source = SOURCE_SINK)
       then update (set_mSinkBufferWidth w);; update (set_mSinkBufferHeight h)
       else mret tt) st0 = Some (tt, st1)
      /\ world st1 = world st /\ log st1 = log st0
      /\ mProducerBuffers (self st1) = mProducerBuffers (self st)
      /\ mProducerUsage (self st1) = Z.lor usage GRALLOC_USAGE_HW_COMPOSER
      /\ mSinkBufferWidth (self st1) =
           (if decide (source = SOURCE_SINK) then w else mSinkBufferWidth (self st))
      /\ mSinkBufferHeight (self st1) =
           (if decide (source = SOURCE_SINK) then h else mSinkBufferHeight (self st))).
    { destruct (decide (source = SOURCE_SINK)); run; eexists; (split; [reflexivity|]);
        subst st0; fields; auto 10. }
    destruct Hpre as (st1 & -> & Hw & Hl & Hb & Hu & Hwd & Hht). run.
    rewrite <- Hw, <- Hu, <- Hwd, <- Hht in Hdq.
    assert (Hl0 : exists evs0, log st0 = log st ++ evs0
                               /\ Forall (fun e => event_source e = None) evs0).
    { subst st0. fields. eexists. split; [reflexivity|].
      case_bool_decide; repeat constructor. }
    destruct Hl0 as (evs0 & Hl0 & Hevs0). rewrite Hl0 in Hl. clear Hl0. clearbody st0.
    destruct (decide (result < 0)) as [Hneg|Hpos].
    + rewrite (dequeueBuffer_source_failed source format st1 result sslot fence w1 Hdq Hneg).
      destruct (decide (result >= 0)); [lia|]. run.
      eexists _, _, _. split; [reflexivity|]. fields. rewrite Hl, <- app_assoc.
      split; [reflexivity|]. rewrite Hwd, Hht, Hu.
      split; [apply in_or_app; right; left; reflexivity|].
      apply Forall_app. split.
      * eapply Forall_impl; [exact Hevs0|]. intros e He s Hs. congruence.
      * repeat constructor. intros s [= <-]. reflexivity.
    + assert (Hres : 0 <= result) by lia. specialize (Hrange Hres).
      assert (Hp : 0 <= mapSource2ProducerSlot source sslot < NUM_BUFFER_SLOTS).
      { apply mapSource2ProducerSlot_range; [|exact Hrange].
        assert (2 ^ 5 < 2 ^ 31) by (apply Z.pow_lt_mono_r; lia).
        change (2 ^ 5) with 32 in *. lia. }
      assert (Hwf1 : well_formed (self st1)).
      { unfold well_formed in *. rewrite Hb. exact Hwf. }
      destruct (dequeueBuffer_source_spec source format st1 result sslot fence w1
                  HN Hwf1 Hdq Hres Hp) as (bufs' & old & Hrun & _).
      cbn zeta in Hrun. rewrite Hrun. clear Hrun.
      set (result' := dequeue_flags _ _ _ _).
      assert (Hok : exists r st',
        (if decide (result' >= 0)
         then mret (result', Some (mapSource2ProducerSlot source sslot), fence)
         else mret (result', None, fence) : M World _)
          (mkState
             (set_mProducerBuffers bufs'
                (set_mProducerSlotSource
                   (dequeue_mask (mProducerSlotSource (self st1)) source
                      (mapSource2ProducerSlot source sslot)) (self st1)))
             (if bool_decide (Z.land result' BUFFER_NEEDS_REALLOCATION <> 0)
              then (src_requestBuffer source sslot old w1).2 else w1)
             (log st1 ++
              SrcDequeueBuffer source (mSinkBufferWidth (self st1))
                (mSinkBufferHeight (self st1)) format (mProducerUsage (self st1))
              :: (if bool_decide (Z.land result' BUFFER_NEEDS_REALLOCATION <> 0)
                  then [SrcRequestBuffer source sslot] else [])))
        = Some (r, st')
        /\ log st' = log st1 ++
              SrcDequeueBuffer source (mSinkBufferWidth (self st1))
                (mSinkBufferHeight (self st1)) format (mProducerUsage (self st1))
              :: (if bool_decide (Z.land result' BUFFER_NEEDS_REALLOCATION <> 0)
                  then [SrcRequestBuffer source sslot] else [])).
      { destruct (decide (result' >= 0)); run; eexists _, _; split; reflexivity. }
      destruct Hok as (r & st' & -> & Hl').
      exists r, st'. eexists. split; [reflexivity|].
      rewrite Hl', Hl, <- app_assoc. split; [reflexivity|].
      rewrite Hwd, Hht, Hu.
      split; [apply in_or_app; right; left; reflexivity|].
      apply Forall_app. split.
      * eapply Forall_impl; [exact Hevs0|]. intros e He s Hs. congruence.
      * constructor; [intros s [= <-]; reflexivity|].
        destruct (bool_decide (Z.land result' BUFFER_NEEDS_REALLOCATION <> 0));
          repeat constructor. intros s [= <-]. reflexivity.
  - unfold cancelBuffer. run. fields. fold source.
    destruct (src_cancelBuffer _ _ _ _) as [[] w2]. fields. rewrite <- app_assoc.
    eexists _, _. split; [reflexivity|].
    fields. split; [reflexivity|]. case_bool_decide; repeat constructor.
Qed.

(** C8.  In MIXED mode, when the scratch pool hands back another slot
    than the one just queued, [queueBuffer] still returns [NO_ERROR]:
    it logs the warning and takes the acquired slot, mapped to a
    unified slot, as the framebuffer slot, and the fence recorded for
    it as the framebuffer fence. *)
Theorem queueBuffer_mixed_trusts_acquired st pslot input qbo w1 item w2 :
  mCompositionType (self st) = COMPOSITION_MIXED ->
  src_queueBuffer SOURCE_SCRATCH (mapProducer2SourceSlot SOURCE_SCRATCH pslot) input (world st)
    = ((NO_ERROR, qbo), w1) ->
  base_acquireBufferLocked w1 = ((NO_ERROR, item), w2) ->
  mBuf item <> mapProducer2SourceSlot SOURCE_SCRATCH pslot ->
  0 <= mBuf item < NUM_BUFFER_SLOTS ->
  slot_mFence w2 (mBuf item) = mFence item ->
  exists st' evs,
    queueBuffer pslot input st = Some ((NO_ERROR, Some (mQueueBufferOutput (self st))), st')
    /\ mFbProducerSlot (self st') = mapSource2ProducerSlot SOURCE_SCRATCH (mBuf item)
    /\ mFbFence (self st') = mFence item
    /\ mDbgState (self st') = DBG_STATE_GLES_DONE
    /\ log st' = log st ++ evs ++
         [LogW "queueBuffer: acquired sslot %d from SCRATCH after queueing sslot %d"].
Proof.
  intros Hct Hq Hacq Hne Hrange Hfence.
  unfold queueBuffer, mSlots_mFence, peek. run. fields. rewrite Hct.
  destruct (decide (COMPOSITION_MIXED = COMPOSITION_MIXED)); [|congruence]. run.
  rewrite Hq. fields. destruct (decide (NO_ERROR <> NO_ERROR)); [congruence|]. run.
  rewrite Hacq. fields. destruct (decide (NO_ERROR <> NO_ERROR)); [congruence|]. run.
  destruct (decide (0 <= mBuf item < NUM_BUFFER_SLOTS)); [|contradiction]. run.
  rewrite (bool_decide_eq_true_2 (mBuf item <> _)) by exact Hne.
  eexists _, _. split; [reflexivity|]. fields.
  split; [reflexivity|]. split; [exact Hfence|]. split; [reflexivity|].
  apply log_one_more.
Qed.
End ProducerInterface.

(** ** The runs on the Android platform *)

Section AndroidRuns.
#[local] Existing Instance android.

(** C2.  [RELEASE_ALL_BUFFERS] from the scratch pool does not clear
    every record of a slot the scratch pool owns.  After two MIXED
    frames the pool owns the unified slots 31 and 30, with the handles
    100 and 102 cached.  The third dequeue from the pool returns its
    slot 0 (unified slot 31) with [RELEASE_ALL_BUFFERS]: the record of
    slot 31 is cleared and requested anew, while slot 30, still owned
    by the pool, keeps the handle 102. *)
Theorem release_all_misses_scratch_slot :
  exists st2 st3,
    (mixed_frame;; mixed_frame) power_on = Some (NO_ERROR, st2)
    /\ owner (mProducerSlotSource (self st2)) 30 = SOURCE_SCRATCH
    /\ owner (mProducerSlotSource (self st2)) 31 = SOURCE_SCRATCH
    /\ mProducerBuffers (self st2) !! 30%nat = Some (Some 102)
    /\ mProducerBuffers (self st2) !! 31%nat = Some (Some 100)
    /\ third_dequeue power_on = Some ((3, Some 31, Some (FenceFd 12)), st3)
    /\ Z.land 3 RELEASE_ALL_BUFFERS <> 0
    /\ owner (mProducerSlotSource (self st3)) 30 = SOURCE_SCRATCH
    /\ mProducerBuffers (self st3) !! 30%nat = Some (Some 102)
    /\ mProducerBuffers (self st3) !! 31%nat = Some (Some 103).
Proof.
  eexists _, _.
  split; [vm_compute; reflexivity|].
  split; [reflexivity|]. split; [reflexivity|].
  split; [reflexivity|]. split; [reflexivity|].
  split; [vm_compute; reflexivity|].
  split; [vm_compute; discriminate|].
  split; [reflexivity|]. split; reflexivity.
Qed.

(** *** The statements above at concrete inputs *)

Ltac evaluate := vm_compute; repeat split; first [reflexivity | discriminate].

Lemma mapSource2ProducerSlot_involution_witness :
  mapSource2ProducerSlot SOURCE_SCRATCH (mapSource2ProducerSlot SOURCE_SCRATCH 1) = 1
  /\ mapSource2ProducerSlot SOURCE_SCRATCH 1 = NUM_BUFFER_SLOTS - 1 - 1.
Proof.
  destruct (mapSource2ProducerSlot_involution SOURCE_SCRATCH 1) as (H1 & H2 & _);
    [reflexivity | evaluate |].
  split; [exact H1 | exact H2].
Defined.

Lemma dequeueBuffer_source_reallocates_witness :
  exists st',
    dequeueBuffer_source SOURCE_SCRATCH 1 (prepared COMPOSITION_MIXED) =
      Some ((1, 0, Some (FenceFd 10)), st')
    /\ owner (mProducerSlotSource (self st')) 31 = SOURCE_SCRATCH
    /\ filter (fun e => is_requestBuffer_call e = true)
         (new_events (prepared COMPOSITION_MIXED) st') =
       [SrcRequestBuffer SOURCE_SCRATCH 0].
Proof.
  destruct (dequeueBuffer_source_reallocates SOURCE_SCRATCH 1
              (prepared COMPOSITION_MIXED) 0 0 (Some (FenceFd 10))
              (script_dequeue SOURCE_SCRATCH three_frames).2)
    as (st' & old & Hrun & _ & Hown & _ & _ & Hreq & _);
    [evaluate | evaluate | reflexivity | reflexivity | evaluate
    | evaluate | evaluate |].
  exists st'. split; [exact Hrun|]. split; [exact Hown | exact Hreq].
Defined.


Lemma advanceFrame_missing_buffer_witness :
  mFbProducerSlot (self (prepared COMPOSITION_GLES)) = -1
  /\ exists st',
       advanceFrame (prepared COMPOSITION_GLES) = Some (NO_MEMORY, st')
       /\ mDbgState (self st') = DBG_STATE_HWC.
Proof.
  split; [reflexivity|].
  destruct (advanceFrame_missing_buffer (prepared COMPOSITION_GLES) NO_FENCE
              (final_state advanceFrame_route (prepared COMPOSITION_GLES)))
    as (st' & Hrun & Hdbg & _);
    [evaluate | evaluate
    | left; evaluate |].
  exists st'. split; [exact Hrun | exact Hdbg].
Defined.

Lemma framebuffer_source_by_mode_witness :
  fbSourceForCompositionType COMPOSITION_MIXED = SOURCE_SCRATCH
  /\ exists r st' evs,
       dequeueBuffer 1280 720 1 0 (prepared COMPOSITION_MIXED) = Some (r, st')
       /\ log st' = log (prepared COMPOSITION_MIXED) ++ evs
       /\ In (SrcDequeueBuffer SOURCE_SCRATCH 0 0 1 2048) evs.
Proof.
  destruct (framebuffer_source_by_mode (prepared COMPOSITION_MIXED)
              1280 720 1 0 31 None 0 0 (Some (FenceFd 10))
              (script_dequeue SOURCE_SCRATCH three_frames).2)
    as (Hmixed & _ & (r & st' & evs & Hrun & Hlog & Hin & _) & _);
    [evaluate | reflexivity | reflexivity | intros _; evaluate |].
  split; [apply Hmixed; reflexivity|].
  exists r, st', evs. split; [exact Hrun|]. split; [exact Hlog | exact Hin].
Defined.

Lemma advanceFrame_hwc_shares_buffer_witness :
  exists st',
    advanceFrame (prepared COMPOSITION_HWC) = Some (NO_ERROR, st')
    /\ mFbProducerSlot (self st') = mOutputProducerSlot (self st')
    /\ mFbFence (self st') = Some (FenceFd 20).
Proof.
  exists (final_state advanceFrame (prepared COMPOSITION_HWC)).
  assert (Hrun : advanceFrame (prepared COMPOSITION_HWC) =
                 Some (NO_ERROR, final_state advanceFrame (prepared COMPOSITION_HWC)))
    by (evaluate).
  destruct (advanceFrame_hwc_shares_buffer (prepared COMPOSITION_HWC)
              (final_state advanceFrame (prepared COMPOSITION_HWC))
              1 0 (Some (FenceFd 20))
              (script_dequeue SOURCE_SINK three_frames).2)
    as (_ & _ & Hfb & Hfence & _);
    [evaluate | evaluate | reflexivity | evaluate | reflexivity
    | reflexivity | intros _; evaluate | exact Hrun |].
  split; [exact Hrun|]. split; [exact Hfb | exact Hfence].
Defined.

Lemma onFrameCommitted_resets_witness :
  exists st',
    onFrameCommitted (final_state advanceFrame (prepared COMPOSITION_GLES)) =
      Some (tt, st')
    /\ mCompositionType (self st') = COMPOSITION_UNKNOWN
    /\ mFbProducerSlot (self st') = -1
    /\ mOutputProducerSlot (self st') = -1
    /\ mDbgState (self st') = DBG_STATE_IDLE.
Proof.
  destruct (onFrameCommitted_resets
              (final_state advanceFrame (prepared COMPOSITION_GLES)))
    as (st' & Hrun & Hct & _ & _ & _ & Hfb & Hout & Hdbg);
    [evaluate | reflexivity | intros _; evaluate |].
  exists st'. auto.
Defined.

Lemma queueBuffer_mixed_trusts_acquired_witness :
  exists st',
    queueBuffer 31 rendered rendering_mixed =
      Some ((NO_ERROR, Some (mQueueBufferOutput (self rendering_mixed))), st')
    /\ mFbProducerSlot (self st') = mapSource2ProducerSlot SOURCE_SCRATCH 1
    /\ mFbFence (self st') = Some (FenceFd 9).
Proof.
  destruct (queueBuffer_mixed_trusts_acquired rendering_mixed 31 rendered
              (mkQueueBufferOutput 1280 720 0 1)
              (script_queue SOURCE_SCRATCH 0 rendered stale_pool).2
              (mkBufferItem 1 (Some (FenceFd 9)))
              (script_acquire (script_queue SOURCE_SCRATCH 0 rendered stale_pool).2).2)
    as (st' & evs & Hrun & Hfb & Hfence & _);
    [reflexivity | reflexivity | reflexivity | evaluate
    | evaluate | reflexivity |].
  exists st'. split; [exact Hrun|]. split; [exact Hfb | exact Hfence].
Defined.

Lemma passthrough_is_noop_witness :
  prepareFrame COMPOSITION_MIXED passthrough = Some (NO_ERROR, passthrough)
  /\ advanceFrame passthrough = Some (NO_ERROR, passthrough)
  /\ onFrameCommitted passthrough = Some (tt, passthrough)
  /\ getIGraphicBufferProducer (self passthrough) = SourceRef SOURCE_SINK.
Proof.
  apply (passthrough_is_noop passthrough COMPOSITION_MIXED).
  evaluate.
Defined.

Lemma requestBuffer_from_cache_witness :
  exists st', requestBuffer 5 power_on = Some ((NO_ERROR, None), st').
Proof.
  destruct (requestBuffer_from_cache power_on 5)
    as (b & st' & Hrun & Hb & _); [reflexivity | evaluate |].
  exists st'. rewrite Hrun. injection Hb as <-. reflexivity.
Defined.

End AndroidRuns.

(** * More of the surface *)

(** ** Reasoning by what a computation may do *)

Section Stays.
Context {World : Type}.
Context (RO : VirtualDisplaySurface -> VirtualDisplaySurface -> Prop)
  {order : ObjectOrder RO} (Q : Event -> Prop).

Lemma stays_same {A} (m : M World A) :
  (forall s a s', m s = Some (a, s') -> s' = s) -> stays RO Q m.
Proof.
  intros Hm s a s' Hrun. apply Hm in Hrun as ->.
  split; [apply object_refl|]. exists []. rewrite app_nil_r. auto.
Qed.

Lemma stays_ret {A} (a : A) : stays RO Q (mret a : M World A).
Proof. apply stays_same. intros s b s' [= _ <-]. reflexivity. Qed.

Lemma stays_undefined {A} : stays RO Q (undefined : M World A).
Proof. intros s a s' [=]. Qed.

Lemma stays_read {A} (f : VirtualDisplaySurface -> A) : stays RO Q (read f : M World A).
Proof. apply stays_same. intros s b s' [= _ <-]. reflexivity. Qed.

Lemma stays_peek {A} (f : World -> A) : stays RO Q (peek f).
Proof. apply stays_same. intros s b s' [= _ <-]. reflexivity. Qed.

Lemma stays_lift_option {A} (o : option A) : stays RO Q (lift_option o : M World A).
Proof. destruct o; [apply stays_ret | apply stays_undefined]. Qed.

Lemma stays_bind {A B} (m : M World A) (f : A -> M World B) :
  stays RO Q m -> (forall a, stays RO Q (f a)) -> stays RO Q (m ≫= f).
Proof.
  intros Hm Hf s b s'. rewrite run_bind.
  destruct (m s) as [[a s1]|] eqn:Hrun; [|discriminate]. intros Hrun'.
  apply Hm in Hrun as (Ho1 & evs1 & Hl1 & Hq1).
  apply Hf in Hrun' as (Ho2 & evs2 & Hl2 & Hq2).
  split; [eapply object_trans; eassumption|].
  exists (evs1 ++ evs2). rewrite Hl2, Hl1, app_assoc.
  split; [reflexivity|]. apply Forall_app. auto.
Qed.

Lemma stays_update g : (forall v, RO v (g v)) -> stays RO Q (update g : M World unit).
Proof.
  intros Hg s a s' [= _ <-]. split; [apply Hg|].
  exists []. cbn [log]. rewrite app_nil_r. auto.
Qed.

Lemma stays_emit e : Q e -> stays RO Q (emit e : M World unit).
Proof.
  intros He s a s' [= _ <-]. split; [apply object_refl|].
  exists [e]. cbn [log]. auto.
Qed.

Lemma stays_call {A} e (f : World -> A * World) : Q e -> stays RO Q (call e f).
Proof.
  intros He s a s'. rewrite run_call. intros [= _ <-]. split; [apply object_refl|].
  exists [e]. cbn [log]. auto.
Qed.

Lemma stays_unlogged {A} (f : World -> A * World) : stays RO Q (unlogged f).
Proof.
  intros s a s'. unfold unlogged. destruct (f (world s)) as [a' w].
  intros [= _ <-]. split; [apply object_refl|].
  exists []. cbn [log]. rewrite app_nil_r. auto.
Qed.

Lemma stays_LOGW_IF c msg : Q (LogW msg) -> stays RO Q (VDS_LOGW_IF c msg : M World unit).
Proof. intros He. destruct c; [apply stays_emit, He | apply stays_ret]. Qed.

Lemma stays_LOGE msg : Q (LogE msg) -> stays RO Q (VDS_LOGE msg : M World unit).
Proof. apply stays_emit. Qed.

Lemma stays_buffer_at i : stays RO Q (buffer_at i : M World _).
Proof.
  apply stays_same. intros s b s' Hrun. eapply buffer_at_inv, Hrun.
Qed.

End Stays.

(** [stays_step] takes a computation apart along its structure; the
    updates of fields and the events are left to the caller. *)
Ltac stays_step :=
  lazymatch goal with
  | |- stays _ _ (_ ≫= _) => apply stays_bind; [exact _ .. | idtac | intros ?]
  | |- stays _ _ (mret _) => apply stays_ret
  | |- stays _ _ (read _) => apply stays_read
  | |- stays _ _ (peek _) => apply stays_peek
  | |- stays _ _ undefined => apply stays_undefined
  | |- stays _ _ (lift_option _) => apply stays_lift_option
  | |- stays _ _ (buffer_at _) => apply stays_buffer_at
  | |- stays _ _ (VDS_LOGW_IF _ _) => apply stays_LOGW_IF
  | |- stays _ _ (VDS_LOGE _) => apply stays_LOGE
  | |- stays _ _ (call _ _) => apply stays_call
  | |- stays _ _ (unlogged _) => apply stays_unlogged
  | |- stays _ _ (emit _) => apply stays_emit
  | |- stays _ _ (update _) => apply stays_update
  | |- stays _ _ (if ?c then _ else _) => destruct c
  | |- stays _ _ (match ?x with _ => _ end) => destruct x
  end;
  try exact _.

Section StaysFacts.
Context {World : Type}.

Lemma stays_weaken {A} (RO RO' : VirtualDisplaySurface -> VirtualDisplaySurface -> Prop)
    (Q Q' : Event -> Prop) (m : M World A) :
  (forall v v', RO v v' -> RO' v v') -> (forall e, Q e -> Q' e) ->
  stays RO Q m -> stays RO' Q' m.
Proof.
  intros HO HQ Hm s a s' Hrun. apply Hm in Hrun as (Ho & evs & Hl & Hq).
  split; [apply HO, Ho|]. exists evs. split; [exact Hl|].
  eapply Forall_impl; [exact Hq | exact HQ].
Qed.

#[global] Instance same_table_order : ObjectOrder same_table.
Proof.
  split.
  - intros v. split; reflexivity.
  - intros v1 v2 v3 [? ?] [? ?]. split; congruence.
Qed.

#[global] Instance same_frame_order : ObjectOrder same_frame.
Proof.
  split.
  - intros v. repeat split.
  - intros v1 v2 v3 (? & ? & ? & ?) (? & ? & ? & ?). repeat split; congruence.
Qed.

#[global] Instance same_size_order : ObjectOrder same_size.
Proof.
  split.
  - intros v. reflexivity.
  - unfold same_size. intros v1 v2 v3 ? ?. congruence.
Qed.

#[global] Instance any_object_order : ObjectOrder any_object.
Proof. split; intros; exact I. Qed.

#[global] Instance same_object_order : ObjectOrder same_object.
Proof.
  split.
  - intros v. reflexivity.
  - unfold same_object. intros v1 v2 v3 ? ?. congruence.
Qed.

#[global] Instance same_dbg_order : ObjectOrder same_dbg.
Proof.
  split.
  - intros v. reflexivity.
  - unfold same_dbg. intros v1 v2 v3 ? ?. congruence.
Qed.

#[global] Instance same_type_order : ObjectOrder same_type.
Proof.
  split.
  - intros v. split; reflexivity.
  - intros v1 v2 v3 [? ?] [? ?]. split; congruence.
Qed.

#[global] Instance same_phase_order : ObjectOrder same_phase.
Proof.
  split.
  - intros v. repeat split.
  - intros v1 v2 v3 (? & ? & ? & ? & ? & ? & ?) (? & ? & ? & ? & ? & ? & ?).
    repeat split; congruence.
Qed.

#[global] Instance table_update_order : ObjectOrder table_update.
Proof.
  split.
  - intros v. exists (mProducerSlotSource v), (mProducerBuffers v).
    rewrite set_mProducerSlotSource_eta, set_mProducerBuffers_eta.
    split; reflexivity.
  - intros v1 v2 v3 (m1 & b1 & -> & Hl1) (m2 & b2 & -> & Hl2).
    exists m2, b2. split; [reflexivity|]. rewrite Hl2. exact Hl1.
Qed.

Lemma table_update_mask x v : table_update v (set_mProducerSlotSource x v).
Proof.
  exists x, (mProducerBuffers v). split; [destruct v; reflexivity | reflexivity].
Qed.

Lemma table_update_size v v' : table_update v v' -> same_size v v'.
Proof. intros (m & b & -> & Hl). exact Hl. Qed.

Lemma table_update_frame v v' : table_update v v' -> same_frame v v'.
Proof. intros (m & b & -> & Hl). repeat split. Qed.

Lemma stays_set_buffer_at Q i b :
  stays table_update Q (set_buffer_at i b : M World unit).
Proof.
  intros s [] s'. unfold set_buffer_at. run. case_decide; [|discriminate]. run.
  intros [= <-]. cbn [self log]. split.
  - exists (mProducerSlotSource (self s)). eexists.
    rewrite set_mProducerSlotSource_eta.
    split; [reflexivity | apply length_insert].
  - exists []. rewrite app_nil_r. auto.
Qed.

End StaysFacts.

Section StaysDequeue.
Context {hdr : Header} {World : Type} {env : Collaborators World}.

Lemma stays_release_all_loop Q sourceBit todo : forall i,
  stays table_update Q (release_all_loop sourceBit todo i : M World unit).
Proof.
  induction todo as [|todo IH]; intros i; cbn [release_all_loop].
  - stays_step.
  - repeat stays_step; first [apply stays_set_buffer_at | apply IH].
Qed.

(** Whenever the source-level [dequeueBuffer] returns, it has changed
    nothing of the object but the mask and the records, and has called
    nothing but its source. *)
Lemma stays_dequeueBuffer_source source format :
  stays table_update (dequeue_or_request source)
    (dequeueBuffer_source source format : M World _).
Proof.
  unfold dequeueBuffer_source.
  repeat (stays_step; try first [exact (table_update_mask _) | reflexivity]).
  all: first [apply stays_release_all_loop | apply stays_set_buffer_at].
Qed.

End StaysDequeue.

(** ** What each member function leaves alone *)

Section Discipline.
Context {hdr : Header} {World : Type} {env : Collaborators World}.
Implicit Types st : State World.

Ltac table_side := first [exact I | reflexivity | intros ?; split; reflexivity].

Lemma stays_table_prepareFrame ct :
  stays same_table any_event (prepareFrame ct : M World _).
Proof. unfold prepareFrame. repeat (stays_step; try table_side). Qed.

Lemma stays_table_onFrameCommitted :
  stays same_table any_event (onFrameCommitted : M World _).
Proof.
  unfold onFrameCommitted, resetPerFrameState, updateQueueBufferOutput.
  repeat (stays_step; try table_side).
Qed.

Lemma stays_table_requestBuffer pslot :
  stays same_table any_event (requestBuffer pslot : M World _).
Proof. unfold requestBuffer. repeat (stays_step; try table_side). Qed.

Lemma stays_table_queueBuffer pslot input :
  stays same_table any_event (queueBuffer pslot input : M World _).
Proof.
  unfold queueBuffer, mSlots_mFence. repeat (stays_step; try table_side).
Qed.

Lemma stays_table_cancelBuffer pslot fence :
  stays same_table any_event (cancelBuffer pslot fence : M World _).
Proof. unfold cancelBuffer. repeat (stays_step; try table_side). Qed.

(** X2.  [prepareFrame], [requestBuffer], [queueBuffer], [cancelBuffer]
    and [onFrameCommitted] leave the ownership mask and the table of
    buffer records as they found them, whenever they return: only a
    dequeue, the renderer's or that of [advanceFrame], changes them. *)
Theorem table_changes_only_on_dequeue st st' :
  (exists ct r, prepareFrame ct st = Some (r, st'))
  \/ (exists pslot r, requestBuffer pslot st = Some (r, st'))
  \/ (exists pslot input r, queueBuffer pslot input st = Some (r, st'))
  \/ (exists pslot fence r, cancelBuffer pslot fence st = Some (r, st'))
  \/ (exists r, onFrameCommitted st = Some (r, st')) ->
  mProducerSlotSource (self st') = mProducerSlotSource (self st)
  /\ mProducerBuffers (self st') = mProducerBuffers (self st).
Proof.
  intros [(ct & r & Hrun) | [(p & r & Hrun) | [(p & i & r & Hrun)
         | [(p & f & r & Hrun) | (r & Hrun)]]]].
  - apply (stays_table_prepareFrame ct) in Hrun as [Ht _]. exact Ht.
  - apply (stays_table_requestBuffer p) in Hrun as [Ht _]. exact Ht.
  - apply (stays_table_queueBuffer p i) in Hrun as [Ht _]. exact Ht.
  - apply (stays_table_cancelBuffer p f) in Hrun as [Ht _]. exact Ht.
  - apply stays_table_onFrameCommitted in Hrun as [Ht _]. exact Ht.
Qed.

Ltac size_side :=
  first [exact I | reflexivity | intros ?; reflexivity
        | eapply stays_weaken;
          [exact table_update_size | | apply stays_dequeueBuffer_source];
          intros []; cbn; first [tauto | congruence]
        | eapply stays_weaken; [exact table_update_size | intros ? ?; exact I | ];
          first [apply stays_set_buffer_at | apply stays_release_all_loop]].

Lemma same_table_size v v' : same_table v v' -> same_size v v'.
Proof. intros [_ Hb]. unfold same_size. rewrite Hb. reflexivity. Qed.

Lemma stays_size_advanceFrame :
  stays same_size advance_event (advanceFrame : M World _).
Proof.
  unfold advanceFrame, advanceFrame_route, advanceFrame_submit.
  repeat (stays_step; try size_side).
Qed.

Lemma stays_size_dequeueBuffer w h format usage :
  stays same_size dequeue_event (dequeueBuffer w h format usage : M World _).
Proof. unfold dequeueBuffer. repeat (stays_step; try size_side). Qed.

(** X5.  Whenever [advanceFrame] returns, all it has done to the
    outside is to log, to dequeue or request a buffer from the sink,
    and to call [fbPost] and [setOutputBuffer] of the hardware
    composer: it has not called the scratch pool, queued or cancelled a
    buffer, or asked the hardware composer for a fence. *)
Theorem advanceFrame_alphabet st r st' :
  advanceFrame st = Some (r, st') -> logs_only advance_event st st'.
Proof. intros Hrun. eapply stays_size_advanceFrame, Hrun. Qed.

Ltac event_side := first [exact I | reflexivity | intros ?; exact I].

Lemma stays_events_onFrameCommitted :
  stays any_object commit_event (onFrameCommitted : M World _).
Proof.
  unfold onFrameCommitted, resetPerFrameState, updateQueueBufferOutput.
  repeat (stays_step; try event_side).
Qed.

(** X6.  Whenever [onFrameCommitted] returns, all it has done to the
    outside is to log a warning, to ask the hardware composer for its
    release and retire fences, to release a buffer through the base
    class, to read the clock and to queue a buffer to the sink: it has
    dequeued nothing and has posted nothing. *)
Theorem onFrameCommitted_alphabet st r st' :
  onFrameCommitted st = Some (r, st') -> logs_only commit_event st st'.
Proof. intros Hrun. eapply stays_events_onFrameCommitted, Hrun. Qed.

Lemma stays_events_queueBuffer pslot input :
  stays any_object queue_event (queueBuffer pslot input : M World _).
Proof.
  unfold queueBuffer, mSlots_mFence. repeat (stays_step; try event_side).
Qed.

(** X7.  Whenever the producer-facing [queueBuffer] returns, all it has
    done to the outside is to log a warning, to queue a buffer to the
    scratch pool and to acquire one from it: it has called neither the
    sink nor the hardware composer. *)
Theorem queueBuffer_alphabet st pslot input r st' :
  queueBuffer pslot input st = Some (r, st') -> logs_only queue_event st st'.
Proof. intros Hrun. eapply stays_events_queueBuffer, Hrun. Qed.

End Discipline.

(** ** [advanceFrame], mode by mode *)

Section AdvanceFrame.
Context {hdr : Header} {World : Type} {env : Collaborators World}.
Implicit Types st : State World.

(** X8.  When the dequeue of an output buffer from the sink fails,
    [advanceFrame] returns the sink's error at once: the state is
    [DBG_STATE_HWC], the two slots, the framebuffer fence and the
    table are as they were, and after its warning the only call is the
    failed [dequeueBuffer], so that the hardware composer has not been
    called. *)
Theorem advanceFrame_dequeue_failure st result sslot fence w1 :
  0 <= mDisplayId (self st) ->
  mCompositionType (self st) <> COMPOSITION_GLES ->
  src_dequeueBuffer SOURCE_SINK (qbo_width (mQueueBufferOutput (self st)))
    (qbo_height (mQueueBufferOutput (self st))) 0 (mProducerUsage (self st)) (world st)
    = ((result, sslot, fence), w1) ->
  result < 0 ->
  exists st' evs,
    advanceFrame st = Some (result, st')
    /\ mDbgState (self st') = DBG_STATE_HWC
    /\ mFbProducerSlot (self st') = mFbProducerSlot (self st)
    /\ mOutputProducerSlot (self st') = mOutputProducerSlot (self st)
    /\ mFbFence (self st') = mFbFence (self st)
    /\ same_table (self st) (self st')
    /\ world st' = w1
    /\ log st' = log st ++ evs ++
         [SrcDequeueBuffer SOURCE_SINK (qbo_width (mQueueBufferOutput (self st)))
            (qbo_height (mQueueBufferOutput (self st))) 0 (mProducerUsage (self st))]
    /\ Forall is_log evs.
Proof.
  intros Hid Hct Hdq Hneg.
  unfold advanceFrame, advanceFrame_route. run.
  destruct (decide (mDisplayId (self st) < 0)); [lia|]. run.
  set (warn := if decide (mCompositionType (self st) = COMPOSITION_HWC) then _ else _).
  assert (Hwarn : exists evs,
            warn st = Some (tt, mkState (self st) (world st) (log st ++ evs))
            /\ Forall is_log evs).
  { subst warn. destruct (decide _); rewrite run_LOGW_IF; eexists;
      (split; [reflexivity|]); destruct (bool_decide _); repeat constructor. }
  destruct Hwarn as (evs & -> & Hevs). clearbody warn. clear warn. run.
  destruct (decide (mCompositionType (self st) <> COMPOSITION_GLES)); [|contradiction].
  run. set (st0 := mkState _ _ _).
  rewrite (dequeueBuffer_source_failed SOURCE_SINK 0 st0 result sslot fence w1 Hdq Hneg).
  destruct (decide (result < 0)); [|contradiction]. run.
  eexists _, evs. split; [reflexivity|]. subst st0. fields.
  do 4 (split; [reflexivity|]). split; [split; reflexivity|].
  split; [reflexivity|]. rewrite <- app_assoc. split; [reflexivity | exact Hevs].
Qed.

(** X9.  In GLES mode [advanceFrame] dequeues nothing: the output slot
    becomes the framebuffer slot the renderer queued, and the buffer
    record of that slot goes to the hardware composer with the
    renderer's fence, first as framebuffer and, if [fbPost] succeeds,
    as output buffer; the result is that of the last call made. *)
Theorem advanceFrame_gles st buf r1 w1 :
  0 <= mDisplayId (self st) ->
  mCompositionType (self st) = COMPOSITION_GLES ->
  0 <= mFbProducerSlot (self st) ->
  mProducerBuffers (self st) !! Z.to_nat (mFbProducerSlot (self st)) = Some buf ->
  hwc_fbPost (mDisplayId (self st)) (mFbFence (self st)) buf (world st) = (r1, w1) ->
  exists st' evs,
    advanceFrame st =
      Some ((if decide (r1 = NO_ERROR)
             then (hwc_setOutputBuffer (mDisplayId (self st)) (mFbFence (self st)) buf w1).1
             else r1), st')
    /\ mOutputProducerSlot (self st') = mFbProducerSlot (self st)
    /\ mFbProducerSlot (self st') = mFbProducerSlot (self st)
    /\ mFbFence (self st') = mFbFence (self st)
    /\ same_table (self st) (self st')
    /\ mDbgState (self st') = DBG_STATE_HWC
    /\ log st' = log st ++ evs ++
         HwcFbPost (mDisplayId (self st)) (mFbFence (self st)) buf ::
         (if decide (r1 = NO_ERROR)
          then [HwcSetOutputBuffer (mDisplayId (self st)) (mFbFence (self st)) buf]
          else [])
    /\ Forall is_log evs.
Proof.
  intros Hid Hct Hfb Hbuf Hpost.
  unfold advanceFrame, advanceFrame_route. run.
  destruct (decide (mDisplayId (self st) < 0)); [lia|]. run.
  rewrite Hct.
  destruct (decide (COMPOSITION_GLES = COMPOSITION_HWC)); [discriminate|].
  destruct (decide (COMPOSITION_GLES <> COMPOSITION_GLES)); [congruence|].
  destruct (decide (COMPOSITION_GLES = COMPOSITION_GLES)); [|congruence].
  run. unfold advanceFrame_submit. run. fields.
  destruct (decide (_ \/ _)); [lia|].
  run_buffer_at Hbuf. run_buffer_at Hbuf. fields. rewrite Hpost. fields.
  destruct (decide (r1 = NO_ERROR)).
  - run. rewrite <- !app_assoc. eexists _, _. split; [reflexivity|]. fields.
    do 3 (split; [reflexivity|]). split; [split; reflexivity|].
    split; [reflexivity|]. split; [reflexivity|].
    destruct (bool_decide _); repeat constructor.
  - run. rewrite <- !app_assoc. eexists _, _. split; [reflexivity|]. fields.
    do 3 (split; [reflexivity|]). split; [split; reflexivity|].
    split; [reflexivity|]. split; [reflexivity|].
    destruct (bool_decide _); repeat constructor.
Qed.

(** X10.  In MIXED mode a successful [advanceFrame] keeps the
    framebuffer slot and fence that [queueBuffer] has set, takes the
    output slot from the sink, which then owns that slot, and gives the
    hardware composer the record of the framebuffer slot with the
    framebuffer fence and the record of the output slot with the fence
    of the dequeue, in this order and as its last two events. *)
Theorem advanceFrame_mixed st st' result sslot fence w1 :
  0 < NUM_BUFFER_SLOTS <= 32 ->
  0 <= BUFFER_NEEDS_REALLOCATION ->
  well_formed (self st) ->
  0 <= mDisplayId (self st) ->
  mCompositionType (self st) = COMPOSITION_MIXED ->
  0 <= mFbProducerSlot (self st) < NUM_BUFFER_SLOTS ->
  src_dequeueBuffer SOURCE_SINK (qbo_width (mQueueBufferOutput (self st)))
    (qbo_height (mQueueBufferOutput (self st))) 0 (mProducerUsage (self st)) (world st)
    = ((result, sslot, fence), w1) ->
  (0 <= result -> 0 <= sslot < NUM_BUFFER_SLOTS) ->
  advanceFrame st = Some (NO_ERROR, st') ->
  0 <= result
  /\ mFbProducerSlot (self st') = mFbProducerSlot (self st)
  /\ mFbFence (self st') = mFbFence (self st)
  /\ mOutputProducerSlot (self st') = sslot
  /\ owner (mProducerSlotSource (self st')) sslot = SOURCE_SINK
  /\ exists fbBuf outBuf evs,
       mProducerBuffers (self st') !! Z.to_nat (mFbProducerSlot (self st)) = Some fbBuf
       /\ mProducerBuffers (self st') !! Z.to_nat sslot = Some outBuf
       /\ log st' = log st ++ evs ++
            [HwcFbPost (mDisplayId (self st)) (mFbFence (self st)) fbBuf;
             HwcSetOutputBuffer (mDisplayId (self st)) fence outBuf]
       /\ Forall (fun e => is_hwc_call e = false) evs.
Proof.
  intros HN Hflag Hwf Hid Hct Hfb Hdq Hrange.
  unfold advanceFrame, advanceFrame_route. run.
  destruct (decide (mDisplayId (self st) < 0)); [lia|]. run.
  rewrite Hct.
  destruct (decide (COMPOSITION_MIXED = COMPOSITION_HWC)); [discriminate|].
  destruct (decide (COMPOSITION_MIXED = COMPOSITION_GLES)); [discriminate|].
  destruct (decide (COMPOSITION_MIXED <> COMPOSITION_GLES)) as [_|Hne];
    [|exfalso; apply Hne; discriminate]. run.
  set (st0 := mkState _ _ _).
  destruct (decide (result < 0)) as [Hneg|Hpos].
  - rewrite (dequeueBuffer_source_failed SOURCE_SINK 0 st0 result sslot fence w1 Hdq Hneg).
    destruct (decide (result < 0)); [|contradiction]. run.
    intros [= -> _]. unfold NO_ERROR in Hneg. lia.
  - assert (Hres : 0 <= result) by lia. specialize (Hrange Hres).
    destruct (dequeueBuffer_source_spec SOURCE_SINK 0 st0 result sslot fence w1
                HN Hwf Hdq Hres Hrange) as (bufs' & old & Hrun & Hlen & _ & _ & _).
    cbn zeta in Hrun. rewrite Hrun. clear Hrun.
    set (result' := dequeue_flags _ _ _ _).
    assert (Hres' : 0 <= result').
    { subst result'. unfold dequeue_flags. case_decide; [lia|].
      apply Z.lor_nonneg. lia. }
    destruct (decide (result' < 0)); [lia|]. run.
    unfold advanceFrame_submit. run. subst st0. fields. fields in Hlen.
    change (mapSource2ProducerSlot SOURCE_SINK sslot) with sslot.
    destruct (decide (mFbProducerSlot (self st) < 0 \/ sslot < 0)); [lia|].
    assert (Hlen' : length bufs' = Z.to_nat NUM_BUFFER_SLOTS).
    { rewrite Hlen. exact Hwf. }
    destruct (lookup_lt_is_Some_2 bufs' (Z.to_nat (mFbProducerSlot (self st))))
      as [fbBuf Hfbbuf]; [lia|].
    destruct (lookup_lt_is_Some_2 bufs' (Z.to_nat sslot)) as [outBuf Houtbuf]; [lia|].
    run_buffer_at Hfbbuf. run_buffer_at Houtbuf. fields.
    match goal with |- context [hwc_fbPost ?a ?b ?c ?d] =>
      destruct (hwc_fbPost a b c d) as [r1 w2] end. cbn [fst snd].
    destruct (decide (r1 = NO_ERROR)).
    + run. intros [= Hr <-]. fields. split; [exact Hres|].
      do 3 (split; [reflexivity|]).
      split; [apply (dequeue_mask_owner _ SOURCE_SINK sslot); lia|].
      exists fbBuf, outBuf. eexists.
      split; [exact Hfbbuf|]. split; [exact Houtbuf|].
      split; [apply log_two_more|].
      apply Forall_app. split.
      * case_bool_decide; repeat constructor.
      * constructor; [reflexivity|].
        destruct (bool_decide (Z.land result' BUFFER_NEEDS_REALLOCATION <> 0));
          repeat constructor.
    + run. intros [= Hr _]. contradiction.
Qed.

(** X25.  Nothing keeps the sink from handing out the unified slot that
    holds the renderer's framebuffer.  When it does in MIXED mode, the
    dequeue takes the slot from the scratch pool and calls the sink's
    [requestBuffer] on its cell, which held [old]: the renderer's
    record, or null after [RELEASE_ALL_BUFFERS].  A successful
    [advanceFrame] then gives the hardware composer one and the same
    record, read from that cell, both as framebuffer and as output
    buffer: what the sink's [requestBuffer] has left there, its status
    being dropped.  That is the sink's handle, and then the buffer the
    renderer has drawn into is not shown; or, if the sink has written
    nothing, [old], and then the renderer's buffer is the framebuffer
    and the output buffer at once. *)
Theorem advanceFrame_mixed_collision st st' result sslot fence w1 :
  0 < NUM_BUFFER_SLOTS <= 32 ->
  0 <= BUFFER_NEEDS_REALLOCATION ->
  BUFFER_NEEDS_REALLOCATION <> 0 ->
  well_formed (self st) ->
  0 <= mDisplayId (self st) ->
  mCompositionType (self st) = COMPOSITION_MIXED ->
  0 <= mFbProducerSlot (self st) < NUM_BUFFER_SLOTS ->
  owner (mProducerSlotSource (self st)) (mFbProducerSlot (self st)) = SOURCE_SCRATCH ->
  src_dequeueBuffer SOURCE_SINK (qbo_width (mQueueBufferOutput (self st)))
    (qbo_height (mQueueBufferOutput (self st))) 0 (mProducerUsage (self st)) (world st)
    = ((result, sslot, fence), w1) ->
  0 <= result ->
  sslot = mFbProducerSlot (self st) ->
  advanceFrame st = Some (NO_ERROR, st') ->
  exists old evs,
    let buf := (src_requestBuffer SOURCE_SINK sslot old w1).1.2 in
    Some old =
      (if bool_decide (Z.land (Z.lor result BUFFER_NEEDS_REALLOCATION)
                         RELEASE_ALL_BUFFERS <> 0)
       then Some None
       else mProducerBuffers (self st) !! Z.to_nat (mFbProducerSlot (self st)))
    /\ owner (mProducerSlotSource (self st')) sslot = SOURCE_SINK
    /\ mProducerBuffers (self st') !! Z.to_nat sslot = Some buf
    /\ log st' = log st ++ evs ++
         [HwcFbPost (mDisplayId (self st)) (mFbFence (self st)) buf;
          HwcSetOutputBuffer (mDisplayId (self st)) fence buf]
    /\ Forall (fun e => is_hwc_call e = false) evs.
Proof.
  intros HN Hflag Hflag0 Hwf Hid Hct Hfb Hown Hdq Hres Hsame.
  unfold advanceFrame, advanceFrame_route. run.
  destruct (decide (mDisplayId (self st) < 0)); [lia|]. run.
  rewrite Hct.
  destruct (decide (COMPOSITION_MIXED = COMPOSITION_HWC)); [discriminate|].
  destruct (decide (COMPOSITION_MIXED = COMPOSITION_GLES)); [discriminate|].
  destruct (decide (COMPOSITION_MIXED <> COMPOSITION_GLES)) as [_|Hne];
    [|exfalso; apply Hne; discriminate]. run.
  set (st0 := mkState _ _ _).
  assert (Hs : 0 <= mapSource2ProducerSlot SOURCE_SINK sslot < NUM_BUFFER_SLOTS).
  { change (mapSource2ProducerSlot SOURCE_SINK sslot) with sslot. lia. }
  destruct (dequeueBuffer_source_spec SOURCE_SINK 0 st0 result sslot fence w1
              HN Hwf Hdq Hres Hs) as (bufs' & old & Hrun & Hlen & Hold & Hnew & _).
  cbn zeta in Hrun, Hold, Hnew. rewrite Hrun. clear Hrun.
  change (mapSource2ProducerSlot SOURCE_SINK sslot) with sslot in *.
  subst st0. fields in Hold. fields in Hnew. fields.
  unfold dequeue_flags in *. rewrite Hsame in Hold, Hnew |- *.
  destruct (decide (owner (mProducerSlotSource (self st)) (mFbProducerSlot (self st))
                    = SOURCE_SINK)) as [Hsink|_]; [congruence|].
  rewrite !(bool_decide_eq_true_2
              (Z.land (Z.lor result BUFFER_NEEDS_REALLOCATION)
                 BUFFER_NEEDS_REALLOCATION <> 0)) in *
    by (rewrite land_lor_same; exact Hflag0).
  assert (Hres' : 0 <= Z.lor result BUFFER_NEEDS_REALLOCATION)
    by (apply Z.lor_nonneg; lia).
  destruct (decide (Z.lor result BUFFER_NEEDS_REALLOCATION < 0)); [lia|]. run.
  unfold advanceFrame_submit. run. fields.
  destruct (decide (mFbProducerSlot (self st) < 0 \/ mFbProducerSlot (self st) < 0));
    [lia|].
  run_buffer_at Hnew. run_buffer_at Hnew. fields.
  match goal with |- context [hwc_fbPost ?a ?b ?c ?d] =>
    destruct (hwc_fbPost a b c d) as [r1 w2] end. cbn [fst snd].
  destruct (decide (r1 = NO_ERROR)).
  - run. intros [= Hr <-]. fields.
    exists old. eexists. cbn zeta.
    split; [exact Hold|].
    split; [apply (dequeue_mask_owner _ SOURCE_SINK); lia|].
    split; [exact Hnew|].
    split; [apply log_two_more|].
    apply Forall_app. split.
    + clear Hold. case_bool_decide; repeat constructor.
    + repeat constructor.
  - run. intros [= Hr _]. contradiction.
Qed.

End AdvanceFrame.

(** ** The producer-facing [queueBuffer] and [cancelBuffer] *)


Section QueueBuffer.
Context {hdr : Header} {World : Type} {env : Collaborators World}.
Implicit Types st : State World.

Lemma mapSource2ProducerSlot_twice source s :
  NUM_BUFFER_SLOTS < 2 ^ 31 -> 0 <= s < NUM_BUFFER_SLOTS ->
  mapSource2ProducerSlot source (mapSource2ProducerSlot source s) = s.
Proof.
  intros HN Hs. unfold mapSource2ProducerSlot. case_decide; [|reflexivity].
  rewrite (int32_small (NUM_BUFFER_SLOTS - s - 1)) by lia.
  rewrite int32_small by lia. lia.
Qed.

(** X18.  In GLES mode [queueBuffer] calls nobody: it takes the slot
    and the fence of the renderer as framebuffer slot and fence,
    returns [NO_ERROR] with the stored [QueueBufferOutput], and leaves
    the output slot, the table and the collaborators as they were.
    GLES is the one mode in which the [LOG_FATAL_IF] of line 315 does
    not fire, so that this holds with and without [NDEBUG]; of the
    modes HWC and UNKNOWN, which that assertion calls fatal, nothing is
    said. *)
Theorem queueBuffer_gles st pslot input :
  mCompositionType (self st) = COMPOSITION_GLES ->
  exists st',
    queueBuffer pslot input st =
      Some ((NO_ERROR, Some (mQueueBufferOutput (self st))), st')
    /\ mFbProducerSlot (self st') = pslot
    /\ mFbFence (self st') = qbi_fence input
    /\ mDbgState (self st') = DBG_STATE_GLES_DONE
    /\ mOutputProducerSlot (self st') = mOutputProducerSlot (self st)
    /\ same_table (self st) (self st')
    /\ world st' = world st
    /\ log st' = log st ++
         (if bool_decide (mDbgState (self st) <> DBG_STATE_GLES)
          then [LogW "Unexpected queueBuffer(pslot=%d) in %s state"] else []).
Proof.
  intros Hct. unfold queueBuffer. run. fields. rewrite Hct.
  destruct (decide (COMPOSITION_GLES = COMPOSITION_MIXED)); [discriminate|].
  run. eexists. split; [reflexivity|]. fields.
  do 4 (split; [reflexivity|]). split; [split; reflexivity|].
  split; reflexivity.
Qed.

(** X19.  In MIXED mode, when the scratch pool refuses the buffer or
    the acquire that follows fails, [queueBuffer] returns that error
    and writes no output: the framebuffer slot and fence, the output
    slot and the table are as they were, and no acquire is attempted
    after a refused [queueBuffer]. *)
Theorem queueBuffer_mixed_failure st pslot input r1 qbo w1 r2 item w2 :
  mCompositionType (self st) = COMPOSITION_MIXED ->
  src_queueBuffer SOURCE_SCRATCH (mapProducer2SourceSlot SOURCE_SCRATCH pslot) input
    (world st) = ((r1, qbo), w1) ->
  base_acquireBufferLocked w1 = ((r2, item), w2) ->
  r1 <> NO_ERROR \/ r2 <> NO_ERROR ->
  exists st' evs,
    queueBuffer pslot input st =
      Some ((if decide (r1 = NO_ERROR) then r2 else r1, None), st')
    /\ same_frame (self st) (self st')
    /\ same_table (self st) (self st')
    /\ mDbgState (self st') = DBG_STATE_GLES_DONE
    /\ world st' = (if decide (r1 = NO_ERROR) then w2 else w1)
    /\ log st' = log st ++ evs ++
         SrcQueueBuffer SOURCE_SCRATCH (mapProducer2SourceSlot SOURCE_SCRATCH pslot) input
         :: (if decide (r1 = NO_ERROR) then [BaseAcquireBufferLocked] else [])
    /\ Forall is_log evs.
Proof.
  intros Hct Hq Hacq Hfail. unfold queueBuffer. run. fields. rewrite Hct.
  destruct (decide (COMPOSITION_MIXED = COMPOSITION_MIXED)); [|congruence]. run.
  rewrite Hq. fields.
  destruct (decide (r1 = NO_ERROR)) as [Hr1|Hr1].
  - destruct (decide (r1 <> NO_ERROR)); [contradiction|]. run.
    rewrite Hacq. fields.
    destruct (decide (r2 <> NO_ERROR)); [|tauto]. run.
    rewrite <- !app_assoc. eexists _, _. split; [reflexivity|]. fields.
    split; [repeat split|]. split; [split; reflexivity|].
    do 3 (split; [reflexivity|]).
    destruct (bool_decide _); repeat constructor.
  - destruct (decide (r1 <> NO_ERROR)); [|contradiction]. run.
    rewrite <- !app_assoc. eexists _, _. split; [reflexivity|]. fields.
    split; [repeat split|]. split; [split; reflexivity|].
    do 3 (split; [reflexivity|]).
    destruct (bool_decide _); repeat constructor.
Qed.

(** X20.  In MIXED mode, when the scratch pool hands back the slot that
    was queued, [queueBuffer] ends with the renderer's own slot as
    framebuffer slot (the native slot mapped back) and with the fence
    the base class holds for the acquired slot, logs no mismatch, and
    has made the two calls [queueBuffer] and [acquireBufferLocked] in
    this order. *)
Theorem queueBuffer_mixed_round_trip st pslot input qbo w1 item w2 :
  NUM_BUFFER_SLOTS < 2 ^ 31 ->
  0 <= pslot < NUM_BUFFER_SLOTS ->
  mCompositionType (self st) = COMPOSITION_MIXED ->
  src_queueBuffer SOURCE_SCRATCH (mapProducer2SourceSlot SOURCE_SCRATCH pslot) input
    (world st) = ((NO_ERROR, qbo), w1) ->
  base_acquireBufferLocked w1 = ((NO_ERROR, item), w2) ->
  mBuf item = mapProducer2SourceSlot SOURCE_SCRATCH pslot ->
  exists st' evs,
    queueBuffer pslot input st =
      Some ((NO_ERROR, Some (mQueueBufferOutput (self st))), st')
    /\ mFbProducerSlot (self st') = pslot
    /\ mFbFence (self st') = slot_mFence w2 (mBuf item)
    /\ mDbgState (self st') = DBG_STATE_GLES_DONE
    /\ same_table (self st) (self st')
    /\ world st' = w2
    /\ log st' = log st ++ evs ++
         [SrcQueueBuffer SOURCE_SCRATCH (mapProducer2SourceSlot SOURCE_SCRATCH pslot) input;
          BaseAcquireBufferLocked]
    /\ Forall (fun e => e = LogW "Unexpected queueBuffer(pslot=%d) in %s state") evs.
Proof.
  intros HN Hp Hct Hq Hacq Hsame.
  pose proof (mapSource2ProducerSlot_range SOURCE_SCRATCH pslot HN Hp) as Hs.
  pose proof (mapSource2ProducerSlot_twice SOURCE_SCRATCH pslot HN Hp) as Hinv.
  unfold queueBuffer, mSlots_mFence, peek. run. fields. rewrite Hct.
  destruct (decide (COMPOSITION_MIXED = COMPOSITION_MIXED)); [|congruence]. run.
  rewrite Hq. fields. destruct (decide (NO_ERROR <> NO_ERROR)); [congruence|]. run.
  rewrite Hacq. fields. destruct (decide (NO_ERROR <> NO_ERROR)); [congruence|]. run.
  rewrite Hsame. unfold mapProducer2SourceSlot at 1 2 3.
  destruct (decide (0 <= mapSource2ProducerSlot SOURCE_SCRATCH pslot < NUM_BUFFER_SLOTS));
    [|contradiction]. run.
  rewrite (bool_decide_eq_false_2 (mapSource2ProducerSlot SOURCE_SCRATCH pslot <> _))
    by (intros Hne; apply Hne; reflexivity).
  rewrite app_nil_r, <- !app_assoc.
  eexists _, _. split; [reflexivity|]. fields.
  split; [exact Hinv|]. do 2 (split; [reflexivity|]). split; [split; reflexivity|].
  do 2 (split; [reflexivity|]).
  destruct (bool_decide _); repeat constructor.
Qed.

(** X21.  [cancelBuffer] on the unified slot of a native slot cancels
    that native slot on the source of the frame's composition type,
    with the fence it was given, and leaves the object as it was. *)
Theorem cancelBuffer_returns_native_slot st sslot fence :
  NUM_BUFFER_SLOTS < 2 ^ 31 ->
  0 <= sslot < NUM_BUFFER_SLOTS ->
  let source := fbSourceForCompositionType (mCompositionType (self st)) in
  exists st',
    cancelBuffer (mapSource2ProducerSlot source sslot) fence st = Some (tt, st')
    /\ self st' = self st
    /\ world st' =
         (src_cancelBuffer source sslot fence (world st)).2
    /\ log st' = log st ++
         (if bool_decide (mDbgState (self st) <> DBG_STATE_GLES)
          then [LogW "Unexpected cancelBuffer(pslot=%d) in %s state"] else []) ++
         [SrcCancelBuffer source sslot fence].
Proof.
  intros HN Hs source.
  pose proof (mapSource2ProducerSlot_twice source sslot HN Hs) as Hinv.
  unfold cancelBuffer. run. fields. fold source.
  unfold mapProducer2SourceSlot. rewrite Hinv.
  destruct (src_cancelBuffer source sslot fence (world st)) as [[] w2]. fields.
  eexists. split; [reflexivity|]. fields. rewrite <- app_assoc. auto.
Qed.

End QueueBuffer.

(** ** The producer-facing [dequeueBuffer] *)

Section DequeueBufferPublic.
Context {hdr : Header} {World : Type} {env : Collaborators World}.
Implicit Types st : State World.

Lemma dequeueBuffer_run w h format usage st :
  dequeueBuffer w h format usage st =
  match dequeueBuffer_source
          (fbSourceForCompositionType (mCompositionType (self st))) format
          (mkState (dequeue_entry w h usage (self st)) (world st)
             (log st ++
              (if bool_decide (mDbgState (self st) <> DBG_STATE_PREPARED)
               then [LogW "Unexpected dequeueBuffer() in %s state"] else [])))
  with
  | Some ((result, sslot, fence), st') =>
      Some ((result,
             if decide (result >= 0)
             then Some (mapSource2ProducerSlot
                          (fbSourceForCompositionType (mCompositionType (self st))) sslot)
             else None,
             fence), st')
  | None => None
  end.
Proof.
  unfold dequeueBuffer, dequeue_entry. run. fields.
  destruct (decide (fbSourceForCompositionType (mCompositionType (self st)) = SOURCE_SINK));
    run; fields;
    (destruct (dequeueBuffer_source _ _ _) as [[[[result sslot] fence] st']|];
     [|reflexivity]);
    destruct (decide (result >= 0)); reflexivity.
Qed.

Lemma dequeue_entry_fields w h usage v :
  mProducerUsage (dequeue_entry w h usage v) = Z.lor usage GRALLOC_USAGE_HW_COMPOSER
  /\ mSinkBufferWidth (dequeue_entry w h usage v) =
       (if decide (fbSourceForCompositionType (mCompositionType v) = SOURCE_SINK)
        then w else mSinkBufferWidth v)
  /\ mSinkBufferHeight (dequeue_entry w h usage v) =
       (if decide (fbSourceForCompositionType (mCompositionType v) = SOURCE_SINK)
        then h else mSinkBufferHeight v)
  /\ mProducerBuffers (dequeue_entry w h usage v) = mProducerBuffers v
  /\ mProducerSlotSource (dequeue_entry w h usage v) = mProducerSlotSource v
  /\ mDbgState (dequeue_entry w h usage v) = DBG_STATE_GLES
  /\ same_frame v (dequeue_entry w h usage v).
Proof.
  unfold dequeue_entry. case_decide; fields; repeat split.
Qed.

(** X16.  When the source refuses, the producer-facing [dequeueBuffer]
    returns the error and writes no slot: the table and the fields of
    the frame are as they were, the state is [DBG_STATE_GLES], and the
    failed [dequeueBuffer] on the source is the only call. *)
Theorem dequeueBuffer_failure st w h format usage result sslot fence w1 :
  let source := fbSourceForCompositionType (mCompositionType (self st)) in
  src_dequeueBuffer source
    (if decide (source = SOURCE_SINK) then w else mSinkBufferWidth (self st))
    (if decide (source = SOURCE_SINK) then h else mSinkBufferHeight (self st))
    format (Z.lor usage GRALLOC_USAGE_HW_COMPOSER) (world st)
    = ((result, sslot, fence), w1) ->
  result < 0 ->
  exists st' evs,
    dequeueBuffer w h format usage st = Some ((result, None, fence), st')
    /\ same_table (self st) (self st')
    /\ same_frame (self st) (self st')
    /\ mDbgState (self st') = DBG_STATE_GLES
    /\ world st' = w1
    /\ log st' = log st ++ evs ++
         [SrcDequeueBuffer source
            (if decide (source = SOURCE_SINK) then w else mSinkBufferWidth (self st))
            (if decide (source = SOURCE_SINK) then h else mSinkBufferHeight (self st))
            format (Z.lor usage GRALLOC_USAGE_HW_COMPOSER)]
    /\ Forall is_log evs.
Proof.
  intros source Hdq Hneg. rewrite dequeueBuffer_run. fold source.
  destruct (dequeue_entry_fields w h usage (self st))
    as (Hu & Hw & Hh & Hb & Hm & Hd & Hf).
  fold source in Hw, Hh.
  set (st1 := mkState _ _ _).
  rewrite <- Hu, <- Hw, <- Hh in Hdq.
  rewrite (dequeueBuffer_source_failed source format st1 result sslot fence w1 Hdq Hneg).
  destruct (decide (result >= 0)); [lia|].
  subst st1. fields. rewrite <- app_assoc.
  eexists _, _. split; [reflexivity|]. fields.
  split; [split; [exact Hm | exact Hb]|]. split; [exact Hf|].
  split; [exact Hd|]. split; [reflexivity|].
  rewrite Hu, Hw, Hh. split; [reflexivity|].
  destruct (bool_decide _); repeat constructor.
Qed.

(** X17.  After a successful producer-facing [dequeueBuffer] the slot
    it returns is owned by the source of the frame, and a
    [requestBuffer] for that slot returns [NO_ERROR] with its record
    and changes nothing.  When the result carries
    [BUFFER_NEEDS_REALLOCATION], the source's [requestBuffer] has been
    called once, after the [dequeueBuffer], for the native slot and on
    the cell of the unified slot, which held [old]: the record cached
    before, or null when the result carries [RELEASE_ALL_BUFFERS].
    The record is what that call has left in the cell, its status
    being dropped (line 252): the handle the source has written, or
    [old] if it has written nothing.  Without
    [BUFFER_NEEDS_REALLOCATION] the one call is the [dequeueBuffer] and
    the record is [old]; with neither flag the result is the
    source's. *)
Theorem dequeueBuffer_then_requestBuffer st w h format usage result sslot fence w1 :
  let source := fbSourceForCompositionType (mCompositionType (self st)) in
  let width := if decide (source = SOURCE_SINK) then w else mSinkBufferWidth (self st) in
  let height := if decide (source = SOURCE_SINK) then h else mSinkBufferHeight (self st) in
  0 < NUM_BUFFER_SLOTS <= 32 ->
  well_formed (self st) ->
  src_dequeueBuffer source width height format
    (Z.lor usage GRALLOC_USAGE_HW_COMPOSER) (world st)
    = ((result, sslot, fence), w1) ->
  0 <= result ->
  0 <= BUFFER_NEEDS_REALLOCATION ->
  0 <= sslot < NUM_BUFFER_SLOTS ->
  exists result' st1 buf old,
    let pslot := mapSource2ProducerSlot source sslot in
    let answer := src_requestBuffer source sslot old w1 in
    let before :=
      log st ++
      (if bool_decide (mDbgState (self st) <> DBG_STATE_PREPARED)
       then [LogW "Unexpected dequeueBuffer() in %s state"] else []) ++
      [SrcDequeueBuffer source width height format
         (Z.lor usage GRALLOC_USAGE_HW_COMPOSER)] in
    dequeueBuffer w h format usage st = Some ((result', Some pslot, fence), st1)
    /\ owner (mProducerSlotSource (self st1)) pslot = source
    /\ requestBuffer pslot st1 = Some ((NO_ERROR, buf), st1)
    /\ Some old =
         (if bool_decide (Z.land result' RELEASE_ALL_BUFFERS <> 0) then Some None
          else mProducerBuffers (self st) !! Z.to_nat pslot)
    /\ (Z.land result' BUFFER_NEEDS_REALLOCATION <> 0 ->
        buf = answer.1.2 /\ world st1 = answer.2
        /\ log st1 = before ++ [SrcRequestBuffer source sslot])
    /\ (Z.land result' BUFFER_NEEDS_REALLOCATION = 0 ->
        buf = old /\ world st1 = w1 /\ log st1 = before)
    /\ (Z.land result' BUFFER_NEEDS_REALLOCATION = 0 ->
        Z.land result' RELEASE_ALL_BUFFERS = 0 -> result' = result).
Proof.
  intros source width height HN Hwf Hdq Hres Hflag Hs.
  assert (Hp : 0 <= mapSource2ProducerSlot source sslot < NUM_BUFFER_SLOTS).
  { apply mapSource2ProducerSlot_range; [|exact Hs].
    assert (2 ^ 5 < 2 ^ 31) by (apply Z.pow_lt_mono_r; lia).
    change (2 ^ 5) with 32 in *. lia. }
  rewrite dequeueBuffer_run. fold source.
  destruct (dequeue_entry_fields w h usage (self st))
    as (Hu & Hw & Hh & Hb & Hm & Hd & Hf).
  fold source in Hw, Hh. fold width in Hw. fold height in Hh.
  set (st1 := mkState _ _ _).
  assert (Hdq1 : src_dequeueBuffer source (mSinkBufferWidth (self st1))
                   (mSinkBufferHeight (self st1)) format (mProducerUsage (self st1))
                   (world st1) = ((result, sslot, fence), w1)).
  { subst st1. cbn [self world]. rewrite Hu, Hw, Hh. exact Hdq. }
  assert (Hwf1 : well_formed (self st1)).
  { unfold well_formed in *. subst st1. cbn [self]. rewrite Hb. exact Hwf. }
  destruct (dequeueBuffer_source_spec source format st1 result sslot fence w1
              HN Hwf1 Hdq1 Hres Hp) as (bufs' & old & Hrun & Hlen & Hold & Hnew & _).
  cbn zeta in Hrun, Hold, Hnew. rewrite Hrun. clear Hrun.
  set (result' := dequeue_flags _ _ _ _) in *.
  assert (Hres' : result' >= 0).
  { subst result'. unfold dequeue_flags.
    destruct (decide (owner _ _ = _)); [lia|].
    apply Z.le_ge, Z.lor_nonneg. lia. }
  destruct (decide (result' >= 0)); [|contradiction].
  subst st1. cbn [self world log] in *. rewrite Hb in Hold. rewrite Hu, Hw, Hh.
  exists result'. eexists. eexists. exists old. cbn zeta.
  split; [reflexivity|]. cbn [self world log]. fields.
  split; [apply dequeue_mask_owner; lia|].
  split.
  { unfold requestBuffer. run. fields. rewrite Hd.
    rewrite (bool_decide_eq_false_2 (DBG_STATE_GLES <> DBG_STATE_GLES))
      by (intros Hne; apply Hne; reflexivity).
    rewrite app_nil_r.
    erewrite run_buffer_at by (fields; first [lia | exact Hnew]). run.
    reflexivity. }
  split; [exact Hold|].
  split; [|split].
  - intros Hre.
    rewrite !(bool_decide_eq_true_2 (Z.land result' BUFFER_NEEDS_REALLOCATION <> 0))
      by exact Hre.
    split; [reflexivity|]. split; [reflexivity|].
    rewrite <- !app_assoc. reflexivity.
  - intros Hre.
    rewrite !(bool_decide_eq_false_2 (Z.land result' BUFFER_NEEDS_REALLOCATION <> 0))
      by (intros Hne; apply Hne; exact Hre).
    split; [reflexivity|]. split; [reflexivity|].
    rewrite <- !app_assoc. reflexivity.
  - intros Hre Hrel. subst result'. unfold dequeue_flags in *.
    destruct (decide (owner _ _ = _)); [reflexivity|].
    rewrite land_lor_same in Hre. rewrite Hre. apply Z.lor_0_r.
Qed.

End DequeueBufferPublic.

(** ** [onFrameCommitted], call by call *)

Section OnFrameCommitted.
Context {hdr : Header} {World : Type} {env : Collaborators World}.
Implicit Types st : State World.

Lemma buffer_at_value i b st st' :
  buffer_at i st = Some (b, st') ->
  0 <= i /\ mProducerBuffers (self st) !! Z.to_nat i = Some b.
Proof.
  unfold buffer_at. run. case_decide; [|discriminate].
  destruct (_ !! _); cbn [lift_option]; [run | discriminate].
  intros [= -> _]. auto.
Qed.

(** Every call [onFrameCommitted] makes, with the answers it gets, in
    the order of the source: the release fence of the hardware
    composer, the release of the scratch buffer, the queueing of the
    output buffer. *)
Lemma onFrameCommitted_inv st st' :
  0 <= mDisplayId (self st) ->
  onFrameCommitted st = Some (tt, st') ->
  let id := mDisplayId (self st) in
  let fb := mFbProducerSlot (self st) in
  let out := mOutputProducerSlot (self st) in
  let sslot := mapProducer2SourceSlot SOURCE_SCRATCH fb in
  exists fbFence w1 release w2 queue,
    hwc_getAndResetReleaseFence id (world st) = (fbFence, w1)
    /\ (if decide (mCompositionType (self st) = COMPOSITION_MIXED /\ fb >= 0)
        then exists buf r1 wa r2,
          mProducerBuffers (self st) !! Z.to_nat fb = Some buf
          /\ base_addReleaseFenceLocked sslot buf fbFence w1 = (r1, wa)
          /\ base_releaseBufferLocked sslot buf wa = (r2, w2)
          /\ release = [BaseAddReleaseFenceLocked sslot buf fbFence;
                        BaseReleaseBufferLocked sslot buf]
        else release = [] /\ w2 = w1)
    /\ (if decide (out >= 0)
        then exists outFence w3 now w4 result qbo,
          let input := mkQueueBufferInput now
                         (Rect_wh (mSinkBufferWidth (self st)) (mSinkBufferHeight (self st)))
                         NATIVE_WINDOW_SCALING_MODE_FREEZE 0 outFence in
          hwc_getLastRetireFence id w2 = (outFence, w3)
          /\ systemTime w3 = (now, w4)
          /\ src_queueBuffer SOURCE_SINK out input w4 = ((result, qbo), world st')
          /\ queue = [HwcGetLastRetireFence id; SystemTime;
                      SrcQueueBuffer SOURCE_SINK out input]
          /\ mQueueBufferOutput (self st') =
               (if decide (result = NO_ERROR)
                then mkQueueBufferOutput (qbo_width qbo) (qbo_height qbo) 0
                       (qbo_numPendingBuffers qbo)
                else mQueueBufferOutput (self st))
        else queue = [] /\ world st' = w2
             /\ mQueueBufferOutput (self st') = mQueueBufferOutput (self st))
    /\ log st' = log st ++
         (if bool_decide (mDbgState (self st) <> DBG_STATE_HWC)
          then [LogW "Unexpected onFrameCommitted() in %s state"] else []) ++
         HwcGetAndResetReleaseFence id :: release ++ queue
    /\ frame_reset (self st')
    /\ mDisplayId (self st') = mDisplayId (self st).
Proof.
  intros Hid. unfold onFrameCommitted. run_local.
  destruct (decide (mDisplayId (self st) < 0)); [lia|]. run_local.
  rewrite run_call.
  destruct (hwc_getAndResetReleaseFence _ _) as [fbFence w1] eqn:Hfence.
  run_local. fields.
  set (warn := if bool_decide _ then _ else _).
  set (st1 := mkState _ w1 _).
  (* the release of the scratch buffer *)
  match goal with
  | |- context [match ?m st1 with Some _ => _ | None => _ end] =>
      destruct (m st1) as [[[] st2]|] eqn:Hblock; [|discriminate]
  end.
  assert (Hrelease : exists release w2,
    st2 = mkState (self st1) w2 (log st1 ++ release)
    /\ if decide (mCompositionType (self st) = COMPOSITION_MIXED
                  /\ mFbProducerSlot (self st) >= 0)
       then exists buf r1 wa r2,
          mProducerBuffers (self st) !! Z.to_nat (mFbProducerSlot (self st)) = Some buf
          /\ base_addReleaseFenceLocked
               (mapProducer2SourceSlot SOURCE_SCRATCH (mFbProducerSlot (self st)))
               buf fbFence w1 = (r1, wa)
          /\ base_releaseBufferLocked
               (mapProducer2SourceSlot SOURCE_SCRATCH (mFbProducerSlot (self st)))
               buf wa = (r2, w2)
          /\ release =
               [BaseAddReleaseFenceLocked
                  (mapProducer2SourceSlot SOURCE_SCRATCH (mFbProducerSlot (self st)))
                  buf fbFence;
                BaseReleaseBufferLocked
                  (mapProducer2SourceSlot SOURCE_SCRATCH (mFbProducerSlot (self st))) buf]
       else release = [] /\ w2 = w1).
  { revert Hblock.
    destruct (decide (mCompositionType (self st) = COMPOSITION_MIXED
                      /\ mFbProducerSlot (self st) >= 0)) as [[Hm Hge]|Hno].
    - run_local.
      destruct (buffer_at _ st1) as [[buf st1']|] eqn:Hb; [|discriminate].
      pose proof (buffer_at_value _ _ _ _ Hb) as [_ Hbuf].
      apply buffer_at_inv in Hb as ->. subst st1. fields in Hbuf.
      run_local. rewrite run_call.
      destruct (base_addReleaseFenceLocked _ _ _ _) as [r1 wa] eqn:Hadd. run_local.
      erewrite run_buffer_at by (fields; first [lia | exact Hbuf]).
      run_local. rewrite run_call.
      destruct (base_releaseBufferLocked _ _ _) as [r2 w2] eqn:Hrel. run_local.
      intros [= <-]. eexists _, w2. rewrite <- app_assoc.
      split; [reflexivity|]. exists buf, r1, wa, r2. auto.
    - run_local. intros [= <-]. exists [], w1. rewrite app_nil_r.
      split; [subst st1; reflexivity | auto]. }
  clear Hblock. destruct Hrelease as (release & w2 & -> & Hrelease).
  subst st1. run_local. fields.
  (* the queueing of the output buffer *)
  set (st2 := mkState _ w2 _).
  match goal with
  | |- context [match ?m st2 with Some _ => _ | None => _ end] =>
      destruct (m st2) as [[[] st3]|] eqn:Hblock; [|discriminate]
  end.
  unfold resetPerFrameState. run_local. intros [= <-]. fields.
  exists fbFence, w1, release, w2.
  revert Hblock.
  destruct (decide (mOutputProducerSlot (self st) >= 0)) as [Hout|Hout].
  - run_local. rewrite run_call.
    destruct (hwc_getLastRetireFence _ _) as [outFence w3] eqn:Hretire. run_local.
    rewrite run_call. destruct (systemTime _) as [now w4] eqn:Hnow. run_local.
    rewrite run_call.
    change (mapProducer2SourceSlot SOURCE_SINK (mOutputProducerSlot (self st)))
      with (mOutputProducerSlot (self st)).
    destruct (src_queueBuffer _ _ _ _) as [[result qbo] w5] eqn:Hqueue.
    run_local. unfold updateQueueBufferOutput.
    subst st2. fields in Hretire. fields in Hnow. fields in Hqueue.
    destruct (decide (result = NO_ERROR)) as [Hres|Hres]; run_local;
      intros [= <-]; fields;
      (eexists; split; [reflexivity|]; split; [exact Hrelease|];
       split;
       [ exists outFence, w3, now, w4, result, qbo; cbn zeta;
         split; [first [reflexivity | exact Hretire]|];
         split; [first [reflexivity | exact Hnow]|];
         split; [first [reflexivity | exact Hqueue]|];
         split; [reflexivity|];
         destruct (decide (result = NO_ERROR)); [reflexivity || contradiction ..]
       | split; [subst warn; rewrite <- !app_assoc; cbn [app]; reflexivity|];
         repeat split ]).
  - run_local. intros [= <-]. subst st2. fields.
    exists []. split; [reflexivity|]. split; [exact Hrelease|].
    split; [auto|].
    split; [subst warn; rewrite app_nil_r, <- !app_assoc; reflexivity|].
    repeat split.
Qed.

Lemma new_events_app st st' evs :
  log st' = log st ++ evs -> new_events st st' = evs.
Proof. intros Hl. unfold new_events. rewrite Hl. apply drop_app_length. Qed.

(** X11.  [onFrameCommitted] releases the scratch buffer in MIXED mode
    with a framebuffer slot, and only then: its calls to the base
    class are [addReleaseFenceLocked] and [releaseBufferLocked] for the
    native slot of the framebuffer slot, with the record of that slot
    and the release fence the hardware composer has just given; in
    another mode, or without a framebuffer slot, the base class is not
    called. *)
Theorem onFrameCommitted_scratch_release st st' :
  0 <= mDisplayId (self st) ->
  onFrameCommitted st = Some (tt, st') ->
  let fb := mFbProducerSlot (self st) in
  let sslot := mapProducer2SourceSlot SOURCE_SCRATCH fb in
  let fbFence := (hwc_getAndResetReleaseFence (mDisplayId (self st)) (world st)).1 in
  (mCompositionType (self st) = COMPOSITION_MIXED -> 0 <= fb ->
   exists buf,
     mProducerBuffers (self st) !! Z.to_nat fb = Some buf
     /\ filter (fun e => is_base_call e = true) (new_events st st') =
          [BaseAddReleaseFenceLocked sslot buf fbFence;
           BaseReleaseBufferLocked sslot buf])
  /\ (mCompositionType (self st) <> COMPOSITION_MIXED \/ fb < 0 ->
      filter (fun e => is_base_call e = true) (new_events st st') = []).
Proof.
  intros Hid Hrun fb sslot fbFence.
  destruct (onFrameCommitted_inv st st' Hid Hrun)
    as (fbFence' & w1 & release & w2 & queue & Hfence & Hrelease & Hqueue & Hlog & _).
  cbn zeta in *. apply new_events_app in Hlog. rewrite Hlog.
  assert (Hq : filter (fun e => is_base_call e = true) queue = []).
  { destruct (decide (mOutputProducerSlot (self st) >= 0)).
    - destruct Hqueue as (? & ? & ? & ? & ? & ? & _ & _ & _ & -> & _). reflexivity.
    - destruct Hqueue as (-> & _). reflexivity. }
  assert (Hw : forall rest,
    filter (fun e => is_base_call e = true)
      ((if bool_decide (mDbgState (self st) <> DBG_STATE_HWC)
        then [LogW "Unexpected onFrameCommitted() in %s state"] else []) ++
       HwcGetAndResetReleaseFence (mDisplayId (self st)) :: rest) =
    filter (fun e => is_base_call e = true) rest).
  { intros rest. destruct (bool_decide _); reflexivity. }
  rewrite Hw, filter_app, Hq, app_nil_r.
  subst fbFence. rewrite Hfence. cbn [fst].
  destruct (decide (mCompositionType (self st) = COMPOSITION_MIXED
                    /\ mFbProducerSlot (self st) >= 0)) as [Hyes|Hno].
  - destruct Hrelease as (buf & r1 & wa & r2 & Hbuf & _ & _ & ->). split.
    + intros _ _. exists buf. split; [exact Hbuf | reflexivity].
    + subst fb. intros [Hne|Hlt]; [destruct Hyes; contradiction | lia].
  - destruct Hrelease as (-> & _). split.
    + subst fb. intros Hm Hge. exfalso. apply Hno. split; [exact Hm | lia].
    + intros _. reflexivity.
Qed.

(** X12.  With an output slot, the one call [onFrameCommitted] makes to
    a source queues that slot to the sink, with the time of the clock,
    the crop of the sink buffer's width and height, the scaling mode
    [NATIVE_WINDOW_SCALING_MODE_FREEZE], no transform and the retire
    fence of the hardware composer; the stored [QueueBufferOutput]
    becomes the sink's answer with the transform hint 0 if the sink
    returns [NO_ERROR] and is left alone otherwise.  Without an output
    slot no source is called and the stored output is left alone. *)
Theorem onFrameCommitted_sink_queue st st' :
  0 <= mDisplayId (self st) ->
  onFrameCommitted st = Some (tt, st') ->
  let out := mOutputProducerSlot (self st) in
  (0 <= out ->
   exists w outFence w' now w'' result qbo,
     let input := mkQueueBufferInput now
                    (Rect_wh (mSinkBufferWidth (self st)) (mSinkBufferHeight (self st)))
                    NATIVE_WINDOW_SCALING_MODE_FREEZE 0 outFence in
     hwc_getLastRetireFence (mDisplayId (self st)) w = (outFence, w')
     /\ systemTime w' = (now, w'')
     /\ src_queueBuffer SOURCE_SINK out input w'' = ((result, qbo), world st')
     /\ filter (fun e => is_source_call e = true) (new_events st st') =
          [SrcQueueBuffer SOURCE_SINK out input]
     /\ mQueueBufferOutput (self st') =
          (if decide (result = NO_ERROR)
           then mkQueueBufferOutput (qbo_width qbo) (qbo_height qbo) 0
                  (qbo_numPendingBuffers qbo)
           else mQueueBufferOutput (self st)))
  /\ (out < 0 ->
      filter (fun e => is_source_call e = true) (new_events st st') = []
      /\ mQueueBufferOutput (self st') = mQueueBufferOutput (self st)).
Proof.
  intros Hid Hrun out.
  destruct (onFrameCommitted_inv st st' Hid Hrun)
    as (fbFence & w1 & release & w2 & queue & Hfence & Hrelease & Hqueue & Hlog & _).
  cbn zeta in *. apply new_events_app in Hlog. rewrite Hlog.
  assert (Hr : filter (fun e => is_source_call e = true) release = []).
  { destruct (decide (_ /\ _)).
    - destruct Hrelease as (? & ? & ? & ? & _ & _ & _ & ->). reflexivity.
    - destruct Hrelease as (-> & _). reflexivity. }
  assert (Hw : forall rest,
    filter (fun e => is_source_call e = true)
      ((if bool_decide (mDbgState (self st) <> DBG_STATE_HWC)
        then [LogW "Unexpected onFrameCommitted() in %s state"] else []) ++
       HwcGetAndResetReleaseFence (mDisplayId (self st)) :: rest) =
    filter (fun e => is_source_call e = true) rest).
  { intros rest. destruct (bool_decide _); reflexivity. }
  rewrite Hw, filter_app, Hr. cbn [app].
  destruct (decide (mOutputProducerSlot (self st) >= 0)) as [Hyes|Hno].
  - destruct Hqueue as (outFence & w3 & now & w4 & result & qbo
                        & Hretire & Hnow & Hq & -> & Hqbo).
    split; [|subst out; lia].
    intros _. exists w2, outFence, w3, now, w4, result, qbo. cbn zeta.
    split; [exact Hretire|]. split; [exact Hnow|]. split; [exact Hq|].
    split; [reflexivity | exact Hqbo].
  - destruct Hqueue as (-> & _ & Hqbo). split; [subst out; lia|].
    intros _. split; [reflexivity | exact Hqbo].
Qed.

End OnFrameCommitted.

(** ** A dequeue that finds the slot as it left it *)

Section CacheHit.
Context {hdr : Header} {World : Type} {env : Collaborators World}.
Implicit Types st : State World.

(** X15.  A successful source-level dequeue of a slot the source
    already owns, with neither [BUFFER_NEEDS_REALLOCATION] nor
    [RELEASE_ALL_BUFFERS] in the source's result, returns that result
    and leaves the object as it was: the one call is the
    [dequeueBuffer], and no buffer is requested. *)
Theorem dequeueBuffer_source_cache_hit source format st result sslot fence w1 :
  0 < NUM_BUFFER_SLOTS <= 32 ->
  well_formed (self st) ->
  src_dequeueBuffer source (mSinkBufferWidth (self st)) (mSinkBufferHeight (self st))
    format (mProducerUsage (self st)) (world st) = ((result, sslot, fence), w1) ->
  0 <= result ->
  0 <= mapSource2ProducerSlot source sslot < NUM_BUFFER_SLOTS ->
  owner (mProducerSlotSource (self st)) (mapSource2ProducerSlot source sslot) = source ->
  Z.land result BUFFER_NEEDS_REALLOCATION = 0 ->
  Z.land result RELEASE_ALL_BUFFERS = 0 ->
  dequeueBuffer_source source format st =
    Some ((result, sslot, fence),
          mkState (self st) w1
            (log st ++ [SrcDequeueBuffer source (mSinkBufferWidth (self st))
                          (mSinkBufferHeight (self st)) format (mProducerUsage (self st))])).
Proof.
  intros HN Hwf Hdq Hres Hp Hown Hre Hrel.
  destruct (dequeueBuffer_source_spec source format st result sslot fence w1
              HN Hwf Hdq Hres Hp) as (bufs' & old & Hrun & Hlen & Hold & Hnew & Hother).
  cbn zeta in *. rewrite Hrun. clear Hrun.
  unfold dequeue_flags, dequeue_mask in *.
  destruct (decide (owner _ _ = source)); [|contradiction].
  rewrite (bool_decide_eq_false_2 (Z.land result BUFFER_NEEDS_REALLOCATION <> 0)) in *
    by (intros Hne; apply Hne; exact Hre).
  rewrite (bool_decide_eq_false_2 (Z.land result RELEASE_ALL_BUFFERS <> 0)) in *
    by (intros Hne; apply Hne; exact Hrel).
  assert (Hsame : bufs' = mProducerBuffers (self st)).
  { apply list_eq. intros i.
    destruct (decide (i = Z.to_nat (mapSource2ProducerSlot source sslot))) as [->|Hi].
    - rewrite Hnew. exact Hold.
    - specialize (Hother (Z.of_nat i)). rewrite Nat2Z.id in Hother.
      rewrite Hother by lia.
      destruct (decide (false = true /\ _)) as [[? _]|]; [discriminate | reflexivity]. }
  rewrite Hsame, set_mProducerSlotSource_eta, set_mProducerBuffers_eta. reflexivity.
Qed.

End CacheHit.

(** ** A sink buffer, from [advanceFrame] to [onFrameCommitted] *)

Section SinkRoundTrip.
Context {hdr : Header} {World : Type} {env : Collaborators World}.
Implicit Types st : State World.

Lemma stays_object_advanceFrame_submit outFence :
  stays same_object any_event (advanceFrame_submit outFence : M World _).
Proof.
  unfold advanceFrame_submit.
  repeat (stays_step; try first [exact I | reflexivity]).
Qed.

(** The object [advanceFrame] leaves when its dequeue from the sink has
    succeeded, whatever the hardware composer answers afterwards. *)
Lemma advanceFrame_dequeued st r st1 result sslot fence w1 :
  0 < NUM_BUFFER_SLOTS <= 32 ->
  0 <= BUFFER_NEEDS_REALLOCATION ->
  well_formed (self st) ->
  0 <= mDisplayId (self st) ->
  mCompositionType (self st) <> COMPOSITION_GLES ->
  src_dequeueBuffer SOURCE_SINK (qbo_width (mQueueBufferOutput (self st)))
    (qbo_height (mQueueBufferOutput (self st))) 0 (mProducerUsage (self st)) (world st)
    = ((result, sslot, fence), w1) ->
  0 <= result ->
  0 <= sslot < NUM_BUFFER_SLOTS ->
  advanceFrame st = Some (r, st1) ->
  mOutputProducerSlot (self st1) = sslot
  /\ mDisplayId (self st1) = mDisplayId (self st)
  /\ mSinkBufferWidth (self st1) = qbo_width (mQueueBufferOutput (self st))
  /\ mSinkBufferHeight (self st1) = qbo_height (mQueueBufferOutput (self st)).
Proof.
  intros HN Hflag Hwf Hid Hct Hdq Hres Hs.
  unfold advanceFrame, advanceFrame_route. run.
  destruct (decide (mDisplayId (self st) < 0)); [lia|]. run.
  set (warn := if decide (mCompositionType (self st) = COMPOSITION_HWC) then _ else _).
  assert (Hwarn : exists evs,
            warn st = Some (tt, mkState (self st) (world st) (log st ++ evs))).
  { subst warn. destruct (decide _); rewrite run_LOGW_IF; eexists; reflexivity. }
  destruct Hwarn as (evs & ->). clearbody warn. clear warn. run.
  destruct (decide (mCompositionType (self st) <> COMPOSITION_GLES)); [|contradiction].
  run. set (st0 := mkState _ _ _).
  destruct (dequeueBuffer_source_spec SOURCE_SINK 0 st0 result sslot fence w1
              HN Hwf Hdq Hres Hs) as (bufs' & old & Hrun & _).
  cbn zeta in Hrun. rewrite Hrun. clear Hrun.
  set (result' := dequeue_flags _ _ _ _).
  assert (Hres' : 0 <= result').
  { subst result'. unfold dequeue_flags. case_decide; [lia|].
    apply Z.lor_nonneg. lia. }
  destruct (decide (result' < 0)); [lia|]. run.
  change (mapSource2ProducerSlot SOURCE_SINK sslot) with sslot.
  subst st0. fields.
  destruct (decide (mCompositionType (self st) = COMPOSITION_HWC)).
  - run. intros Hsub. apply stays_object_advanceFrame_submit in Hsub as [-> _].
    fields. auto.
  - destruct (decide (mCompositionType (self st) = COMPOSITION_GLES)); [contradiction|].
    run. intros Hsub. apply stays_object_advanceFrame_submit in Hsub as [-> _].
    fields. auto.
Qed.

(** X13.  Outside GLES mode, the native slot [advanceFrame] has dequeued
    from the sink is the slot [onFrameCommitted] queues to the sink,
    whatever [advanceFrame] has returned after the dequeue; the crop is
    that of the stored [QueueBufferOutput], and no other call to a
    source is made at commit. *)
Theorem sink_buffer_round_trip st r st1 st2 result sslot fence w1 :
  0 < NUM_BUFFER_SLOTS <= 32 ->
  0 <= BUFFER_NEEDS_REALLOCATION ->
  well_formed (self st) ->
  0 <= mDisplayId (self st) ->
  mCompositionType (self st) <> COMPOSITION_GLES ->
  src_dequeueBuffer SOURCE_SINK (qbo_width (mQueueBufferOutput (self st)))
    (qbo_height (mQueueBufferOutput (self st))) 0 (mProducerUsage (self st)) (world st)
    = ((result, sslot, fence), w1) ->
  0 <= result ->
  0 <= sslot < NUM_BUFFER_SLOTS ->
  advanceFrame st = Some (r, st1) ->
  onFrameCommitted st1 = Some (tt, st2) ->
  exists now outFence,
    filter (fun e => is_source_call e = true) (new_events st1 st2) =
      [SrcQueueBuffer SOURCE_SINK sslot
         (mkQueueBufferInput now
            (Rect_wh (qbo_width (mQueueBufferOutput (self st)))
               (qbo_height (mQueueBufferOutput (self st))))
            NATIVE_WINDOW_SCALING_MODE_FREEZE 0 outFence)].
Proof.
  intros HN Hflag Hwf Hid Hct Hdq Hres Hs Hadv Hcommit.
  destruct (advanceFrame_dequeued st r st1 result sslot fence w1
              HN Hflag Hwf Hid Hct Hdq Hres Hs Hadv) as (Hout & Hid1 & Hw & Hh).
  assert (Hid' : 0 <= mDisplayId (self st1)) by (rewrite Hid1; exact Hid).
  destruct (onFrameCommitted_inv st1 st2 Hid' Hcommit)
    as (fbFence & w2 & release & w3 & queue & _ & Hrelease & Hqueue & Hlog & _).
  cbn zeta in *. apply new_events_app in Hlog. rewrite Hlog.
  rewrite Hout, Hw, Hh in Hqueue.
  destruct (decide (sslot >= 0)); [|lia].
  destruct Hqueue as (outFence & w4 & now & w5 & res & qbo & _ & _ & _ & -> & _).
  exists now, outFence.
  assert (Hr : filter (fun e => is_source_call e = true) release = []).
  { destruct (decide (_ /\ _)).
    - destruct Hrelease as (? & ? & ? & ? & _ & _ & _ & ->). reflexivity.
    - destruct Hrelease as (-> & _). reflexivity. }
  rewrite filter_app, filter_cons, filter_app, Hr.
  destruct (bool_decide _); reflexivity.
Qed.

End SinkRoundTrip.

(** ** Invariants of the reachable states *)

Section Keeps.
Context {World : Type}.
Context (P : VirtualDisplaySurface -> Prop) (Q : Event -> Prop).

#[global] Instance preserves_order : ObjectOrder (preserves P).
Proof.
  split.
  - intros v Hv. exact Hv.
  - intros v1 v2 v3 H12 H23 Hv. exact (H23 (H12 Hv)).
Qed.

Lemma stays_keeps {A} (m : M World A) : stays (preserves P) Q m -> keeps P Q m.
Proof.
  intros Hm s a s' HP Hrun. apply Hm in Hrun as [Ho Hev].
  split; [exact (Ho HP) | exact Hev].
Qed.

Lemma keeps_bind {A B} (m : M World A) (f : A -> M World B) :
  keeps P Q m -> (forall a, keeps P Q (f a)) -> keeps P Q (m ≫= f).
Proof.
  intros Hm Hf s b s' HP. rewrite run_bind.
  destruct (m s) as [[a s1]|] eqn:Hrun; [|discriminate]. intros Hrun'.
  apply Hm in Hrun as (HP1 & evs1 & Hl1 & Hq1); [|exact HP].
  apply Hf in Hrun' as (HP2 & evs2 & Hl2 & Hq2); [|exact HP1].
  split; [exact HP2|].
  exists (evs1 ++ evs2). rewrite Hl2, Hl1, app_assoc.
  split; [reflexivity|]. apply Forall_app. auto.
Qed.

(** What is read from an object that satisfies [P] may be used in the
    events that follow. *)
Lemma keeps_read_bind {A B} (f : VirtualDisplaySurface -> A) (k : A -> M World B) :
  (forall v, P v -> keeps P Q (k (f v))) -> keeps P Q (read f ≫= k).
Proof.
  intros Hk s b s' HP. rewrite run_bind, run_read. apply (Hk (self s) HP s b s' HP).
Qed.

End Keeps.

(** [keeps_step] takes a computation apart as [stays_step] does, and
    remembers of which object a field was read. *)
Ltac keeps_step :=
  lazymatch goal with
  | |- keeps _ _ (read _ ≫= _) => apply keeps_read_bind; intros ? ?; cbn beta
  | |- keeps _ _ (_ ≫= _) => apply keeps_bind; [| intros ?]
  | |- keeps _ _ (if ?c then _ else _) => destruct c
  | |- keeps _ _ (match ?x with _ => _ end) => destruct x
  | |- keeps _ _ _ => apply stays_keeps; stays_step
  end.

Section Invariants.
Context {hdr : Header} {World : Type} {env : Collaborators World}
  {conn : Connection World}.
Implicit Types st : State World.

Ltac usage_side :=
  first [ exact I | assumption | intros ? Hv; exact Hv
        | intros ? _; apply land_lor_same ].

Lemma keeps_usage_set_buffer_at i b :
  keeps hwc_usage dequeues_for_composer (set_buffer_at i b : M World unit).
Proof.
  apply stays_keeps. eapply stays_weaken; [| | apply stays_set_buffer_at].
  - intros v v' (mask & bufs & -> & _) Hv. exact Hv.
  - intros e He. exact He.
Qed.

Lemma keeps_usage_release_all_loop sourceBit todo i :
  keeps hwc_usage dequeues_for_composer (release_all_loop sourceBit todo i : M World unit).
Proof.
  apply stays_keeps. eapply stays_weaken; [| | apply stays_release_all_loop].
  - intros v v' (mask & bufs & -> & _) Hv. exact Hv.
  - intros e He. exact He.
Qed.

Lemma keeps_usage_dequeueBuffer_source source format :
  keeps hwc_usage dequeues_for_composer (dequeueBuffer_source source format : M World _).
Proof.
  unfold dequeueBuffer_source.
  repeat (keeps_step; try usage_side).
  all: first [apply keeps_usage_release_all_loop | apply keeps_usage_set_buffer_at].
Qed.

Ltac usage_steps :=
  repeat (keeps_step; try usage_side);
  try apply keeps_usage_dequeueBuffer_source.

Lemma keeps_usage_perform c :
  keeps hwc_usage dequeues_for_composer (perform c : M World unit).
Proof.
  destruct c; cbn [perform].
  - unfold prepareFrame. usage_steps.
  - unfold compositionComplete. usage_steps.
  - unfold advanceFrame, advanceFrame_route, advanceFrame_submit. usage_steps.
  - unfold onFrameCommitted, resetPerFrameState, updateQueueBufferOutput. usage_steps.
  - unfold requestBuffer. usage_steps.
  - unfold dequeueBuffer. usage_steps.
  - unfold queueBuffer, mSlots_mFence. usage_steps.
  - unfold cancelBuffer. usage_steps.
  - unfold connect, updateQueueBufferOutput. usage_steps.
Qed.

Lemma reachable_performs cs : forall st st',
  reachable st -> performs cs st = Some (tt, st') -> reachable st'.
Proof.
  induction cs as [|c cs IH]; intros st st' Hreach; cbn [performs].
  - intros [= <-]. exact Hreach.
  - rewrite run_bind. destruct (perform c st) as [[[] st1]|] eqn:Hc; [|discriminate].
    apply IH. exact (reachable_call c st st1 Hreach Hc).
Defined.

(** X3.  In every state the surface gets into, from construction
    through any number of calls that return, the usage bits kept for
    the next dequeue include [GRALLOC_USAGE_HW_COMPOSER], and every
    [dequeueBuffer] made on the sink or on the scratch pool has asked
    for it. *)
Theorem reachable_composer_usage st :
  reachable st ->
  hwc_usage (self st) /\ Forall dequeues_for_composer (log st).
Proof.
  induction 1 as [dispId qbo w | c st st' _ [IHu IHl] Hrun].
  - split; [apply Z.land_diag | constructor].
  - destruct (keeps_usage_perform c st tt st' IHu Hrun) as (Hu & evs & -> & Hevs).
    split; [exact Hu|]. apply Forall_app. auto.
Qed.

Lemma stays_table_connect api :
  stays same_table any_event (connect api : M World _).
Proof.
  unfold connect, updateQueueBufferOutput.
  repeat (stays_step; try first [exact I | intros ?; split; reflexivity]).
Qed.

Lemma stays_size_perform c : stays same_size any_event (perform c : M World unit).
Proof.
  assert (Hany : forall Q (e : Event), Q e -> any_event e) by (intros; exact I).
  pose proof same_table_size as Htable.
  assert (Hsize : forall v v', same_size v v' -> same_size v v') by auto.
  destruct c; cbn [perform];
    try (apply stays_bind; [exact _ | | intros ?; apply stays_ret; exact _]).
  - eapply stays_weaken; [| | apply stays_table_prepareFrame]; eauto.
  - apply stays_ret; exact _.
  - eapply stays_weaken; [| | apply stays_size_advanceFrame]; eauto.
  - eapply stays_weaken; [| | apply stays_table_onFrameCommitted]; eauto.
  - eapply stays_weaken; [| | apply stays_table_requestBuffer]; eauto.
  - eapply stays_weaken; [| | apply stays_size_dequeueBuffer]; eauto.
  - eapply stays_weaken; [| | apply stays_table_queueBuffer]; eauto.
  - eapply stays_weaken; [| | apply stays_table_cancelBuffer]; eauto.
  - eapply stays_weaken; [| | apply stays_table_connect]; eauto.
Qed.

(** X1.  In every state the surface gets into, from construction
    through any number of calls of its public member functions that
    return, the table of buffer records has [NUM_BUFFER_SLOTS]
    entries. *)
Theorem reachable_well_formed st : reachable st -> well_formed (self st).
Proof.
  induction 1 as [dispId qbo w | c st st' _ IH Hrun].
  - unfold well_formed, constructed. cbn [self mProducerBuffers].
    apply length_replicate.
  - unfold well_formed in *. rewrite <- IH.
    eapply (stays_size_perform c), Hrun.
Qed.

End Invariants.

(** ** The debug state machine *)

Section DebugStates.
Context {hdr : Header} {World : Type} {env : Collaborators World}
  {conn : Connection World}.
Implicit Types st : State World.

Local Abbreviation quiet := (fun e : Event => is_state_warning e = false).
Local Abbreviation warnings :=
  (filter (fun e : Event => is_state_warning e = true)).

Lemma warnings_quiet evs : Forall quiet evs -> warnings evs = [].
Proof.
  induction 1 as [|e evs He _ IH]; [reflexivity|].
  rewrite filter_cons, IH. destruct (decide _); [congruence | reflexivity].
Qed.

(** The head of a member function that sets the state: the check, the
    assignment, and a rest that neither touches the state nor logs a
    state warning. *)
Lemma warn_then {A} (c : bool) msg dbg (rest : M World A) st r st' :
  String.prefix "Unexpected" msg = true ->
  stays same_dbg quiet rest ->
  (VDS_LOGW_IF c msg ≫= fun _ => update (set_mDbgState dbg) ≫= fun _ => rest) st
    = Some (r, st') ->
  mDbgState (self st') = dbg
  /\ (warnings (new_events st st') = [] <-> c = false).
Proof.
  intros Hmsg Hrest. rewrite run_bind, run_LOGW_IF, run_bind, run_update.
  intros Hrun. apply Hrest in Hrun as (Hdbg & evs & Hlog & Hq).
  cbn [self log] in Hdbg, Hlog. split; [exact Hdbg|].
  rewrite <- app_assoc in Hlog. apply new_events_app in Hlog. rewrite Hlog.
  rewrite filter_app, (warnings_quiet evs Hq), app_nil_r.
  destruct c.
  - rewrite filter_cons. cbn [is_state_warning]. rewrite Hmsg.
    destruct (decide (true = true)); [|congruence]. split; discriminate.
  - split; reflexivity.
Qed.

(** The head of a member function that only checks the state. *)
Lemma warn_only {A} (c : bool) msg (rest : M World A) st r st' :
  String.prefix "Unexpected" msg = true ->
  stays same_dbg quiet rest ->
  (VDS_LOGW_IF c msg ≫= fun _ => rest) st = Some (r, st') ->
  mDbgState (self st') = mDbgState (self st)
  /\ (warnings (new_events st st') = [] <-> c = false).
Proof.
  intros Hmsg Hrest. rewrite run_bind, run_LOGW_IF.
  intros Hrun. apply Hrest in Hrun as (Hdbg & evs & Hlog & Hq).
  cbn [self log] in Hdbg, Hlog. split; [exact Hdbg|].
  rewrite <- app_assoc in Hlog. apply new_events_app in Hlog. rewrite Hlog.
  rewrite filter_app, (warnings_quiet evs Hq), app_nil_r.
  destruct c.
  - rewrite filter_cons. cbn [is_state_warning]. rewrite Hmsg.
    destruct (decide (true = true)); [|congruence]. split; discriminate.
  - split; reflexivity.
Qed.

Lemma check_passes (dbg expected : DbgState) :
  bool_decide (dbg <> expected) = false <-> dbg = expected.
Proof.
  rewrite bool_decide_eq_false. split; [apply dec_stable | auto].
Qed.

Ltac dbg_side :=
  first [ reflexivity | exact I | intros ?; reflexivity
        | eapply stays_weaken; [| | apply stays_dequeueBuffer_source];
          [ intros ? ? (? & ? & -> & _); reflexivity
          | intros []; cbn; first [tauto | congruence | reflexivity] ] ].

Ltac dbg_rest := repeat (stays_step; try dbg_side).

Lemma stays_dbg_advanceFrame_submit outFence :
  stays same_dbg quiet (advanceFrame_submit outFence : M World _).
Proof. unfold advanceFrame_submit. dbg_rest. Qed.

(** One call: the state it leaves, and whether it has logged a state
    warning. *)
Lemma perform_dbg c st st' :
  0 <= mDisplayId (self st) ->
  perform c st = Some (tt, st') ->
  mDbgState (self st') = next_state c (mDbgState (self st))
  /\ (warnings (new_events st st') = [] <->
      in_order c (mDbgState (self st)) (mCompositionType (self st))).
Proof.
  intros Hid. unfold in_order.
  destruct c; cbn [perform next_state expected_state].
  - (* prepareFrame *)
    rewrite run_bind. unfold prepareFrame. rewrite run_bind, run_read.
    destruct (decide (mDisplayId (self st) < 0)); [lia|].
    rewrite run_bind, run_read.
    match goal with
    | |- match ?m st with _ => _ end = _ -> _ =>
        destruct (m st) as [[r st1]|] eqn:Hrun; [|discriminate]
    end.
    rewrite run_ret. intros [= <-].
    apply warn_then in Hrun; [|reflexivity|dbg_rest].
    rewrite check_passes in Hrun. exact Hrun.
  - (* compositionComplete *)
    unfold compositionComplete. run. intros [= <-].
    split; [reflexivity|]. unfold new_events. rewrite drop_all. tauto.
  - (* advanceFrame *)
    rewrite run_bind. unfold advanceFrame. rewrite run_bind, run_read.
    destruct (decide (mDisplayId (self st) < 0)); [lia|].
    rewrite run_bind.
    destruct (advanceFrame_route st) as [[routed st1]|] eqn:Hroute; [|discriminate].
    assert (H1 : mDbgState (self st1) = DBG_STATE_HWC
                 /\ (warnings (new_events st st1) = [] <->
                     mDbgState (self st) =
                       if decide (mCompositionType (self st) = COMPOSITION_HWC)
                       then DBG_STATE_PREPARED else DBG_STATE_GLES_DONE)
                 /\ exists evs, log st1 = log st ++ evs).
    { revert Hroute. unfold advanceFrame_route.
      rewrite run_bind, run_read, run_bind, run_read. intros Hroute.
      assert (Hlog : exists evs, log st1 = log st ++ evs).
      { eapply (stays_weaken any_object any_object any_event any_event) in Hroute;
          [destruct Hroute as [_ (evs & Hl & _)]; eauto | auto | auto |].
        repeat (stays_step; try first [exact I | intros ?; exact I]).
        eapply stays_weaken; [| | apply stays_dequeueBuffer_source];
          intros; exact I. }
      destruct (decide (mCompositionType (self st) = COMPOSITION_HWC));
        (apply warn_then in Hroute; [|reflexivity|dbg_rest]);
        rewrite check_passes in Hroute; destruct Hroute; auto. }
    destruct H1 as (Hdbg1 & Hwarn1 & evs1 & Hlog1).
    destruct routed as [result|outFence].
    + rewrite !run_ret. intros [= <-]. auto.
    + destruct (advanceFrame_submit outFence st1) as [[r st2]|] eqn:Hsub; [|discriminate].
      rewrite run_ret. intros [= <-].
      apply stays_dbg_advanceFrame_submit in Hsub as (Hdbg2 & evs2 & Hlog2 & Hq2).
      split; [rewrite Hdbg2; exact Hdbg1|].
      rewrite <- Hwarn1. rewrite Hlog1 in Hlog2. rewrite <- app_assoc in Hlog2.
      apply new_events_app in Hlog1, Hlog2. rewrite Hlog1, Hlog2.
      rewrite filter_app, (warnings_quiet evs2 Hq2), app_nil_r. tauto.
  - (* onFrameCommitted *)
    unfold onFrameCommitted. rewrite run_bind, run_read.
    destruct (decide (mDisplayId (self st) < 0)); [lia|].
    rewrite run_bind, run_read. intros Hrun.
    apply warn_then in Hrun;
      [|reflexivity|unfold resetPerFrameState, updateQueueBufferOutput; dbg_rest].
    rewrite check_passes in Hrun. exact Hrun.
  - (* requestBuffer *)
    rewrite run_bind. unfold requestBuffer. rewrite run_bind, run_read.
    match goal with
    | |- match ?m st with _ => _ end = _ -> _ =>
        destruct (m st) as [[r st1]|] eqn:Hrun; [|discriminate]
    end.
    rewrite run_ret. intros [= <-].
    apply warn_only in Hrun; [|reflexivity|dbg_rest].
    rewrite check_passes in Hrun. exact Hrun.
  - (* dequeueBuffer *)
    rewrite run_bind. unfold dequeueBuffer. rewrite run_bind, run_read.
    match goal with
    | |- match ?m st with _ => _ end = _ -> _ =>
        destruct (m st) as [[r st1]|] eqn:Hrun; [|discriminate]
    end.
    rewrite run_ret. intros [= <-].
    apply warn_then in Hrun; [|reflexivity|dbg_rest].
    rewrite check_passes in Hrun. exact Hrun.
  - (* queueBuffer *)
    rewrite run_bind. unfold queueBuffer. rewrite run_bind, run_read.
    match goal with
    | |- match ?m st with _ => _ end = _ -> _ =>
        destruct (m st) as [[r st1]|] eqn:Hrun; [|discriminate]
    end.
    rewrite run_ret. intros [= <-].
    apply warn_then in Hrun; [|reflexivity|unfold mSlots_mFence; dbg_rest].
    rewrite check_passes in Hrun. exact Hrun.
  - (* cancelBuffer *)
    unfold cancelBuffer. rewrite run_bind, run_read. intros Hrun.
    apply warn_only in Hrun; [|reflexivity|dbg_rest].
    rewrite check_passes in Hrun. exact Hrun.
  - (* connect *)
    intros Hrun.
    assert (Hconnect : stays same_dbg quiet (connect api;; mret tt : M World unit))
      by (unfold connect, updateQueueBufferOutput; dbg_rest).
    apply Hconnect in Hrun as (Hdbg & evs & Hlog & Hq).
    split; [exact Hdbg|].
    rewrite (new_events_app _ _ _ Hlog), (warnings_quiet evs Hq). tauto.
Qed.


Ltac type_side :=
  first [ exact I | intros ?; split; reflexivity
        | eapply stays_weaken; [| | apply stays_dequeueBuffer_source];
          [ intros ? ? (? & ? & -> & _); split; reflexivity
          | intros; exact I ] ].

Ltac type_rest := repeat (stays_step; try type_side).

(** One call: the composition type it leaves; the display stays. *)
Lemma perform_type c st st' :
  0 <= mDisplayId (self st) ->
  perform c st = Some (tt, st') ->
  mCompositionType (self st') = next_type c (mCompositionType (self st))
  /\ mDisplayId (self st') = mDisplayId (self st)
  /\ exists evs, log st' = log st ++ evs.
Proof.
  intros Hid Hrun.
  assert (Hlog : exists evs, log st' = log st ++ evs).
  { apply (stays_size_perform c) in Hrun as (_ & evs & Hl & _). eauto. }
  assert (Hstays : forall m : M World unit,
            stays same_type any_event m -> m st = Some (tt, st') ->
            mCompositionType (self st') = mCompositionType (self st)
            /\ mDisplayId (self st') = mDisplayId (self st)
            /\ exists evs, log st' = log st ++ evs).
  { intros m Hm Hr. apply Hm in Hr as ([Ht Hd] & _). auto. }
  revert Hrun. destruct c; cbn [perform next_type].
  - unfold prepareFrame. run.
    destruct (decide (mDisplayId (self st) < 0)); [lia|]. run.
    destruct (decide (_ <> _)); run; intros [= <-]; fields; auto.
  - apply Hstays. unfold compositionComplete. type_rest.
  - apply Hstays.
    unfold advanceFrame, advanceFrame_route, advanceFrame_submit. type_rest.
  - intros Hrun.
    destruct (onFrameCommitted_inv st st' Hid Hrun)
      as (_ & _ & _ & _ & _ & _ & _ & _ & _ & [Ht _] & Hd). auto.
  - apply Hstays. unfold requestBuffer. type_rest.
  - apply Hstays. unfold dequeueBuffer. type_rest.
  - apply Hstays. unfold queueBuffer, mSlots_mFence. type_rest.
  - apply Hstays. unfold cancelBuffer. type_rest.
  - apply Hstays. unfold connect, updateQueueBufferOutput. type_rest.
Qed.

(** X4.  For a display with a hardware composer, a sequence of calls
    that returns has logged no warning about an unexpected state
    exactly when every call came in the state its check asks for:
    [prepareFrame] in [DBG_STATE_IDLE], the renderer's [dequeueBuffer]
    in [DBG_STATE_PREPARED], [requestBuffer], [queueBuffer] and
    [cancelBuffer] in [DBG_STATE_GLES], [advanceFrame] in
    [DBG_STATE_PREPARED] on a HWC frame and in [DBG_STATE_GLES_DONE]
    otherwise, [onFrameCommitted] in [DBG_STATE_HWC].  The state the
    sequence leaves is that of the assignments, whether or not the
    calls came in order. *)
Theorem debug_state_machine cs : forall st st',
  0 <= mDisplayId (self st) ->
  performs cs st = Some (tt, st') ->
  mDbgState (self st') =
    fold_left (fun dbg c => next_state c dbg) cs (mDbgState (self st))
  /\ (warnings (new_events st st') = [] <->
      calls_in_order cs (mDbgState (self st)) (mCompositionType (self st))).
Proof.
  assert (Hgen : forall st st',
    0 <= mDisplayId (self st) ->
    performs cs st = Some (tt, st') ->
    (mDbgState (self st') =
       fold_left (fun dbg c => next_state c dbg) cs (mDbgState (self st))
     /\ (warnings (new_events st st') = [] <->
         calls_in_order cs (mDbgState (self st)) (mCompositionType (self st))))
    /\ exists evs, log st' = log st ++ evs).
  { induction cs as [|c cs IH]; intros st st' Hid; cbn [performs fold_left calls_in_order].
    - run. intros [= <-]. unfold new_events. rewrite drop_all.
      split; [split; [reflexivity | tauto]|]. exists []. symmetry. apply app_nil_r.
    - rewrite run_bind.
      destruct (perform c st) as [[[] st1]|] eqn:Hc; [|discriminate]. intros Hcs.
      destruct (perform_dbg c st st1 Hid Hc) as [Hdbg1 Hwarn1].
      destruct (perform_type c st st1 Hid Hc) as (Htype1 & Hid1 & evs1 & Hlog1).
      rewrite <- Hid1 in Hid.
      destruct (IH st1 st' Hid Hcs) as ([Hdbg2 Hwarn2] & evs2 & Hlog2).
      rewrite Hdbg1, Htype1 in *.
      split; [split; [exact Hdbg2|]|].
      + rewrite <- Hwarn1, <- Hwarn2.
        pose proof Hlog2 as Hlog. rewrite Hlog1, <- app_assoc in Hlog.
        apply new_events_app in Hlog1, Hlog2, Hlog. rewrite Hlog1, Hlog2, Hlog.
        rewrite filter_app. split.
        * intros Happ. apply app_eq_nil in Happ. exact Happ.
        * intros [-> ->]. reflexivity.
      + exists (evs1 ++ evs2). rewrite Hlog2, Hlog1, app_assoc. reflexivity. }
  intros st st' Hid Hrun. apply (Hgen st st' Hid Hrun).
Qed.

(** *** The per-frame fields in [DBG_STATE_IDLE] *)

Lemma dequeueBuffer_leaves_GLES w h format usage st r st' :
  dequeueBuffer w h format usage st = Some (r, st') ->
  mDbgState (self st') = DBG_STATE_GLES.
Proof.
  unfold dequeueBuffer. rewrite run_bind, run_read. intros Hrun.
  apply warn_then in Hrun; [|reflexivity|dbg_rest]. apply Hrun.
Qed.

Lemma queueBuffer_leaves_GLES_DONE pslot input st r st' :
  queueBuffer pslot input st = Some (r, st') ->
  mDbgState (self st') = DBG_STATE_GLES_DONE.
Proof.
  unfold queueBuffer. rewrite run_bind, run_read. intros Hrun.
  apply warn_then in Hrun; [|reflexivity|unfold mSlots_mFence; dbg_rest]. apply Hrun.
Qed.

Ltac phase_rest :=
  repeat (stays_step; try first [exact I | intros ?; repeat split; reflexivity]).

(** One call keeps [idle_is_reset]: it leaves another state than
    [DBG_STATE_IDLE], or it leaves the per-frame fields alone, or it is
    [onFrameCommitted]. *)
Lemma perform_idle c st st' :
  idle_is_reset (self st) -> perform c st = Some (tt, st') ->
  idle_is_reset (self st').
Proof.
  intros Hidle.
  assert (Hsame : forall m : M World unit,
            stays same_phase any_event m -> m st = Some (tt, st') ->
            idle_is_reset (self st')).
  { intros m Hm Hrun. apply Hm in Hrun as ((Hd & Ht & Hw & Hh & Hf & Hfb & Hout) & _).
    unfold idle_is_reset, frame_reset in *.
    rewrite Hd, Ht, Hw, Hh, Hf, Hfb, Hout. exact Hidle. }
  assert (Hbusy : mDbgState (self st') <> DBG_STATE_IDLE -> idle_is_reset (self st')).
  { intros Hne Hd. contradiction. }
  destruct (decide (mDisplayId (self st) < 0)) as [Hno|Hid].
  - (* without hardware composer the frame protocol does nothing *)
    destruct c; cbn [perform].
    + unfold prepareFrame. run. destruct (decide _); [|lia]. run.
      intros [= <-]. exact Hidle.
    + apply Hsame. unfold compositionComplete. phase_rest.
    + unfold advanceFrame. run. destruct (decide _); [|lia]. run.
      intros [= <-]. exact Hidle.
    + unfold onFrameCommitted. run. destruct (decide _); [|lia]. run.
      intros [= <-]. exact Hidle.
    + apply Hsame. unfold requestBuffer. phase_rest.
    + rewrite run_bind.
      destruct (dequeueBuffer _ _ _ _ st) as [[r st1]|] eqn:Hrun; [|discriminate].
      rewrite run_ret. intros [= <-]. apply Hbusy.
      rewrite (dequeueBuffer_leaves_GLES _ _ _ _ _ _ _ Hrun). discriminate.
    + rewrite run_bind.
      destruct (queueBuffer _ _ st) as [[r st1]|] eqn:Hrun; [|discriminate].
      rewrite run_ret. intros [= <-]. apply Hbusy.
      rewrite (queueBuffer_leaves_GLES_DONE _ _ _ _ _ Hrun). discriminate.
    + apply Hsame. unfold cancelBuffer. phase_rest.
    + apply Hsame. unfold connect, updateQueueBufferOutput. phase_rest.
  - assert (Hid' : 0 <= mDisplayId (self st)) by lia.
    intros Hrun. pose proof (perform_dbg c st st' Hid' Hrun) as [Hdbg _].
    revert Hrun. destruct c; cbn [perform next_state] in *;
      try (intros _; apply Hbusy; rewrite Hdbg; discriminate).
    + apply Hsame. unfold compositionComplete. phase_rest.
    + intros Hrun.
      destruct (onFrameCommitted_inv st st' Hid' Hrun)
        as (_ & _ & _ & _ & _ & _ & _ & _ & _ & Hreset & _).
      intros _. exact Hreset.
    + apply Hsame. unfold requestBuffer. phase_rest.
    + apply Hsame. unfold cancelBuffer. phase_rest.
    + apply Hsame. unfold connect, updateQueueBufferOutput. phase_rest.
Qed.

Lemma idle_is_reset_invariant st :
  reachable st -> idle_is_reset (self st).
Proof.
  induction 1 as [dispId qbo w | c st st' _ IH Hrun].
  - intros _. repeat split.
  - exact (perform_idle c st st' IH Hrun).
Qed.

(** X23.  In every state the surface gets into, from construction
    through any number of calls that return, in order or not, the
    state [DBG_STATE_IDLE] comes with the six fields that
    [resetPerFrameState] writes as it leaves them: composition type
    unknown, sink buffer width and height 0, framebuffer fence
    [NO_FENCE], framebuffer slot and output slot -1.  Only these six
    are meant: of the fields [resetPerFrameState] does not write
    ([mProducerUsage], [mQueueBufferOutput], the ownership mask and the
    buffer records), which a frame may leave changed, nothing is
    said. *)
Theorem reachable_idle_is_reset st :
  reachable st -> mDbgState (self st) = DBG_STATE_IDLE -> frame_reset (self st).
Proof. intros Hreach. exact (idle_is_reset_invariant st Hreach). Qed.

End DebugStates.

(** ** The transform hint *)

Section TransformHint.
Context {hdr : Header} {World : Type} {env : Collaborators World}
  {conn : Connection World}.
Implicit Types st : State World.

Ltac hint_side :=
  first [ exact I | reflexivity | intros ? Hv; exact Hv | intros ? _; reflexivity
        | apply stays_keeps; eapply stays_weaken;
          [| | apply stays_dequeueBuffer_source];
          [ intros ? ? (? & ? & -> & _) Hv; exact Hv | intros; exact I ] ].

Lemma keeps_hint_perform c : keeps no_transform any_event (perform c : M World unit).
Proof.
  destruct c; cbn [perform].
  - unfold prepareFrame. repeat (keeps_step; try hint_side).
  - unfold compositionComplete. repeat (keeps_step; try hint_side).
  - unfold advanceFrame, advanceFrame_route, advanceFrame_submit.
    repeat (keeps_step; try hint_side).
  - unfold onFrameCommitted, resetPerFrameState, updateQueueBufferOutput.
    repeat (keeps_step; try hint_side).
  - unfold requestBuffer. repeat (keeps_step; try hint_side).
  - unfold dequeueBuffer. repeat (keeps_step; try hint_side).
  - unfold queueBuffer, mSlots_mFence. repeat (keeps_step; try hint_side).
  - unfold cancelBuffer. repeat (keeps_step; try hint_side).
  - unfold connect, updateQueueBufferOutput. repeat (keeps_step; try hint_side).
Qed.

Lemma keeps_hint_performs cs : keeps no_transform any_event (performs cs : M World unit).
Proof.
  induction cs as [|c cs IH]; cbn [performs].
  - apply stays_keeps, stays_ret. exact _.
  - apply keeps_bind; [apply keeps_hint_perform | intros _; exact IH].
Qed.

(** What a successful [connect] reports is what it has stored, and
    that has the transform hint 0. *)
Lemma connect_output api st r out st' :
  connect api st = Some ((r, Some out), st') ->
  out = mQueueBufferOutput (self st') /\ no_transform (self st').
Proof.
  unfold connect, unlogged. rewrite run_bind.
  destruct (src_connect api (world st)) as [[result qbo] w1].
  destruct (decide (result = NO_ERROR)); [|run; discriminate].
  unfold updateQueueBufferOutput. run. intros [= _ <- <-]. fields.
  split; reflexivity.
Qed.

(** What [queueBuffer] reports is what was stored when it was called. *)
Lemma queueBuffer_output pslot input st r out st' :
  queueBuffer pslot input st = Some ((r, Some out), st') ->
  out = mQueueBufferOutput (self st).
Proof.
  unfold queueBuffer, mSlots_mFence, peek. run. fields.
  destruct (decide (mCompositionType (self st) = COMPOSITION_MIXED)).
  - run. destruct (src_queueBuffer _ _ _ _) as [[r1 qbo] w1]. fields.
    destruct (decide (r1 <> NO_ERROR)); [run; discriminate|]. run.
    destruct (base_acquireBufferLocked w1) as [[r2 item] w2]. fields.
    destruct (decide (r2 <> NO_ERROR)); [run; discriminate|]. run.
    destruct (decide (0 <= mBuf item < NUM_BUFFER_SLOTS)); [|discriminate].
    run. intros [= _ <- _]. reflexivity.
  - run. intros [= _ <- _]. reflexivity.
Qed.

(** X22.  After a successful [connect], whatever calls follow, the
    renderer is never given a transform hint: the [QueueBufferOutput]
    that [connect] reports and the one every later [queueBuffer]
    reports have the transform hint 0. *)
Theorem renderer_sees_no_transform api st r out0 st0 cs st1 pslot input r' out st2 :
  connect api st = Some ((r, Some out0), st0) ->
  performs cs st0 = Some (tt, st1) ->
  queueBuffer pslot input st1 = Some ((r', Some out), st2) ->
  qbo_transformHint out0 = 0 /\ qbo_transformHint out = 0.
Proof.
  intros Hconnect Hcalls Hqueue.
  apply connect_output in Hconnect as [-> Hzero]. split; [exact Hzero|].
  apply queueBuffer_output in Hqueue as ->.
  apply (keeps_hint_performs cs st0 tt st1 Hzero Hcalls).
Qed.

End TransformHint.

(** ** The size the sources are asked for *)

Section DequeueSize.
Context {hdr : Header} {World : Type} {env : Collaborators World}
  {conn : Connection World}.
Implicit Types st : State World.

(** Whenever the source-level [dequeueBuffer] returns, its first call
    is the [dequeueBuffer] on the source, with the size and the usage
    the object holds, and the calls after it are [requestBuffer]s. *)
Lemma dequeueBuffer_source_first source format st r st' :
  dequeueBuffer_source source format st = Some (r, st') ->
  exists evs,
    log st' = log st ++
      SrcDequeueBuffer source (mSinkBufferWidth (self st)) (mSinkBufferHeight (self st))
        format (mProducerUsage (self st)) :: evs
    /\ Forall (fun e => is_requestBuffer_call e = true) evs.
Proof.
  unfold dequeueBuffer_source.
  rewrite run_bind, run_read, run_bind, run_read, run_bind, run_read.
  rewrite run_bind, run_call.
  destruct (src_dequeueBuffer _ _ _ _ _ _) as [[[result sslot] fence] w1].
  cbn [fst snd].
  match goal with
  | |- ?m ?s = Some _ -> _ =>
      assert (Hrest : stays any_object (fun e => is_requestBuffer_call e = true) m)
  end.
  { repeat (stays_step; try first [exact I | reflexivity | intros ?; exact I]).
    all: eapply stays_weaken;
      [| | first [apply stays_release_all_loop | apply stays_set_buffer_at]];
      first [intros; exact I | intros ? He; exact He]. }
  intros Hrun. apply Hrest in Hrun as (_ & evs & Hlog & Hevs).
  cbn [log] in Hlog. exists evs. rewrite Hlog, <- app_assoc. auto.
Qed.

(** X24.  In a frame that begins between two frames, the renderer's
    [dequeueBuffer] hands the width and height it is given to the sink,
    but not to the scratch pool: in MIXED mode the scratch pool is asked
    for a buffer of width 0 and height 0, its default size, whatever
    the renderer asks for.  In both cases the usage is the renderer's
    with [GRALLOC_USAGE_HW_COMPOSER], and this [dequeueBuffer] is the
    first call of the frame. *)
Theorem dequeueBuffer_size_by_mode st type w h format usage r st' :
  reachable st ->
  mDbgState (self st) = DBG_STATE_IDLE ->
  0 <= mDisplayId (self st) ->
  (prepareFrame type;; dequeueBuffer w h format usage) st = Some (r, st') ->
  exists evs,
    new_events st st' =
      SrcDequeueBuffer (fbSourceForCompositionType type)
        (if decide (type = COMPOSITION_MIXED) then 0 else w)
        (if decide (type = COMPOSITION_MIXED) then 0 else h)
        format (Z.lor usage GRALLOC_USAGE_HW_COMPOSER) :: evs
    /\ Forall (fun e => is_requestBuffer_call e = true) evs.
Proof.
  intros Hreach Hidle Hid.
  destruct (idle_is_reset_invariant st Hreach Hidle)
    as (_ & Hw & Hh & _).
  rewrite run_bind. unfold prepareFrame. run.
  destruct (decide (mDisplayId (self st) < 0)); [lia|]. run.
  rewrite Hidle.
  rewrite (bool_decide_eq_false_2 (DBG_STATE_IDLE <> DBG_STATE_IDLE))
    by (intros Hne; apply Hne; reflexivity).
  rewrite app_nil_r. fields.
  set (frame := if decide (type <> mDbgLastCompositionType (self st)) then _ else _).
  assert (Hframe : exists last,
    frame (mkState (set_mCompositionType type
                      (set_mDbgState DBG_STATE_PREPARED (self st)))
             (world st) (log st)) =
    Some (tt, mkState (set_mDbgLastCompositionType last
                         (set_mCompositionType type
                            (set_mDbgState DBG_STATE_PREPARED (self st))))
                (world st) (log st))).
  { subst frame. destruct (decide _).
    - exists type. reflexivity.
    - exists (mDbgLastCompositionType (self st)). run. destruct (self st); reflexivity. }
  destruct Hframe as [last ->]. clearbody frame. clear frame. run.
  rewrite dequeueBuffer_run. fields.
  rewrite (bool_decide_eq_false_2 (DBG_STATE_PREPARED <> DBG_STATE_PREPARED))
    by (intros Hne; apply Hne; reflexivity).
  rewrite app_nil_r.
  set (st1 := mkState _ _ _).
  destruct (dequeueBuffer_source _ _ st1) as [[[[result sslot] fence] st2]|] eqn:Hdq;
    [|discriminate].
  intros [= _ <-].
  apply dequeueBuffer_source_first in Hdq as (evs & Hlog & Hevs).
  exists evs. split; [|exact Hevs].
  apply new_events_app. rewrite Hlog. subst st1. cbn [self log].
  destruct (dequeue_entry_fields w h usage
              (set_mDbgLastCompositionType last
                 (set_mCompositionType type
                    (set_mDbgState DBG_STATE_PREPARED (self st)))))
    as (Hu' & Hw' & Hh' & _).
  rewrite Hu', Hw', Hh'. fields. rewrite Hw, Hh.
  destruct type; reflexivity.
Qed.

End DequeueSize.

(** ** The statements above at concrete inputs *)

Section MoreAndroidRuns.
#[local] Existing Instance android.

Ltac compute_it := vm_compute; repeat split; first [reflexivity | discriminate].

Lemma reachable_rendering : reachable (rendering COMPOSITION_MIXED).
Proof.
  apply (reachable_call (CallDequeueBuffer 1280 720 1 0) (prepared COMPOSITION_MIXED));
    [|compute_it].
  apply (reachable_call (CallPrepareFrame COMPOSITION_MIXED) power_on); [|compute_it].
  apply reachable_constructed.
Defined.

Lemma reachable_well_formed_witness :
  well_formed (self (rendering COMPOSITION_MIXED)).
Proof.
  apply (reachable_well_formed (rendering COMPOSITION_MIXED)).
  exact reachable_rendering.
Defined.

Lemma table_changes_only_on_dequeue_witness :
  mProducerSlotSource (self rendered_mixed) =
    mProducerSlotSource (self (rendering COMPOSITION_MIXED))
  /\ mProducerBuffers (self rendered_mixed) =
       mProducerBuffers (self (rendering COMPOSITION_MIXED)).
Proof.
  apply (table_changes_only_on_dequeue (rendering COMPOSITION_MIXED) rendered_mixed).
  right. right. left.
  exists 31, rendered, (NO_ERROR, Some (mkQueueBufferOutput 1280 720 0 0)).
  compute_it.
Defined.

Lemma reachable_composer_usage_witness :
  Forall dequeues_for_composer (log (rendering COMPOSITION_MIXED)).
Proof.
  apply (reachable_composer_usage (rendering COMPOSITION_MIXED)).
  exact reachable_rendering.
Defined.

Lemma debug_state_machine_witness :
  mDbgState (self (final_state (performs mixed_frame_calls) power_on)) = DBG_STATE_IDLE
  /\ filter (fun e => is_state_warning e = true)
       (new_events power_on (final_state (performs mixed_frame_calls) power_on)) = [].
Proof.
  destruct (debug_state_machine mixed_frame_calls power_on
              (final_state (performs mixed_frame_calls) power_on))
    as [Hdbg Hquiet]; [compute_it | compute_it |].
  split; [exact Hdbg|]. apply Hquiet. compute_it.
Defined.

Lemma advanceFrame_alphabet_witness :
  logs_only advance_event rendered_mixed (final_state advanceFrame rendered_mixed).
Proof.
  apply (advanceFrame_alphabet rendered_mixed NO_ERROR). compute_it.
Defined.

Lemma onFrameCommitted_alphabet_witness :
  logs_only commit_event (final_state advanceFrame rendered_mixed)
    (final_state onFrameCommitted (final_state advanceFrame rendered_mixed)).
Proof.
  apply (onFrameCommitted_alphabet (final_state advanceFrame rendered_mixed) tt).
  compute_it.
Defined.

Lemma queueBuffer_alphabet_witness :
  logs_only queue_event (rendering COMPOSITION_MIXED) rendered_mixed.
Proof.
  apply (queueBuffer_alphabet (rendering COMPOSITION_MIXED) 31 rendered
           (NO_ERROR, Some (mkQueueBufferOutput 1280 720 0 0))).
  compute_it.
Defined.

Lemma advanceFrame_dequeue_failure_witness :
  exists st',
    advanceFrame rendering_mixed = Some (-19, st')
    /\ mOutputProducerSlot (self st') = -1
    /\ mDbgState (self st') = DBG_STATE_HWC.
Proof.
  destruct (advanceFrame_dequeue_failure rendering_mixed (-19) 0 None stale_pool)
    as (st' & evs & Hrun & Hdbg & _ & Hout & _);
    [compute_it | compute_it | reflexivity | reflexivity |].
  exists st'. split; [exact Hrun|]. split; [exact Hout | exact Hdbg].
Defined.

Lemma advanceFrame_gles_witness :
  exists st' evs,
    advanceFrame rendered_gles = Some (NO_ERROR, st')
    /\ mOutputProducerSlot (self st') = 0
    /\ log st' = log rendered_gles ++ evs ++
         [HwcFbPost 0 (Some (FenceFd 55)) (Some 100);
          HwcSetOutputBuffer 0 (Some (FenceFd 55)) (Some 100)].
Proof.
  destruct (advanceFrame_gles rendered_gles (Some 100) 0 (world rendered_gles))
    as (st' & evs & Hrun & Hout & _ & _ & _ & _ & Hlog & _);
    [compute_it | reflexivity | compute_it | reflexivity | reflexivity |].
  exists st', evs. split; [exact Hrun|]. split; [exact Hout | exact Hlog].
Defined.

Lemma advanceFrame_mixed_witness :
  mOutputProducerSlot (self (final_state advanceFrame rendered_mixed)) = 0
  /\ owner (mProducerSlotSource (self (final_state advanceFrame rendered_mixed))) 0
     = SOURCE_SINK
  /\ mFbProducerSlot (self (final_state advanceFrame rendered_mixed)) = 31.
Proof.
  destruct (advanceFrame_mixed rendered_mixed (final_state advanceFrame rendered_mixed)
              1 0 (Some (FenceFd 20))
              (script_dequeue SOURCE_SINK (world rendered_mixed)).2)
    as (_ & Hfb & _ & Hout & Hown & _);
    [compute_it | compute_it | reflexivity | compute_it | reflexivity | compute_it
    | reflexivity | intros _; compute_it | compute_it |].
  split; [exact Hout|]. split; [exact Hown | exact Hfb].
Defined.

Lemma onFrameCommitted_scratch_release_witness :
  filter (fun e => is_base_call e = true)
    (new_events (final_state advanceFrame rendered_mixed)
       (final_state onFrameCommitted (final_state advanceFrame rendered_mixed))) =
  [BaseAddReleaseFenceLocked 0 (Some 100) (Some (FenceFd 7));
   BaseReleaseBufferLocked 0 (Some 100)].
Proof.
  destruct (onFrameCommitted_scratch_release (final_state advanceFrame rendered_mixed)
              (final_state onFrameCommitted (final_state advanceFrame rendered_mixed)))
    as [Hyes _]; [compute_it | compute_it |].
  destruct Hyes as (buf & Hbuf & Hevs); [compute_it | compute_it |].
  vm_compute in Hbuf. injection Hbuf as <-.
  etransitivity; [exact Hevs | vm_compute; reflexivity].
Defined.

Lemma onFrameCommitted_sink_queue_witness :
  exists input,
    filter (fun e => is_source_call e = true)
      (new_events (final_state advanceFrame rendered_mixed)
         (final_state onFrameCommitted (final_state advanceFrame rendered_mixed))) =
    [SrcQueueBuffer SOURCE_SINK 0 input]
    /\ qbi_crop input = Rect_wh 1280 720.
Proof.
  destruct (onFrameCommitted_sink_queue (final_state advanceFrame rendered_mixed)
              (final_state onFrameCommitted (final_state advanceFrame rendered_mixed)))
    as [Hyes _]; [compute_it | compute_it |].
  destruct Hyes as (w & outFence & w' & now & w'' & result & qbo & _ & _ & _ & Hevs & _);
    [compute_it|].
  eexists. split; [exact Hevs | vm_compute; reflexivity].
Defined.

Lemma sink_buffer_round_trip_witness :
  exists input,
    filter (fun e => is_source_call e = true)
      (new_events (final_state advanceFrame (prepared COMPOSITION_HWC))
         (final_state onFrameCommitted
            (final_state advanceFrame (prepared COMPOSITION_HWC)))) =
    [SrcQueueBuffer SOURCE_SINK 0 input].
Proof.
  destruct (sink_buffer_round_trip (prepared COMPOSITION_HWC) NO_ERROR
              (final_state advanceFrame (prepared COMPOSITION_HWC))
              (final_state onFrameCommitted
                 (final_state advanceFrame (prepared COMPOSITION_HWC)))
              1 0 (Some (FenceFd 20)) (script_dequeue SOURCE_SINK three_frames).2)
    as (now & outFence & Hevs);
    [compute_it | compute_it | reflexivity | compute_it | compute_it | reflexivity
    | compute_it | compute_it | compute_it | compute_it |].
  eexists. exact Hevs.
Defined.

Lemma dequeueBuffer_source_release_effect_witness :
  Z.land 3 RELEASE_ALL_BUFFERS <> 0
  /\ exists result' st',
       dequeueBuffer_source SOURCE_SCRATCH 1 third_prepared =
         Some ((result', 0, Some (FenceFd 12)), st')
       /\ mProducerBuffers (self st') !! 30%nat = Some (Some 102)
       /\ mProducerBuffers (self st') !! 0%nat = Some (Some 101).
Proof.
  split; [compute_it|].
  destruct (dequeueBuffer_source_release_effect SOURCE_SCRATCH 1 third_prepared
              3 0 (Some (FenceFd 12))
              (script_dequeue SOURCE_SCRATCH (world third_prepared)).2)
    as (result' & st' & Hrun & Hother);
    [compute_it | compute_it | compute_it | compute_it | compute_it |].
  exists result', st'. split; [exact Hrun|]. split.
  - etransitivity; [apply (Hother 30); compute_it|].
    destruct (decide _) as [(_ & Hsink & _)|];
      [discriminate Hsink | vm_compute; reflexivity].
  - etransitivity; [apply (Hother 0); compute_it|].
    destruct (decide _) as [(_ & Hsink & _)|];
      [discriminate Hsink | vm_compute; reflexivity].
Defined.

Lemma dequeueBuffer_source_cache_hit_witness :
  exists st',
    dequeueBuffer_source SOURCE_SINK 0
      (final_state (dequeueBuffer_source SOURCE_SINK 0) power_on) =
      Some ((0, 0, Some (FenceFd 21)), st')
    /\ self st' = self (final_state (dequeueBuffer_source SOURCE_SINK 0) power_on).
Proof.
  eexists. split.
  - apply (dequeueBuffer_source_cache_hit SOURCE_SINK 0
             (final_state (dequeueBuffer_source SOURCE_SINK 0) power_on)
             0 0 (Some (FenceFd 21))
             (script_dequeue SOURCE_SINK
                (world (final_state (dequeueBuffer_source SOURCE_SINK 0) power_on))).2);
      compute_it.
  - reflexivity.
Defined.

Lemma dequeueBuffer_failure_witness :
  exists st',
    dequeueBuffer 1280 720 1 0 rendering_mixed = Some ((-19, None, None), st')
    /\ mProducerBuffers (self st') = mProducerBuffers (self rendering_mixed).
Proof.
  destruct (dequeueBuffer_failure rendering_mixed 1280 720 1 0 (-19) 0 None stale_pool)
    as (st' & evs & Hrun & [_ Htable] & _); [reflexivity | reflexivity |].
  exists st'. split; [exact Hrun | exact Htable].
Defined.

Lemma dequeueBuffer_then_requestBuffer_witness :
  exists result st1 buf old,
    dequeueBuffer 1280 720 1 0 (prepared COMPOSITION_MIXED) =
      Some ((result, Some 31, Some (FenceFd 10)), st1)
    /\ requestBuffer 31 st1 = Some ((NO_ERROR, buf), st1)
    /\ Some old =
         (if bool_decide (Z.land result RELEASE_ALL_BUFFERS <> 0) then Some None
          else mProducerBuffers (self (prepared COMPOSITION_MIXED)) !! 31%nat).
Proof.
  destruct (dequeueBuffer_then_requestBuffer (prepared COMPOSITION_MIXED)
              1280 720 1 0 0 0 (Some (FenceFd 10))
              (script_dequeue SOURCE_SCRATCH three_frames).2)
    as (result & st1 & buf & old & Hdq & _ & Hreq & Hold & _);
    [compute_it | compute_it | compute_it | compute_it | compute_it | compute_it |].
  exists result, st1, buf, old. split; [exact Hdq|]. split; [exact Hreq | exact Hold].
Defined.

Lemma queueBuffer_gles_witness :
  exists st',
    queueBuffer 0 rendered (rendering COMPOSITION_GLES) =
      Some ((NO_ERROR, Some (mkQueueBufferOutput 1280 720 0 0)), st')
    /\ mFbProducerSlot (self st') = 0
    /\ mFbFence (self st') = Some (FenceFd 55).
Proof.
  destruct (queueBuffer_gles (rendering COMPOSITION_GLES) 0 rendered)
    as (st' & Hrun & Hfb & Hfence & _); [compute_it|].
  exists st'. split; [exact Hrun|]. split; [exact Hfb | exact Hfence].
Defined.

Lemma queueBuffer_mixed_failure_witness :
  exists st',
    queueBuffer (H0 := abandoned) 31 rendered orphaned = Some ((-19, None), st')
    /\ mFbProducerSlot (self st') = -1.
Proof.
  destruct (queueBuffer_mixed_failure (env := abandoned) orphaned 31 rendered
              (-19) (mkQueueBufferOutput 0 0 0 0) tt
              (-19) (mkBufferItem (-1) None) tt)
    as (st' & evs & Hrun & (Hfb & _) & _);
    [reflexivity | reflexivity | reflexivity | left; compute_it |].
  exists st'. split; [exact Hrun | exact Hfb].
Defined.

Lemma queueBuffer_mixed_round_trip_witness :
  exists st',
    queueBuffer 31 rendered (rendering COMPOSITION_MIXED) =
      Some ((NO_ERROR, Some (mkQueueBufferOutput 1280 720 0 0)), st')
    /\ mFbProducerSlot (self st') = 31
    /\ mFbFence (self st') = Some (FenceFd 55).
Proof.
  destruct (queueBuffer_mixed_round_trip (rendering COMPOSITION_MIXED) 31 rendered
              (mkQueueBufferOutput 1280 720 0 1)
              (script_queue SOURCE_SCRATCH 0 rendered
                 (world (rendering COMPOSITION_MIXED))).2
              (mkBufferItem 0 (Some (FenceFd 55)))
              (script_acquire
                 (script_queue SOURCE_SCRATCH 0 rendered
                    (world (rendering COMPOSITION_MIXED))).2).2)
    as (st' & evs & Hrun & Hfb & Hfence & _);
    [compute_it | compute_it | reflexivity | reflexivity | reflexivity | reflexivity |].
  exists st'. split; [exact Hrun|]. split; [exact Hfb | exact Hfence].
Defined.

Lemma cancelBuffer_returns_native_slot_witness :
  exists st',
    cancelBuffer 31 None (rendering COMPOSITION_MIXED) = Some (tt, st')
    /\ log st' = log (rendering COMPOSITION_MIXED) ++ [SrcCancelBuffer SOURCE_SCRATCH 0 None].
Proof.
  destruct (cancelBuffer_returns_native_slot (rendering COMPOSITION_MIXED) 0 None)
    as (st' & Hrun & _ & _ & Hlog); [compute_it | compute_it |].
  exists st'. split; [exact Hrun | exact Hlog].
Defined.

Lemma renderer_sees_no_transform_witness :
  qbo_transformHint (src_connect 1 three_frames).1.2 = 4
  /\ exists out st2,
       queueBuffer 0 rendered connected_rendering = Some ((NO_ERROR, Some out), st2)
       /\ qbo_transformHint out = 0.
Proof.
  split; [reflexivity|].
  exists (mkQueueBufferOutput 1280 720 0 0),
         (final_state (queueBuffer 0 rendered) connected_rendering).
  assert (Hqueue : queueBuffer 0 rendered connected_rendering =
                   Some ((NO_ERROR, Some (mkQueueBufferOutput 1280 720 0 0)),
                         final_state (queueBuffer 0 rendered) connected_rendering))
    by compute_it.
  split; [exact Hqueue|].
  apply (renderer_sees_no_transform 1 power_on NO_ERROR
           (mkQueueBufferOutput 1280 720 0 0) connected
           [CallPrepareFrame COMPOSITION_GLES; CallDequeueBuffer 1280 720 1 0]
           connected_rendering 0 rendered NO_ERROR
           (mkQueueBufferOutput 1280 720 0 0)
           (final_state (queueBuffer 0 rendered) connected_rendering));
    [compute_it | compute_it | exact Hqueue].
Defined.

Lemma reachable_idle_is_reset_witness :
  frame_reset (self (final_state (performs mixed_frame_calls) power_on)).
Proof.
  apply (reachable_idle_is_reset (final_state (performs mixed_frame_calls) power_on));
    [|compute_it].
  apply (reachable_performs mixed_frame_calls power_on); [|compute_it].
  apply reachable_constructed.
Defined.

Lemma dequeueBuffer_size_by_mode_witness :
  exists evs,
    new_events power_on (rendering COMPOSITION_MIXED) =
      SrcDequeueBuffer SOURCE_SCRATCH 0 0 1 2048 :: evs.
Proof.
  destruct (dequeueBuffer_size_by_mode power_on COMPOSITION_MIXED 1280 720 1 0
              (1, Some 31, Some (FenceFd 10)) (rendering COMPOSITION_MIXED))
    as (evs & Hevs & _);
    [apply reachable_constructed | compute_it | compute_it | compute_it |].
  exists evs. exact Hevs.
Defined.

Lemma advanceFrame_mixed_collision_witness :
  mProducerBuffers (self collided) !! 31%nat = Some (Some 100)
  /\ exists evs,
       log (final_state advanceFrame collided) = log collided ++ evs ++
         [HwcFbPost 0 (Some (FenceFd 55)) (Some 101);
          HwcSetOutputBuffer 0 (Some (FenceFd 20)) (Some 101)].
Proof.
  split; [compute_it|].
  destruct (advanceFrame_mixed_collision collided (final_state advanceFrame collided)
              0 31 (Some (FenceFd 20))
              (script_dequeue SOURCE_SINK (world collided)).2)
    as (old & evs & _ & _ & _ & Hlog & _);
    [compute_it | compute_it | compute_it | compute_it | compute_it | compute_it
    | compute_it | compute_it | compute_it | compute_it | compute_it | compute_it |].
  exists evs. etransitivity; [exact Hlog|]. reflexivity.
Defined.

(** The collision with a sink whose [requestBuffer] fails and writes
    nothing: [advanceFrame] returns [NO_ERROR] all the same, and the
    renderer's buffer 100 is the framebuffer and the output buffer. *)
Lemma advanceFrame_collision_unanswered :
  mProducerBuffers (self collided_alone) !! 31%nat = Some (Some 100)
  /\ exists st',
       advanceFrame collided_alone = Some (NO_ERROR, st')
       /\ new_events collided_alone st' =
            [SrcDequeueBuffer SOURCE_SINK 1280 720 0 2048;
             SrcRequestBuffer SOURCE_SINK 31;
             HwcFbPost 0 (Some (FenceFd 55)) (Some 100);
             HwcSetOutputBuffer 0 (Some (FenceFd 20)) (Some 100)].
Proof.
  split; [vm_compute; reflexivity|].
  eexists. split; vm_compute; reflexivity.
Qed.

End MoreAndroidRuns.
